(** * GPTBatchSequentialDetector: a shallow embedding

    Source: [src/alignment/batch_sequential_detector.py].

    The Python class [GPTBatchSequentialDetector] is embedded function by
    function.  Python values are modelled as follows:

    - [str] is [string]; a character is a code point below 256, and the
      white space and line boundary tables below are the ones of Python's
      [str.split()] and [str.splitlines()] on that range;
    - [int] is [nat] where the source only counts or indexes from 0, and [Z]
      where a value can be negative (the [-1] of [pylcs], the line offset and
      the cursor of [detect], the [offset] of the tokenizer);
    - an exception is a constructor of [exn], and a function that can raise
      returns a [result];
    - [dict[int, set[int]]] is [gmap nat (gset nat)], [dict[str, int]] is
      [gmap string nat];
    - the hit rates are exact rationals ([Q]).  Python computes them as
      correctly rounded doubles; the comparison with [0.6] and the bounds
      [0] and [1] agree with the exact ones as long as a line has fewer
      than 10^15 word characters.

    The collaborators that are not code of the class are parameters of the
    section [Detector]: the token counter ([tiktoken]), the token budget, the
    LCS routine ([pylcs.lcs_sequence_idx]) and the remote reflow request
    ([utils.gpt_detect_hard_line_breaks]). *)

From Stdlib Require Import ZArith QArith Lia Ascii String.
From stdpp Require Import base option list gmap strings fin_maps fin_sets sorting.

#[local] Set Warnings "-clear-no-such-hyp".

Local Open Scope string_scope.
Local Open Scope list_scope.
Local Open Scope nat_scope.

(** ** Exceptions and results *)

(** The exceptions the class can end with.  [RequestError] stands for
    whatever the remote request raises. *)
Inductive exn : Set :=
  | ValueError
  | ZeroDivisionError
  | IndexError
  | AttributeError
  | TypeError
  | AssertionError
  | RequestError.

Inductive result (A : Type) : Type :=
  | Ok (a : A)
  | Raise (e : exn).
Arguments Ok {A} a.
Arguments Raise {A} e.

Definition result_bind {A B : Type} (f : A → result B) (r : result A) : result B :=
  match r with
  | Ok a => f a
  | Raise e => Raise e
  end.

#[global] Instance result_mbind : MBind result := @result_bind.
#[global] Instance result_mret : MRet result := @Ok.
#[global] Instance result_fmap : FMap result :=
  λ A B f r, match r with Ok a => Ok (f a) | Raise e => Raise e end.

(** ** Python built-ins used by the class *)

Module Py.

(** [str.isspace] on one character, code points below 256. *)
Definition isspace (c : ascii) : bool :=
  let n := nat_of_ascii c in
  ((9 <=? n) && (n <=? 13)) || ((28 <=? n) && (n <=? 32))
  || (n =? 133) || (n =? 160).

(** [s.split()]: the maximal runs of characters that are not white space.
    [cur] is the word being read. *)
Fixpoint split_from (cur : string) (s : string) : list string :=
  match s with
  | EmptyString => if decide (cur = "") then [] else [cur]
  | String c s' =>
      if isspace c
      then (if decide (cur = "") then split_from "" s'
            else cur :: split_from "" s')
      else split_from (cur +:+ String c "") s'
  end.

Definition split (s : string) : list string := split_from "" s.

(** The line boundaries of [str.splitlines()] below code point 256. *)
Definition islinebreak (c : ascii) : bool :=
  let n := nat_of_ascii c in
  ((10 <=? n) && (n <=? 13)) || ((28 <=? n) && (n <=? 30)) || (n =? 133).

(** [s.splitlines()]: ["\r\n"] is one boundary, and no empty last line is
    produced by a final boundary. *)
Fixpoint splitlines_from (cur : string) (s : string) : list string :=
  match s with
  | EmptyString => if decide (cur = "") then [] else [cur]
  | String c s' =>
      if islinebreak c
      then match s' with
           | String c' s'' =>
               if (nat_of_ascii c =? 13) && (nat_of_ascii c' =? 10)
               then cur :: splitlines_from "" s''
               else cur :: splitlines_from "" s'
           | EmptyString => [cur]
           end
      else splitlines_from (cur +:+ String c "") s'
  end.

Definition splitlines (s : string) : list string := splitlines_from "" s.

(** [chr(n)]: [ValueError] outside [range(0x110000)].  The character is
    kept as its code point. *)
Definition chr (n : Z) : result Z :=
  if decide (0 ≤ n < 1114112)%Z then Ok n else Raise ValueError.

(** [l[i]] with an [int] index: negative indices count from the end. *)
Definition getitem {A : Type} (l : list A) (i : Z) : result A :=
  let n := Z.of_nat (length l) in
  let j := if decide (i < 0)%Z then (i + n)%Z else i in
  if decide (0 ≤ j < n)%Z
  then match l !! Z.to_nat j with Some x => Ok x | None => Raise IndexError end
  else Raise IndexError.

(** [l[i] = x] with an [int] index. *)
Definition setitem {A : Type} (l : list A) (i : Z) (x : A) : result (list A) :=
  let n := Z.of_nat (length l) in
  let j := if decide (i < 0)%Z then (i + n)%Z else i in
  if decide (0 ≤ j < n)%Z then Ok (<[Z.to_nat j := x]> l) else Raise IndexError.

(** The one-character string ["\n"]. *)
Definition newline : string := String (ascii_of_nat 10) "".

(** [a / b] on two [int]s. *)
Definition truediv (a b : nat) : result Q :=
  if decide (b = 0) then Raise ZeroDivisionError
  else Ok (Z.of_nat a # Pos.of_nat b).

(** [x < y] on two rates. *)
Definition ltb (x y : Q) : bool :=
  (Qnum x * Zpos (Qden y) <? Qnum y * Zpos (Qden x))%Z.

(** [l[i] += v] on a list of [int]s, [i] an index counted from 0. *)
Definition additem (l : list nat) (i v : nat) : result (list nat) :=
  match l !! i with
  | Some x => Ok (<[i := x + v]> l)
  | None => Raise IndexError
  end.

(** [sep.join(l)]. *)
Fixpoint join (sep : string) (l : list string) : string :=
  match l with
  | [] => ""
  | x :: rest =>
      match rest with
      | [] => x
      | _ :: _ => x +:+ sep +:+ join sep rest
      end
  end.

(** [sum(map(len, words))]. *)
Definition sum_len (words : list string) : nat :=
  sum_list (String.length <$> words).

(** [max] of a set of line ids; [ValueError] on the empty set. *)
Definition max_of (s : gset nat) : result nat :=
  match elements s with
  | [] => Raise ValueError
  | x :: l => Ok (foldr Nat.max x l)
  end.

End Py.

(** ** Tokens *)

(** [LCSTokenInfo = namedtuple('LCSTokenInfo', ('token', 'length',
    'source_line_id'))].  The field [length] is named [length_] here. *)
Record LCSTokenInfo : Set := mkLCSTokenInfo {
  token : Z;
  length_ : nat;
  source_line_id : nat
}.

(** [word_dict.setdefault(word, len(word_dict))]: the dictionary after the
    call and the value returned. *)
Definition setdefault_len (word_dict : gmap string nat) (word : string)
  : gmap string nat * nat :=
  match word_dict !! word with
  | Some i => (word_dict, i)
  | None => (<[word := size word_dict]> word_dict, size word_dict)
  end.

(** Inner loop of the first [for] of [tokenize_by_space_splited_word]
    (lines 42-47): the words of one input line. *)
Fixpoint tokenize_input_words (offset : Z) (input_line_id : nat)
    (words : list string) (st : gmap string nat * list LCSTokenInfo)
  : result (gmap string nat * list LCSTokenInfo) :=
  match words with
  | [] => Ok st
  | word :: rest =>
      let '(word_dict, input_tokens_info) := st in
      let '(word_dict', id) := setdefault_len word_dict word in
      c ← Py.chr (offset + Z.of_nat id);
      tokenize_input_words offset input_line_id rest
        (word_dict',
         input_tokens_info ++ [mkLCSTokenInfo c (String.length word) input_line_id])
  end.

(** First [for] (lines 41-47), over [enumerate(input_lines)]. *)
Fixpoint tokenize_input_lines (offset : Z) (input_line_id : nat)
    (input_lines : list string) (st : gmap string nat * list LCSTokenInfo)
  : result (gmap string nat * list LCSTokenInfo) :=
  match input_lines with
  | [] => Ok st
  | input_line :: rest =>
      st' ← tokenize_input_words offset input_line_id (Py.split input_line) st;
      tokenize_input_lines offset (S input_line_id) rest st'
  end.

(** Inner loop of the second [for] (lines 50-56): a word that is not a key
    of [word_dict] appends nothing. *)
Fixpoint tokenize_output_words (offset : Z) (word_dict : gmap string nat)
    (output_line_id : nat) (words : list string)
    (output_tokens_info : list LCSTokenInfo) : result (list LCSTokenInfo) :=
  match words with
  | [] => Ok output_tokens_info
  | word :: rest =>
      match word_dict !! word with
      | Some id =>
          c ← Py.chr (offset + Z.of_nat id);
          tokenize_output_words offset word_dict output_line_id rest
            (output_tokens_info
               ++ [mkLCSTokenInfo c (String.length word) output_line_id])
      | None =>
          tokenize_output_words offset word_dict output_line_id rest
            output_tokens_info
      end
  end.

(** Second [for] (lines 49-56), over [enumerate(output_lines)]. *)
Fixpoint tokenize_output_lines (offset : Z) (word_dict : gmap string nat)
    (output_line_id : nat) (output_lines : list string)
    (output_tokens_info : list LCSTokenInfo) : result (list LCSTokenInfo) :=
  match output_lines with
  | [] => Ok output_tokens_info
  | output_line :: rest =>
      acc ← tokenize_output_words offset word_dict output_line_id
              (Py.split output_line) output_tokens_info;
      tokenize_output_lines offset word_dict (S output_line_id) rest acc
  end.

(** [tokenize_by_space_splited_word(input_lines, output_lines, offset)]. *)
Definition tokenize_by_space_splited_word (input_lines output_lines : list string)
    (offset : Z) : result (list LCSTokenInfo * list LCSTokenInfo) :=
  '(word_dict, input_tokens_info) ←
     tokenize_input_lines offset 0 input_lines (∅, []);
  output_tokens_info ←
     tokenize_output_lines offset word_dict 0 output_lines [];
  Ok (input_tokens_info, output_tokens_info).

(** The dictionary the first loop leaves behind; the second loop reads it
    and never writes it. *)
Definition word_dict_of (input_lines : list string) (offset : Z)
  : result (gmap string nat) :=
  fst <$> tokenize_input_lines offset 0 input_lines (∅, []).

(** ** The aligner *)

(** [input_lines: list[str] | str]: the two shapes the aligner accepts. *)
Inductive lines_arg : Set :=
  | Lines (l : list string)
  | Text (s : string).

(** Lines 75-78: a [str] argument is replaced by its [splitlines()]. *)
Definition as_lines (a : lines_arg) : list string :=
  match a with
  | Lines l => l
  | Text s => Py.splitlines s
  end.

(** The confidence threshold [0.6]. *)
Definition threshold : Q := 6 # 10.

Section Detector.

(** [pylcs.lcs_sequence_idx(s1, s2)]: for each position of [s1], the
    matched position of [s2] or [-1].  The strings are given as the lists
    of their code points. *)
Variable lcs_sequence_idx : list Z → list Z → list Z.

(** [len(self.encoder.encode(text))]. *)
Variable count_tokens : string → nat.

(** [self.token_limit]. *)
Variable token_limit : Z.

(** [utils.gpt_detect_hard_line_breaks(raw_text, use_proxy=...)]. *)
Variable gpt_detect_hard_line_breaks : string → result string.

(** Modelled from the spec: [tokenize_for_lcs], the name line 81 calls, is
    not defined in the class; the spec (4.2, step 1) has the aligner encode
    both sides with the TokenEncoder, which is
    [tokenize_by_space_splited_word] with its default [offset=0]. *)
Definition tokenize_for_lcs (input_lines output_lines : list string)
  : result (list LCSTokenInfo * list LCSTokenInfo) :=
  tokenize_by_space_splited_word input_lines output_lines 0.

(** Body of the [for] of lines 92-98, for one pair of
    [enumerate(aligned_indexes)]. *)
Definition align_step (input_tokens_info output_tokens_info : list LCSTokenInfo)
    (input_token_index : nat) (output_token_index : Z)
    (st : gmap nat (gset nat) * list nat * list nat)
  : result (gmap nat (gset nat) * list nat * list nat) :=
  let '(mapping, input_hit_rate, output_hit_rate) := st in
  if decide (output_token_index ≠ (-1)%Z) then
    it ← Py.getitem input_tokens_info (Z.of_nat input_token_index);
    ot ← Py.getitem output_tokens_info output_token_index;
    let mapping' :=
      <[source_line_id ot :=
          default ∅ (mapping !! source_line_id ot) ∪ {[source_line_id it]}]>
        mapping in
    input_hit_rate' ← Py.additem input_hit_rate (source_line_id it) (length_ it);
    output_hit_rate' ← Py.additem output_hit_rate (source_line_id ot) (length_ ot);
    Ok (mapping', input_hit_rate', output_hit_rate')
  else Ok st.

(** The [for] of lines 92-98. *)
Fixpoint align_loop (input_tokens_info output_tokens_info : list LCSTokenInfo)
    (input_token_index : nat) (aligned_indexes : list Z)
    (st : gmap nat (gset nat) * list nat * list nat)
  : result (gmap nat (gset nat) * list nat * list nat) :=
  match aligned_indexes with
  | [] => Ok st
  | output_token_index :: rest =>
      st' ← align_step input_tokens_info output_tokens_info
              input_token_index output_token_index st;
      align_loop input_tokens_info output_tokens_info
        (S input_token_index) rest st'
  end.

(** The [for] loops of lines 100-103: entry [p] is divided by the word
    characters of line [p]. *)
Fixpoint normalize (lines : list string) (p : nat) (hit_rate : list nat)
  : result (list Q) :=
  match hit_rate with
  | [] => Ok []
  | i :: rest =>
      line ← Py.getitem lines (Z.of_nat p);
      r ← Py.truediv i (Py.sum_len (Py.split line));
      rs ← normalize lines (S p) rest;
      Ok (r :: rs)
  end.

(** The [for] of lines 106-109. *)
Fixpoint drop_low (p : nat) (output_hit_rate : list Q)
    (mapping : gmap nat (gset nat)) : gmap nat (gset nat) :=
  match output_hit_rate with
  | [] => mapping
  | i :: rest =>
      drop_low (S p) rest
        (if Py.ltb i threshold
         then (if decide (is_Some (mapping !! p)) then delete p mapping
               else mapping)
         else mapping)
  end.

(** [lcs_sequence_alignment(input_lines, output_lines)]. *)
Definition lcs_sequence_alignment (input_lines output_lines : lines_arg)
  : result (gmap nat (gset nat) * list Q * list Q) :=
  let input_lines := as_lines input_lines in
  let output_lines := as_lines output_lines in
  '(input_tokens_info, output_tokens_info) ←
     tokenize_for_lcs input_lines output_lines;
  let input_hit_rate := replicate (length input_lines) 0 in
  let output_hit_rate := replicate (length output_lines) 0 in
  let input_tokens := token <$> input_tokens_info in
  let output_tokens := token <$> output_tokens_info in
  let aligned_indexes := lcs_sequence_idx input_tokens output_tokens in
  '(mapping, input_hit_rate, output_hit_rate) ←
     align_loop input_tokens_info output_tokens_info 0 aligned_indexes
       (∅, input_hit_rate, output_hit_rate);
  input_hit_rate ← normalize input_lines 0 input_hit_rate;
  output_hit_rate ← normalize output_lines 0 output_hit_rate;
  let mapping := drop_low 0 output_hit_rate mapping in
  Ok (mapping, input_hit_rate, output_hit_rate).

(** *** The cached request *)

(** [gpt_linebreak_detection_request(raw_text, record_id, batch_index)].
    The cache directory is a map from the pair that forms the file name
    [record_{record_id}_processed_batch_{batch_index}.json] to the stored
    text; the function returns its result and the directory it leaves. *)
Definition gpt_linebreak_detection_request (raw_text record_id : string)
    (batch_index : nat) (cache_dir : gmap (string * nat) string)
  : result string * gmap (string * nat) string :=
  match cache_dir !! (record_id, batch_index) with
  | None =>
      match gpt_detect_hard_line_breaks raw_text with
      | Ok output_text =>
          (Ok output_text, <[(record_id, batch_index) := output_text]> cache_dir)
      | Raise e => (Raise e, cache_dir)
      end
  | Some output_text => (Ok output_text, cache_dir)
  end.

(** *** The batch processor *)

(** [utils.compute_near_linebreak_match(raw_text, output_text, margin)]. *)
Variable compute_near_linebreak_match :
  string → string → nat → result (list bool).

(** The [for] of lines 151-159 over [enumerate(batches)], from index [i]. *)
Fixpoint process_batches_loop (record_id : string) (i : nat)
    (batches : list (list string)) (processed_batches : list string)
    (detections : list bool) (cache_dir : gmap (string * nat) string)
  : result (list string * list bool) * gmap (string * nat) string :=
  match batches with
  | [] => (Ok (processed_batches, detections), cache_dir)
  | batch :: rest =>
      let raw_text := Py.join Py.newline batch in
      match gpt_linebreak_detection_request raw_text record_id i cache_dir with
      | (Raise e, cache_dir') => (Raise e, cache_dir')
      | (Ok output_text, cache_dir') =>
          match compute_near_linebreak_match raw_text output_text 10 with
          | Raise e => (Raise e, cache_dir')
          | Ok is_hard_line_break =>
              process_batches_loop record_id (S i) rest
                (processed_batches ++ [output_text])
                (detections ++ is_hard_line_break) cache_dir'
          end
      end
  end.

(** [process_batches(batches, record_id)]. *)
Definition process_batches (batches : list (list string)) (record_id : string)
    (cache_dir : gmap (string * nat) string)
  : result (list string * list bool) * gmap (string * nat) string :=
  process_batches_loop record_id 0 batches [] [] cache_dir.

(** *** The batcher *)

(** The [for] of lines 167-173 over the line ids still to visit; [last] is
    the value the loop variable [lineid] holds when the loop runs out, and
    lines 174-175 follow ([None] when the function falls off its end). *)
Fixpoint gen_batch_loop (lines : list string) (ids : list Z) (buf : string)
    (last : Z) : result (option (string * Z)) :=
  match ids with
  | [] => Ok (if decide (buf = "") then None else Some (buf, (last + 1)%Z))
  | lineid :: rest =>
      line ← Py.getitem lines lineid;
      let tmp :=
        (if decide (0 < String.length buf) then buf +:+ Py.newline else "")
          +:+ line in
      if decide (token_limit ≤ Z.of_nat (count_tokens tmp))%Z
      then Ok (Some (buf, lineid))
      else gen_batch_loop lines rest tmp lineid
  end.

(** [gen_batch(lines, begin_lineid)]. *)
Definition gen_batch (lines : list string) (begin_lineid : Z)
  : result (option (string * Z)) :=
  let n := Z.of_nat (length lines) in
  if decide (begin_lineid < n)%Z
  then gen_batch_loop lines (seqZ begin_lineid (n - begin_lineid)) ""
         begin_lineid
  else Raise AssertionError.

(** *** The detection loop *)

(** The values the name [align_map] can be bound to: the 3-tuple that
    [lcs_sequence_alignment] returns (line 111), which is what line 202
    binds, and the [dict] its uses on lines 206-216 are written for. *)
Inductive pyval : Type :=
  | VTuple3 (mapping : gmap nat (gset nat))
            (input_hit_rate output_hit_rate : list Q)
  | VDict (mapping : gmap nat (gset nat)).

(** [len(v)]. *)
Definition py_len (v : pyval) : nat :=
  match v with
  | VTuple3 _ _ _ => 3
  | VDict m => size m
  end.

(** [v.keys()]: a tuple has no such attribute. *)
Definition py_keys (v : pyval) : result (gset nat) :=
  match v with
  | VTuple3 _ _ _ => Raise AttributeError
  | VDict m => Ok (dom m)
  end.

(** [v.values()]. *)
Definition py_values (v : pyval) : result (list (gset nat)) :=
  match v with
  | VTuple3 _ _ _ => Raise AttributeError
  | VDict m => Ok ((map_to_list m).*2)
  end.

(** [v.pop(max(v.keys()))]. *)
Definition py_pop_max_key (v : pyval) : result pyval :=
  match v with
  | VTuple3 _ _ _ => Raise AttributeError
  | VDict m => k ← Py.max_of (dom m); Ok (VDict (delete k m))
  end.

(** The state of one run: the decision vector, the cursor and the batch
    counter (lines 190-193). *)
Record DetectionState : Set := mkDetectionState {
  detections : list bool;
  todo_lineid : Z;
  batch_id : nat
}.

(** Lines 215-217 for one group: [ids] are the members still to visit. *)
Fixpoint mark_group (igroups : gset nat) (ids : list nat)
    (input_line_offset : Z) (detections : list bool) : result (list bool) :=
  match ids with
  | [] => Ok detections
  | igroup :: rest =>
      if decide (igroup + 1 ∈ igroups) then
        detections' ←
          Py.setitem detections (Z.of_nat igroup + input_line_offset)%Z true;
        mark_group igroups rest input_line_offset detections'
      else mark_group igroups rest input_line_offset detections
  end.

(** Lines 214-217, over the groups of [align_map.values()]. *)
Fixpoint mark_groups (groups : list (gset nat)) (input_line_offset : Z)
    (detections : list bool) : result (list bool) :=
  match groups with
  | [] => Ok detections
  | igroups :: rest =>
      detections' ←
        mark_group igroups (elements igroups) input_line_offset detections;
      mark_groups rest input_line_offset detections'
  end.

(** Lines 205-212: the value of [align_map] and the cursor after the
    boundary repair. *)
Definition advance_cursor (lines : list string) (next_line_id : Z)
    (input_line_offset : Z) (align_map : pyval) : result (pyval * Z) :=
  if decide (next_line_id < Z.of_nat (length lines))%Z then
    align_map' ←
      (if decide (1 < py_len align_map) then py_pop_max_key align_map
       else Ok align_map);
    groups ← py_values align_map';
    m ← Py.max_of (⋃ groups);
    Ok (align_map', (Z.of_nat m + input_line_offset + 1)%Z)
  else Ok (align_map, Z.of_nat (length lines)).

(** Lines 203-217: the part of the loop body that follows the binding of
    [align_map]. *)
Definition detect_after_align (lines : list string) (batch : string)
    (next_line_id : Z) (align_map : pyval) (st : DetectionState)
  : result DetectionState :=
  let input_line_offset :=
    (next_line_id - Z.of_nat (length (Py.splitlines batch)))%Z in
  line ← Py.getitem lines input_line_offset;
  first ← Py.getitem (Py.splitlines batch) 0;
  if decide (line = first) then
    '(align_map', todo) ←
       advance_cursor lines next_line_id input_line_offset align_map;
    groups ← py_values align_map';
    detections' ← mark_groups groups input_line_offset (detections st);
    Ok (mkDetectionState detections' todo (batch_id st))
  else Raise AssertionError.

(** How one pass through the loop body ends. *)
Inductive outcome : Set :=
  | Continue (st : DetectionState)
  | Break (st : DetectionState).

(** Lines 196-217: one pass through the body of the [while]. *)
Definition detect_iter (lines : list string) (record_id : string)
    (st : DetectionState) (cache_dir : gmap (string * nat) string)
  : result outcome * gmap (string * nat) string :=
  match gen_batch lines (todo_lineid st) with
  | Raise e => (Raise e, cache_dir)
  | Ok None => (Raise TypeError, cache_dir)
  | Ok (Some (batch, next_line_id)) =>
      if decide (count_tokens batch < 20) then (Ok (Break st), cache_dir)
      else
        match gpt_linebreak_detection_request batch record_id (batch_id st)
                cache_dir with
        | (Raise e, cache_dir') => (Raise e, cache_dir')
        | (Ok output_text, cache_dir') =>
            let r :=
              '(mapping, input_hit_rate, output_hit_rate) ←
                 lcs_sequence_alignment (Text batch) (Text output_text);
              let align_map := VTuple3 mapping input_hit_rate output_hit_rate in
              st' ← detect_after_align lines batch next_line_id align_map st;
              Ok (Continue st') in
            (r, cache_dir')
        end
  end.

(** The [while] of line 195; [None] when [fuel] passes do not end it. *)
Fixpoint detect_loop (fuel : nat) (lines : list string) (record_id : string)
    (st : DetectionState) (cache_dir : gmap (string * nat) string)
  : option (result (list bool)) * gmap (string * nat) string :=
  if decide (todo_lineid st < Z.of_nat (length lines))%Z then
    match fuel with
    | 0 => (None, cache_dir)
    | S fuel' =>
        match detect_iter lines record_id st cache_dir with
        | (Raise e, cache_dir') => (Some (Raise e), cache_dir')
        | (Ok (Break st'), cache_dir') => (Some (Ok (detections st')), cache_dir')
        | (Ok (Continue st'), cache_dir') =>
            detect_loop fuel' lines record_id st' cache_dir'
        end
    end
  else (Some (Ok (detections st)), cache_dir).

(** [detect(lines, record_id)]: [[False] * (len(lines) - 1)] is the empty
    list when [lines] is empty. *)
Definition detect (fuel : nat) (lines : list string) (record_id : string)
    (cache_dir : gmap (string * nat) string)
  : option (result (list bool)) * gmap (string * nat) string :=
  detect_loop fuel lines record_id
    (mkDetectionState (replicate (length lines - 1) false) 0 0) cache_dir.

(** *** The requests of a run *)




End Detector.

(** ** A reference LCS routine

    [pylcs] is a C++ extension and not code of this repository.  The
    dynamic program below is the textbook one; it instantiates the
    parameter [lcs_sequence_idx] where the development runs the code on
    concrete documents. *)

Module RefLCS.

(** Row [i] of the table from row [i-1], columns [1..n]. *)
Fixpoint next_row (x : Z) (s2 : list Z) (prev : list nat) (diag left : nat)
  : list nat :=
  match s2, prev with
  | y :: s2', up :: prev' =>
      let v := if decide (x = y) then S diag
               else if decide (left ≤ up) then up else left in
      v :: next_row x s2' prev' up v
  | _, _ => []
  end.

(** Rows [1..m]. *)
Fixpoint table (s1 s2 : list Z) (prev : list nat) : list (list nat) :=
  match s1 with
  | [] => []
  | x :: s1' => let r := next_row x s2 prev 0 0 in r :: table s1' s2 r
  end.

Definition dp (rows : list (list nat)) (i j : nat) : nat :=
  match i, j with
  | S i', S j' => default 0 (rows !! i' ≫= (.!! j'))
  | _, _ => 0
  end.

(** Walk back from the corner [(i, j)], recording the matched pairs. *)
Fixpoint backtrack (fuel : nat) (s1 s2 : list Z) (rows : list (list nat))
    (i j : nat) (res : list Z) : list Z :=
  match fuel, i, j with
  | S fuel', S i', S j' =>
      if decide (s1 !! i' = s2 !! j')
      then backtrack fuel' s1 s2 rows i' j' (<[i' := Z.of_nat j']> res)
      else if decide (dp rows i (S j') ≤ dp rows i' (S j'))
           then backtrack fuel' s1 s2 rows i' j res
           else backtrack fuel' s1 s2 rows i j' res
  | _, _, _ => res
  end.

Definition lcs_sequence_idx (s1 s2 : list Z) : list Z :=
  let rows := table s1 s2 (replicate (length s2) 0) in
  backtrack (length s1 + length s2) s1 s2 rows (length s1) (length s2)
    (replicate (length s1) (-1)%Z).

End RefLCS.

(** ** Definitions used to state the properties *)

(** The words of the lines, each with the id of its line, in reading
    order; [p] is the id of the first line. *)
Fixpoint line_words (p : nat) (lines : list string) : list (string * nat) :=
  match lines with
  | [] => []
  | line :: rest => ((λ w, (w, p)) <$> Py.split line) ++ line_words (S p) rest
  end.

(** The distinct words of a sequence, in the order they are first seen. *)
Definition see (seen : list string) (w : string) : list string :=
  if decide (w ∈ seen) then seen else seen ++ [w].

Definition first_seen (words : list string) : list string :=
  foldl see [] words.

(** Token [t] stands for the word [wl.1] of line [wl.2] under the
    dictionary [word_dict]: its symbol is [chr(offset + id)] for the id of
    the word, its length is the length of the word, its line is the word's
    line. *)
Definition token_of_word (offset : Z) (word_dict : gmap string nat)
    (wl : string * nat) (t : LCSTokenInfo) : Prop :=
  ∃ id, word_dict !! wl.1 = Some id
        ∧ Py.chr (offset + Z.of_nat id) = Ok (token t)
        ∧ length_ t = String.length wl.1
        ∧ source_line_id t = wl.2.

(** The ids of [word_dict] number the words of [seen] in order. *)
Definition numbers (word_dict : gmap string nat) (seen : list string) : Prop :=
  (∀ w k, word_dict !! w = Some k ↔ seen !! k = Some w)
  ∧ size word_dict = length seen.

(** The text of a batch made of [lines]: the lines joined by a newline,
    the empty lines at the front leaving no trace. *)
Definition batch_text (lines : list string) : string :=
  foldl (λ buf line,
           (if decide (0 < String.length buf) then buf +:+ Py.newline else "")
             +:+ line) "" lines.

(** What [gen_batch] promises about a batch [(text, e)] that starts at
    line [start]: it is the text of the lines [start .. k-1], it is empty
    or under the budget, and it stops at the end of the document or in
    front of the line that would reach the budget. *)
Definition batch_post (count_tokens : string → nat) (token_limit : Z)
    (lines : list string) (start : nat) (text : string) (e : Z) : Prop :=
  ∃ k : nat,
    e = Z.of_nat k ∧ start ≤ k ≤ length lines
    ∧ text = batch_text (take (k - start) (drop start lines))
    ∧ (text = "" ∨ (Z.of_nat (count_tokens text) < token_limit)%Z)
    ∧ (k = length lines
       ∨ ∃ line, lines !! k = Some line
           ∧ (token_limit ≤ Z.of_nat (count_tokens
                (batch_text (take (S k - start) (drop start lines)))))%Z).

(** The lines that [lines[lineid]] reads while [lineid] runs over
    [range(start, len(lines))] (lines 167-168): a negative id counts from
    the end of the list, so a negative [start] reads the tail of the list
    and then the whole list; from [start >= 0] on these are the lines
    [lines[start:]]. *)
Definition visited (lines : list string) (start : Z) : list string :=
  if decide (start < 0)%Z
  then drop (Z.to_nat (Z.of_nat (length lines) + start)) lines ++ lines
  else drop (Z.to_nat start) lines.

(** The token count of the first [j] visited lines, joined as a batch. *)
Definition prefix_tokens (count_tokens : string → nat) (lines : list string)
    (start : Z) (j : nat) : Z :=
  Z.of_nat (count_tokens (batch_text (take j (visited lines start)))).

(** A line holds none of the line boundaries of [str.splitlines()]. *)
Fixpoint one_line (s : string) : bool :=
  match s with
  | EmptyString => true
  | String c s' => negb (Py.islinebreak c) && one_line s'
  end.

(** The word characters that the tokens of line [p] carry. *)
Definition line_weight (tokens : list LCSTokenInfo) (p : nat) : nat :=
  sum_list (length_ <$> filter (λ t, source_line_id t = p) tokens).

(** The characters of the words of line [q] in a list of words with their
    lines. *)
Definition word_weight (wls : list (string * nat)) (q : nat) : nat :=
  sum_list ((λ wl, String.length wl.1) <$> filter (λ wl, wl.2 = q) wls).

(** The shape of an index vector: each entry is [-1] or a position in
    [lo, hi), and the positions increase strictly from left to right. *)
Fixpoint increasing_from (lo : Z) (res : list Z) (hi : Z) : bool :=
  match res with
  | [] => true
  | j :: rest =>
      if decide (j = (-1)%Z) then increasing_from lo rest hi
      else bool_decide (lo ≤ j < hi)%Z && increasing_from (j + 1) rest hi
  end.

(** [res] is an index vector for a first string of [n1] symbols and a second
    of [n2]. *)
Definition index_vector_ok (n1 n2 : nat) (res : list Z) : bool :=
  bool_decide (length res = n1) && increasing_from 0 res (Z.of_nat n2).

(** The number of matched positions of an index vector. *)
Definition matched_count (res : list Z) : nat :=
  length (filter (λ j, j ≠ (-1)%Z) res).

(** The length of a longest common subsequence. *)
Fixpoint lcs_length (s1 s2 : list Z) : nat :=
  match s1 with
  | [] => 0
  | x :: s1' =>
      (fix inner (s2 : list Z) : nat :=
         match s2 with
         | [] => 0
         | y :: s2' =>
             if decide (x = y) then S (lcs_length s1' s2')
             else Nat.max (lcs_length s1' s2) (inner s2')
         end) s2
  end.

(** What [pylcs.lcs_sequence_idx] promises about one call: an index vector
    that matches as many positions as a longest common subsequence has. *)
Definition lcs_contract (s1 s2 res : list Z) : bool :=
  index_vector_ok (length s1) (length s2) res
  && bool_decide (matched_count res = lcs_length s1 s2).

(** A line has at least one word. *)
Definition has_word (line : string) : Prop := Py.split line ≠ [].

#[global] Instance has_word_dec (line : string) : Decision (has_word line).
Proof. unfold has_word. apply _. Defined.

(** Input line [p] is in the group of output line [q]. *)
Definition grouped (mapping : gmap nat (gset nat)) (q p : nat) : Prop :=
  ∃ s, mapping !! q = Some s ∧ p ∈ s.

(** A rate lies in [0, 1]. *)
Definition in_unit (r : Q) : Prop := (0 <= r)%Q ∧ (r <= 1)%Q.

(** *** Collaborators for the runs on concrete documents *)

(** A token counter that counts the words. *)
Definition word_counter (s : string) : nat := length (Py.split s).

(** A reflow request that answers with its input. *)
Definition echo (s : string) : result string := Ok s.

(** A line break matcher that finds no hard break: one [False] per gap
    between the lines of the raw text. *)
Definition all_soft (raw_text output_text : string) (margin : nat)
  : result (list bool) :=
  Ok (replicate (length (Py.splitlines raw_text) - 1) false).

(** A line of 26 words. *)
Definition alphabet_line : string :=
  "a b c d e f g h i j k l m n o p q r s t u v w x y z".

(** * Properties *)

(** ** Results *)

Lemma bind_Ok {A B : Type} (f : A → result B) (r : result A) (b : B) :
  r ≫= f = Ok b → ∃ a, r = Ok a ∧ f a = Ok b.
Proof. destruct r as [a|e]; [eauto | discriminate]. Qed.

Ltac inv_bind H :=
  let a := fresh "a" in
  let Ha := fresh "H" a in
  apply bind_Ok in H as (a & Ha & H).

(** ** Built-ins *)

Lemma split_from_nonempty (s cur : string) :
  Forall (λ w, w ≠ "") (Py.split_from cur s).
Proof.
  revert cur. induction s as [|c s IH]; intros cur; simpl.
  - case_decide; [constructor | by repeat constructor].
  - destruct (Py.isspace c).
    + case_decide; [apply IH | constructor; [done | apply IH]].
    + apply IH.
Qed.

Lemma split_word_length (line w : string) :
  w ∈ Py.split line → 0 < String.length w.
Proof.
  intros Hw. pose proof (split_from_nonempty line "") as HF.
  rewrite Forall_forall in HF. specialize (HF w Hw).
  destruct w; [done | simpl; lia].
Qed.

Lemma has_word_sum_len (line : string) :
  has_word line ↔ 0 < Py.sum_len (Py.split line).
Proof.
  unfold has_word, Py.sum_len. split.
  - destruct (Py.split line) as [|w ws] eqn:E; [done | intros _].
    assert (0 < String.length w) by (apply (split_word_length line); rewrite E; left).
    simpl. lia.
  - destruct (Py.split line); [simpl; lia | done].
Qed.

Lemma getitem_nat {A : Type} (l : list A) (i : nat) (x : A) :
  l !! i = Some x → Py.getitem l (Z.of_nat i) = Ok x.
Proof.
  intros H. pose proof (lookup_lt_Some _ _ _ H). unfold Py.getitem.
  destruct (decide (Z.of_nat i < 0)%Z); [lia|].
  destruct (decide _); [|lia]. by rewrite Nat2Z.id, H.
Qed.

Lemma setitem_length {A : Type} (l l' : list A) (i : Z) (x : A) :
  Py.setitem l i x = Ok l' → length l' = length l.
Proof.
  unfold Py.setitem. case_decide; [|done]. intros [= <-]. apply length_insert.
Qed.

Lemma additem_length (l l' : list nat) (i v : nat) :
  Py.additem l i v = Ok l' → length l' = length l.
Proof.
  unfold Py.additem. destruct (l !! i); [|done]. intros [= <-].
  apply length_insert.
Qed.

Lemma max_of_Ok (s : gset nat) (m : nat) :
  Py.max_of s = Ok m → m ∈ s ∧ ∀ x, x ∈ s → x ≤ m.
Proof.
  unfold Py.max_of. intros H.
  assert (∀ l x, foldr Nat.max x l ∈ x :: l ∧ ∀ y, y ∈ x :: l → y ≤ foldr Nat.max x l)
    as Hmax.
  { clear. induction l as [|a l IH]; intros x; simpl.
    - split; [left | intros y ->%list_elem_of_singleton; lia].
    - destruct (IH x) as [Hin Hle]. split.
      + destruct (Nat.max_spec a (foldr Nat.max x l)) as [[_ ->]|[_ ->]].
        * apply elem_of_cons in Hin as [->|Hin]; [left | right; by right].
        * right; left.
      + intros y Hy. rewrite !elem_of_cons in Hy.
        destruct Hy as [->|[->|Hy]].
        * assert (x ≤ foldr Nat.max x l) by (apply Hle; left). lia.
        * lia.
        * assert (y ≤ foldr Nat.max x l) by (apply Hle; by right). lia. }
  destruct (elements s) as [|x l] eqn:E; [done|]. injection H as <-.
  destruct (Hmax l x) as [Hin Hle]. rewrite <- E in Hin, Hle.
  split; [by apply elem_of_elements|].
  intros y Hy. apply Hle. by apply elem_of_elements.
Qed.

Lemma max_of_Raise (s : gset nat) (e : exn) :
  Py.max_of s = Raise e → s = ∅ ∧ e = ValueError.
Proof.
  unfold Py.max_of. destruct (elements s) eqn:E; [|done].
  intros [= <-]. split; [|done]. by apply elements_empty_inv in E as ->%leibniz_equiv.
Qed.

(** ** The batcher *)

Lemma batch_text_snoc (lines : list string) (line : string) :
  batch_text (lines ++ [line])
  = (if decide (0 < String.length (batch_text lines))
     then batch_text lines +:+ Py.newline else "") +:+ line.
Proof. unfold batch_text. by rewrite foldl_snoc. Qed.

Lemma append_cons (c : ascii) (s t : string) :
  String c s +:+ t = String c (s +:+ t).
Proof. reflexivity. Qed.

Lemma append_empty_r (s : string) : s +:+ "" = s.
Proof. induction s as [|c s IH]; [done|]. by rewrite append_cons, IH. Qed.

Lemma append_assoc (a b c : string) : (a +:+ b) +:+ c = a +:+ (b +:+ c).
Proof. induction a as [|x a IH]; [done|]. by rewrite !append_cons, IH. Qed.

Lemma append_empty (a b : string) : a +:+ b = "" → a = "" ∧ b = "".
Proof.
  destruct a as [|c a]; [intros H; change (b = "") in H; by split|].
  by rewrite append_cons.
Qed.

Lemma string_length_pos (s : string) : 0 < String.length s ↔ s ≠ "".
Proof. destruct s; simpl; split; (done || lia). Qed.

Lemma batch_text_empty (lines : list string) :
  batch_text lines = "" ↔ Forall (λ line, line = "") lines.
Proof.
  induction lines as [|line lines IH] using rev_ind.
  - split; [constructor | done].
  - rewrite batch_text_snoc, Forall_app, Forall_singleton, <- IH. split.
    + intros [H1 ->]%append_empty. split; [|done].
      case_decide as Hlen.
      * by apply append_empty in H1 as [-> _].
      * destruct (batch_text lines); [done | simpl in Hlen; lia].
    + intros [-> ->]. by simpl.
Qed.

Section Batcher.

Variable count_tokens : string → nat.
Variable token_limit : Z.

Lemma gen_batch_loop_spec (lines : list string) (start : nat) :
  ∀ (rem k : nat) (buf : string) (last : Z),
    k + rem = length lines → start ≤ k →
    buf = batch_text (take (k - start) (drop start lines)) →
    (buf = "" ∨ (Z.of_nat (count_tokens buf) < token_limit)%Z) →
    (rem = 0 → (last + 1)%Z = Z.of_nat (length lines)) →
    ∃ r, gen_batch_loop count_tokens token_limit lines
           (seqZ (Z.of_nat k) (Z.of_nat rem)) buf last = Ok r
         ∧ match r with
           | None => batch_text (drop start lines) = ""
           | Some (text, e) =>
               batch_post count_tokens token_limit lines start text e
           end.
Proof.
  induction rem as [|rem IH]; intros k buf last Hlen Hk Hbuf Hlim Hlast.
  - rewrite seqZ_nil by lia. simpl.
    assert (buf = batch_text (drop start lines)) as Hall.
    { rewrite Hbuf. f_equal. apply take_ge. rewrite length_drop. lia. }
    case_decide as Hemp.
    + eexists; split; [reflexivity|]. simpl. by rewrite <- Hall.
    + eexists; split; [reflexivity|]. simpl.
      exists k. rewrite Hlast by done.
      repeat split; [by f_equal; lia | lia | lia | done | done | left; lia].
  - rewrite seqZ_cons by lia. simpl.
    assert (is_Some (lines !! k)) as [line Hline]
      by (apply lookup_lt_is_Some; lia).
    rewrite (getitem_nat _ _ _ Hline). simpl.
    assert (take (S k - start) (drop start lines)
            = take (k - start) (drop start lines) ++ [line]) as Htake.
    { replace (S k - start) with (S (k - start)) by lia.
      apply take_S_r. rewrite lookup_drop.
      by replace (start + (k - start)) with k by lia. }
    assert (batch_text (take (S k - start) (drop start lines))
            = (if decide (0 < String.length buf) then buf +:+ Py.newline else "")
                +:+ line) as Htmp.
    { by rewrite Htake, batch_text_snoc, <- Hbuf. }
    rewrite <- Htmp. clear Htmp.
    destruct (decide (token_limit ≤ _)%Z) as [Hover|Hover].
    + eexists; split; [reflexivity|]. simpl. exists k.
      repeat split; [lia | lia | done | done |].
      right. exists line. by split.
    + replace (Z.succ (Z.of_nat k)) with (Z.of_nat (S k)) by lia.
      replace (Z.pred (Z.of_nat (S rem))) with (Z.of_nat rem) by lia.
      apply IH; [lia | lia | done | right; lia | lia].
Qed.

End Batcher.

Lemma getitem_int {A : Type} (l : list A) (i : Z) (x : A) :
  (- Z.of_nat (length l) ≤ i)%Z →
  l !! Z.to_nat (if decide (i < 0)%Z then i + Z.of_nat (length l) else i)%Z
  = Some x →
  Py.getitem l i = Ok x.
Proof.
  intros Hlow Hx. unfold Py.getitem.
  pose proof (lookup_lt_Some _ _ _ Hx) as Hlt.
  rewrite decide_True by (case_decide; lia). by rewrite Hx.
Qed.

Lemma visited_length (lines : list string) (start : Z) :
  (- Z.of_nat (length lines) ≤ start < Z.of_nat (length lines))%Z →
  Z.of_nat (length (visited lines start))
  = (Z.of_nat (length lines) - start)%Z.
Proof.
  intros Hstart. unfold visited. case_decide.
  - rewrite length_app, length_drop. lia.
  - rewrite length_drop. lia.
Qed.

(** The [i]-th line that the loop of [gen_batch] reads is the [i]-th
    visited line. *)
Lemma visited_lookup (lines : list string) (start : Z) (i : nat) (v : string) :
  (- Z.of_nat (length lines) ≤ start < Z.of_nat (length lines))%Z →
  visited lines start !! i = Some v →
  Py.getitem lines (start + Z.of_nat i) = Ok v.
Proof.
  intros Hstart. unfold visited. case_decide as Hneg.
  - intros Hv. apply getitem_int; [lia|].
    destruct (decide (Z.of_nat i < - start)%Z) as [Hi|Hi].
    + rewrite lookup_app_l in Hv by (rewrite length_drop; lia).
      rewrite lookup_drop in Hv. rewrite decide_True by lia.
      rewrite <- Hv. f_equal. lia.
    + rewrite lookup_app_r in Hv by (rewrite length_drop; lia).
      rewrite length_drop in Hv. rewrite decide_False by lia.
      rewrite <- Hv. f_equal. lia.
  - intros Hv. rewrite lookup_drop in Hv.
    apply getitem_int; [lia|]. rewrite decide_False by lia.
    rewrite <- Hv. f_equal. lia.
Qed.

Section FirstOverflow.

Variable count_tokens : string → nat.
Variable token_limit : Z.

(** The loop of [gen_batch] over the visited lines [V]: with the first
    [j] lines in the buffer and every prefix tried so far under the
    budget, it stops in front of the first line whose prefix reaches the
    budget, and runs to the end when there is none. *)
Lemma gen_batch_loop_first_overflow (lines : list string) (start : Z)
    (V : list string) :
  (∀ i v, V !! i = Some v → Py.getitem lines (start + Z.of_nat i) = Ok v) →
  ∀ (rem j : nat) (buf : string) (last : Z),
    j + rem = length V →
    buf = batch_text (take j V) →
    (∀ i, i < j →
       (Z.of_nat (count_tokens (batch_text (take (S i) V))) < token_limit)%Z) →
    (rem = 0 → (last + 1)%Z = (start + Z.of_nat (length V))%Z) →
    ∃ r, gen_batch_loop count_tokens token_limit lines
           (seqZ (start + Z.of_nat j) (Z.of_nat rem)) buf last = Ok r
         ∧ match r with
           | None =>
               batch_text V = ""
               ∧ ∀ i, i < length V →
                   (Z.of_nat (count_tokens (batch_text (take (S i) V)))
                    < token_limit)%Z
           | Some (text, e) =>
               ∃ j' : nat,
                 e = (start + Z.of_nat j')%Z ∧ j' ≤ length V
                 ∧ text = batch_text (take j' V)
                 ∧ (∀ i, i < j' →
                      (Z.of_nat (count_tokens (batch_text (take (S i) V)))
                       < token_limit)%Z)
                 ∧ ((j' < length V
                     ∧ (token_limit
                        ≤ Z.of_nat (count_tokens (batch_text (take (S j') V))))%Z)
                    ∨ (j' = length V ∧ text ≠ ""))
           end.
Proof.
  intros Hget.
  induction rem as [|rem IH]; intros j buf last Hlen Hbuf Hunder Hlast.
  - rewrite seqZ_nil by lia. simpl.
    assert (buf = batch_text V) as Hall.
    { rewrite Hbuf. f_equal. apply take_ge. lia. }
    case_decide as Hemp.
    + eexists; split; [reflexivity|]. simpl. split; [by rewrite <- Hall|].
      intros i Hi. apply Hunder. lia.
    + eexists; split; [reflexivity|]. simpl. exists j.
      rewrite Hlast by done.
      split; [f_equal; lia|]. split; [lia|]. split; [done|].
      split; [done|]. right. split; [lia | done].
  - rewrite seqZ_cons by lia. simpl.
    assert (is_Some (V !! j)) as [line Hline]
      by (apply lookup_lt_is_Some; lia).
    rewrite (Hget _ _ Hline). simpl.
    assert (batch_text (take (S j) V)
            = (if decide (0 < String.length buf) then buf +:+ Py.newline else "")
                +:+ line) as Htmp.
    { by rewrite (take_S_r _ _ _ Hline), batch_text_snoc, <- Hbuf. }
    rewrite <- Htmp.
    destruct (decide (token_limit ≤ _)%Z) as [Hover|Hover].
    + eexists; split; [reflexivity|]. simpl. exists j.
      split; [done|]. split; [lia|]. split; [done|]. split; [done|].
      left. split; [lia | done].
    + replace (Z.succ (start + Z.of_nat j)) with (start + Z.of_nat (S j))%Z
        by lia.
      replace (Z.pred (Z.of_nat (S rem))) with (Z.of_nat rem) by lia.
      apply IH; [lia | done | | lia].
      intros i Hi. destruct (decide (i = j)) as [->|Hne]; [lia|].
      apply Hunder. lia.
Qed.

End FirstOverflow.

(** C3 (as amended).  Let [start] be an index of the list, counted from
    the front or, when negative, from the end.  [gen_batch] then raises
    nothing, and its result is fixed by the first visited line whose
    prefix reaches the budget.  If [j] is the position of that line, the
    result is the text of the [j] visited lines before it with the end
    [start + j]: every shorter prefix is strictly under the budget, and so
    the text is empty or strictly under the budget.  If no prefix reaches
    the budget, the result is the text of all visited lines with the end
    [len(lines)] when that text is not empty, and [None] exactly when all
    visited lines are empty.  When the line at [start] alone reaches the
    budget, the result is the empty text with the end [start]: that line is
    not emitted.  A [start] at or beyond the end of the list fails the
    assertion of line 164; a [start] below [-len(lines)] raises
    [IndexError] on line 168. *)
Theorem gen_batch_stops_at_first_overflow (count_tokens : string → nat)
    (token_limit : Z) (lines : list string) (start : Z) :
  ((- Z.of_nat (length lines) ≤ start < Z.of_nat (length lines))%Z →
   (∃ r, gen_batch count_tokens token_limit lines start = Ok r
         ∧ match r with
           | None =>
               Forall (λ line, line = "") (visited lines start)
               ∧ ∀ i, i < length (visited lines start) →
                   (prefix_tokens count_tokens lines start (S i) < token_limit)%Z
           | Some (text, e) =>
               ∃ j : nat,
                 e = (start + Z.of_nat j)%Z
                 ∧ j ≤ length (visited lines start)
                 ∧ text = batch_text (take j (visited lines start))
                 ∧ (∀ i, i < j →
                      (prefix_tokens count_tokens lines start (S i)
                       < token_limit)%Z)
                 ∧ (text = ""
                    ∨ (Z.of_nat (count_tokens text) < token_limit)%Z)
                 ∧ ((j < length (visited lines start)
                     ∧ (token_limit
                        ≤ prefix_tokens count_tokens lines start (S j))%Z)
                    ∨ (j = length (visited lines start)
                       ∧ e = Z.of_nat (length lines) ∧ text ≠ ""))
           end)
   ∧ (gen_batch count_tokens token_limit lines start = Ok None
      ↔ Forall (λ line, line = "") (visited lines start)
        ∧ ∀ i, i < length (visited lines start) →
            (prefix_tokens count_tokens lines start (S i) < token_limit)%Z)
   ∧ (∀ line, visited lines start !! 0 = Some line →
        (token_limit ≤ Z.of_nat (count_tokens line))%Z →
        gen_batch count_tokens token_limit lines start = Ok (Some ("", start))))
  ∧ ((Z.of_nat (length lines) ≤ start)%Z →
     gen_batch count_tokens token_limit lines start = Raise AssertionError)
  ∧ ((start < - Z.of_nat (length lines))%Z →
     gen_batch count_tokens token_limit lines start = Raise IndexError).
Proof.
  split; [|split].
  - intros Hstart.
    pose proof (visited_length lines start Hstart) as HlenV.
    assert (∃ r, gen_batch count_tokens token_limit lines start = Ok r
         ∧ match r with
           | None =>
               Forall (λ line, line = "") (visited lines start)
               ∧ ∀ i, i < length (visited lines start) →
                   (prefix_tokens count_tokens lines start (S i) < token_limit)%Z
           | Some (text, e) =>
               ∃ j : nat,
                 e = (start + Z.of_nat j)%Z
                 ∧ j ≤ length (visited lines start)
                 ∧ text = batch_text (take j (visited lines start))
                 ∧ (∀ i, i < j →
                      (prefix_tokens count_tokens lines start (S i)
                       < token_limit)%Z)
                 ∧ (text = ""
                    ∨ (Z.of_nat (count_tokens text) < token_limit)%Z)
                 ∧ ((j < length (visited lines start)
                     ∧ (token_limit
                        ≤ prefix_tokens count_tokens lines start (S j))%Z)
                    ∨ (j = length (visited lines start)
                       ∧ e = Z.of_nat (length lines) ∧ text ≠ ""))
           end) as Hmain.
    { unfold gen_batch. rewrite decide_True by lia.
      destruct (gen_batch_loop_first_overflow count_tokens token_limit lines
                  start (visited lines start)
                  (λ i v, visited_lookup lines start i v Hstart)
                  (length (visited lines start)) 0 "" start)
        as (r & Hrun & Hpost); [lia | done | lia | lia |].
      rewrite Z.add_0_r, HlenV in Hrun. exists r. split; [done|].
      destruct r as [[text e]|].
      - destruct Hpost as (j & -> & Hj & -> & Hunder & Hstop).
        exists j. split; [done|]. split; [done|]. split; [done|].
        split; [done|]. split.
        + destruct j as [|j]; [by left|]. right. apply Hunder. lia.
        + destruct Hstop as [?|[-> Hne]]; [by left|]. right.
          split; [done|]. split; [lia | done].
      - destruct Hpost as [Hemp Hunder]. split; [|done].
        by apply batch_text_empty. }
    split; [done|]. split.
    + destruct Hmain as (r & Hrun & Hpost). rewrite Hrun. split.
      * intros [= ->]. done.
      * intros [Hemp Hunder]. destruct r as [[text e]|]; [|done].
        destruct Hpost as (j & _ & _ & -> & _ & _ & [[Hj Hover]|(-> & _ & Hne)]).
        -- specialize (Hunder j Hj). lia.
        -- rewrite firstn_all in Hne. by apply batch_text_empty in Hemp.
    + intros line Hline Hover. unfold gen_batch. rewrite decide_True by lia.
      rewrite seqZ_cons by lia. simpl.
      pose proof (visited_lookup lines start 0 line Hstart Hline) as Hget.
      rewrite Z.add_0_r in Hget. rewrite Hget. simpl. by rewrite decide_True.
  - intros Hstart. unfold gen_batch. by rewrite decide_False by lia.
  - intros Hstart. unfold gen_batch. rewrite decide_True by lia.
    rewrite seqZ_cons by lia. simpl.
    unfold Py.getitem. repeat case_decide; (done || lia).
Qed.

Lemma gen_batch_stops_at_first_overflow_witness :
  (∃ r, gen_batch word_counter 5 ["a b"; "c d"; "e f"; "g h"] 1 = Ok r
        ∧ match r with
          | None =>
              Forall (λ line, line = "") (visited ["a b"; "c d"; "e f"; "g h"] 1)
              ∧ ∀ i, i < length (visited ["a b"; "c d"; "e f"; "g h"] 1) →
                  (prefix_tokens word_counter ["a b"; "c d"; "e f"; "g h"] 1 (S i)
                   < 5)%Z
          | Some (text, e) =>
              ∃ j : nat,
                e = (1 + Z.of_nat j)%Z
                ∧ j ≤ length (visited ["a b"; "c d"; "e f"; "g h"] 1)
                ∧ text = batch_text (take j (visited ["a b"; "c d"; "e f"; "g h"] 1))
                ∧ (∀ i, i < j →
                     (prefix_tokens word_counter ["a b"; "c d"; "e f"; "g h"] 1
                        (S i) < 5)%Z)
                ∧ (text = "" ∨ (Z.of_nat (word_counter text) < 5)%Z)
                ∧ ((j < length (visited ["a b"; "c d"; "e f"; "g h"] 1)
                    ∧ (5 ≤ prefix_tokens word_counter
                             ["a b"; "c d"; "e f"; "g h"] 1 (S j))%Z)
                   ∨ (j = length (visited ["a b"; "c d"; "e f"; "g h"] 1)
                      ∧ e = Z.of_nat (length ["a b"; "c d"; "e f"; "g h"])
                      ∧ text ≠ ""))
          end)
  ∧ gen_batch word_counter 5 ["a b"; "c d"; "e f"; "g h"] 1
    = Ok (Some ("c d" +:+ Py.newline +:+ "e f", 3%Z))
  ∧ gen_batch word_counter 5 ["a b"; "c d"] (-1)
    = Ok (Some ("c d" +:+ Py.newline +:+ "a b", 1%Z)).
Proof.
  destruct (gen_batch_stops_at_first_overflow word_counter 5
              ["a b"; "c d"; "e f"; "g h"] 1) as [Hin _].
  destruct Hin as [Hmain _]; [simpl; lia|].
  split; [exact Hmain | split; reflexivity].
Defined.

(** C3, as the claim states it, fails: with a budget of 3 tokens a first
    line of four words gives the empty text with the end at the start, so
    the oversized line is not emitted; and on a document whose lines are all
    empty no text is returned at all. *)
Lemma gen_batch_empty_batch_counterexample :
  gen_batch word_counter 3 ["a b c d"; "e"] 0 = Ok (Some ("", 0%Z))
  ∧ gen_batch word_counter 1400 [""] 0 = Ok None.
Proof. split; reflexivity. Qed.

(** ** The tokenizer *)

Lemma numbers_elem_of (d : gmap string nat) (seen : list string) (w : string) :
  numbers d seen → (w ∈ seen ↔ is_Some (d !! w)).
Proof.
  intros [Hiff _]. rewrite list_elem_of_lookup. unfold is_Some.
  split; intros [k Hk]; exists k; by apply Hiff.
Qed.

Lemma numbers_see (d : gmap string nat) (seen : list string) (w : string) :
  numbers d seen → numbers (setdefault_len d w).1 (see seen w).
Proof.
  intros Hnum. pose proof (numbers_elem_of d seen w Hnum) as Hin.
  destruct Hnum as [Hiff Hsize]. unfold setdefault_len, see.
  destruct (d !! w) as [i|] eqn:Hd; simpl.
  - rewrite decide_True by (apply Hin; eauto). by split.
  - rewrite decide_False by (rewrite Hin; by intros [? ?]).
    assert (w ∉ seen) as Hnotin by (rewrite Hin; by intros [? ?]).
    split.
    + intros w' k. destruct (decide (w' = w)) as [->|Hne].
      * rewrite lookup_insert_eq, Hsize. split.
        -- intros [= <-]. by rewrite lookup_app_r, Nat.sub_diag.
        -- intros Hk. f_equal.
           destruct (decide (k < length seen)) as [Hlt|Hge].
           ++ rewrite lookup_app_l in Hk by done.
              destruct Hnotin. apply list_elem_of_lookup. eauto.
           ++ apply lookup_lt_Some in Hk. rewrite length_app in Hk.
              simpl in Hk. lia.
      * rewrite lookup_insert_ne by done. rewrite Hiff. split.
        -- intros Hk. rewrite lookup_app_l; [done|]. by eapply lookup_lt_Some.
        -- intros Hk. destruct (decide (k < length seen)) as [Hlt|Hge].
           ++ by rewrite lookup_app_l in Hk.
           ++ rewrite lookup_app_r in Hk by lia.
              destruct (k - length seen) as [|n]; simpl in Hk; [|done].
              congruence.
    + rewrite map_size_insert_None by done. rewrite length_app. simpl. lia.
Qed.

Lemma setdefault_len_subseteq (d : gmap string nat) (w : string) :
  d ⊆ (setdefault_len d w).1.
Proof.
  unfold setdefault_len. destruct (d !! w) eqn:Hd; simpl; [done|].
  by apply insert_subseteq.
Qed.

Lemma setdefault_len_lookup (d : gmap string nat) (w : string) :
  (setdefault_len d w).1 !! w = Some (setdefault_len d w).2.
Proof.
  unfold setdefault_len. destruct (d !! w) eqn:Hd; simpl; [done|].
  apply lookup_insert_eq.
Qed.

Lemma token_of_word_weaken (offset : Z) (d d' : gmap string nat)
    (wl : string * nat) (t : LCSTokenInfo) :
  d ⊆ d' → token_of_word offset d wl t → token_of_word offset d' wl t.
Proof.
  intros Hsub (id & Hid & H). exists id. split; [|done].
  by eapply lookup_weaken.
Qed.

Lemma tokenize_input_words_spec (offset : Z) (lid : nat) (ws : list string) :
  ∀ (d : gmap string nat) (acc : list LCSTokenInfo) (seen : list string)
    (d' : gmap string nat) (acc' : list LCSTokenInfo),
    tokenize_input_words offset lid ws (d, acc) = Ok (d', acc') →
    numbers d seen →
    numbers d' (foldl see seen ws) ∧ d ⊆ d'
    ∧ ∃ toks, acc' = acc ++ toks
        ∧ Forall2 (token_of_word offset d') ((λ w, (w, lid)) <$> ws) toks.
Proof.
  induction ws as [|w ws IH]; intros d acc seen d' acc' Hrun Hnum; simpl in *.
  - injection Hrun as <- <-. split; [done|]. split; [done|].
    exists []. split; [by rewrite app_nil_r | constructor].
  - pose proof (numbers_see d seen w Hnum) as Hnum'.
    pose proof (setdefault_len_subseteq d w) as Hsub.
    pose proof (setdefault_len_lookup d w) as Hlook.
    destruct (setdefault_len d w) as [d1 id]. simpl in *.
    inv_bind Hrun.
    destruct (IH _ _ _ _ _ Hrun Hnum') as (Hn & Hsub' & toks & -> & HF).
    split; [done|]. split; [by etrans|].
    eexists (_ :: toks). split; [by rewrite <- app_assoc|].
    constructor; [|done].
    exists id. simpl. split; [by eapply lookup_weaken|]. by split.
Qed.

Lemma tokenize_input_lines_spec (offset : Z) (lines : list string) :
  ∀ (p : nat) (d : gmap string nat) (acc : list LCSTokenInfo)
    (seen : list string) (d' : gmap string nat) (acc' : list LCSTokenInfo),
    tokenize_input_lines offset p lines (d, acc) = Ok (d', acc') →
    numbers d seen →
    numbers d' (foldl see seen (line_words p lines).*1) ∧ d ⊆ d'
    ∧ ∃ toks, acc' = acc ++ toks
        ∧ Forall2 (token_of_word offset d') (line_words p lines) toks.
Proof.
  induction lines as [|line lines IH]; intros p d acc seen d' acc' Hrun Hnum;
    simpl in *.
  - injection Hrun as <- <-. split; [done|]. split; [done|].
    exists []. split; [by rewrite app_nil_r | constructor].
  - inv_bind Hrun. destruct a as [d1 acc1].
    destruct (tokenize_input_words_spec _ _ _ _ _ _ _ _ Ha Hnum)
      as (Hn1 & Hsub1 & toks1 & -> & HF1).
    destruct (IH _ _ _ _ _ _ Hrun Hn1) as (Hn & Hsub & toks & -> & HF).
    split.
    { rewrite fmap_app, foldl_app, <- list_fmap_compose.
      replace ((fst ∘ (λ w : string, (w, p))) <$> Py.split line)
        with (Py.split line); [done|].
      clear. induction (Py.split line) as [|w ws IHws]; [done|].
      rewrite fmap_cons. simpl. by f_equal. }
    split; [by etrans|].
    exists (toks1 ++ toks). split; [by rewrite app_assoc|].
    apply Forall2_app; [|done].
    eapply Forall2_impl; [exact HF1|].
    intros wl t. by apply token_of_word_weaken.
Qed.

Lemma tokenize_output_words_spec (offset : Z) (d : gmap string nat) (lid : nat)
    (ws : list string) :
  ∀ (acc acc' : list LCSTokenInfo),
    tokenize_output_words offset d lid ws acc = Ok acc' →
    ∃ toks, acc' = acc ++ toks
      ∧ Forall2 (token_of_word offset d)
          (filter (λ wl, is_Some (d !! wl.1)) ((λ w, (w, lid)) <$> ws)) toks.
Proof.
  induction ws as [|w ws IH]; intros acc acc' Hrun; simpl in *.
  - injection Hrun as <-. exists []. split; [by rewrite app_nil_r | constructor].
  - destruct (d !! w) as [id|] eqn:Hd.
    + inv_bind Hrun. destruct (IH _ _ Hrun) as (toks & -> & HF).
      eexists (_ :: toks). split; [by rewrite <- app_assoc|].
      rewrite filter_cons_True by (simpl; eauto).
      constructor; [|done]. exists id. by simpl.
    + destruct (IH _ _ Hrun) as (toks & -> & HF).
      exists toks. split; [done|].
      rewrite filter_cons_False; [done|]. simpl. rewrite Hd. by intros [? ?].
Qed.

Lemma tokenize_output_lines_spec (offset : Z) (d : gmap string nat)
    (lines : list string) :
  ∀ (p : nat) (acc acc' : list LCSTokenInfo),
    tokenize_output_lines offset d p lines acc = Ok acc' →
    ∃ toks, acc' = acc ++ toks
      ∧ Forall2 (token_of_word offset d)
          (filter (λ wl, is_Some (d !! wl.1)) (line_words p lines)) toks.
Proof.
  induction lines as [|line lines IH]; intros p acc acc' Hrun; simpl in *.
  - injection Hrun as <-. exists []. split; [by rewrite app_nil_r | constructor].
  - inv_bind Hrun.
    destruct (tokenize_output_words_spec _ _ _ _ _ _ Ha) as (toks1 & -> & HF1).
    destruct (IH _ _ _ Hrun) as (toks & -> & HF).
    exists (toks1 ++ toks). split; [by rewrite app_assoc|].
    rewrite filter_app. by apply Forall2_app.
Qed.

Lemma elem_of_first_seen (ws : list string) (w : string) :
  w ∈ first_seen ws ↔ w ∈ ws.
Proof.
  unfold first_seen.
  assert (∀ seen, w ∈ foldl see seen ws ↔ w ∈ seen ∨ w ∈ ws) as H.
  { induction ws as [|x ws IH]; intros seen; simpl.
    - rewrite elem_of_nil. tauto.
    - rewrite IH, elem_of_cons. unfold see. case_decide as Hx.
      + split; [tauto|]. intros [?|[->|?]]; tauto.
      + rewrite elem_of_app, list_elem_of_singleton. tauto. }
  rewrite H, elem_of_nil. tauto.
Qed.

Lemma numbers_empty : numbers ∅ [].
Proof.
  split; [|done]. intros w k. by rewrite lookup_empty, lookup_nil.
Qed.

(** What a successful run of the tokenizer returns, in one statement. *)
Lemma tokenize_spec (input_lines output_lines : list string) (offset : Z)
    (itoks otoks : list LCSTokenInfo) :
  tokenize_by_space_splited_word input_lines output_lines offset
  = Ok (itoks, otoks) →
  ∃ word_dict,
    word_dict_of input_lines offset = Ok word_dict
    ∧ numbers word_dict (first_seen (line_words 0 input_lines).*1)
    ∧ Forall2 (token_of_word offset word_dict) (line_words 0 input_lines) itoks
    ∧ Forall2 (token_of_word offset word_dict)
        (filter (λ wl, is_Some (word_dict !! wl.1)) (line_words 0 output_lines))
        otoks.
Proof.
  unfold tokenize_by_space_splited_word, word_dict_of. intros Hrun.
  inv_bind Hrun. destruct a as [d acc]. inv_bind Hrun.
  injection Hrun as <- <-.
  destruct (tokenize_input_lines_spec _ _ _ _ _ _ _ _ Ha numbers_empty)
    as (Hn & _ & toks & -> & HF).
  destruct (tokenize_output_lines_spec _ _ _ _ _ _ Ha0) as (toks' & -> & HF').
  exists d. rewrite Ha. simpl. split; [done|]. split; [done|]. by split.
Qed.

(** ** The tokenizer raises nothing on a vocabulary that fits the code space *)

Lemma foldl_see_length (ws : list string) :
  ∀ seen, length seen ≤ length (foldl see seen ws).
Proof.
  induction ws as [|w ws IH]; intros seen; simpl; [done|].
  etrans; [|apply IH]. unfold see. case_decide; [done|].
  rewrite length_app. lia.
Qed.

Lemma numbers_id_lt (d : gmap string nat) (seen : list string) (w : string)
    (id : nat) :
  numbers d seen → d !! w = Some id → id < length seen.
Proof. intros [Hiff _] Hid. apply Hiff in Hid. by eapply lookup_lt_Some. Qed.

Lemma chr_small (offset : Z) (id n : nat) :
  (0 ≤ offset)%Z → (offset + Z.of_nat n ≤ 1114112)%Z → id < n →
  Py.chr (offset + Z.of_nat id) = Ok (offset + Z.of_nat id)%Z.
Proof. intros. unfold Py.chr. rewrite decide_True; [done | lia]. Qed.

Lemma tokenize_input_words_total (offset : Z) (lid : nat) (ws : list string) :
  ∀ (d : gmap string nat) (acc : list LCSTokenInfo) (seen : list string),
    numbers d seen → (0 ≤ offset)%Z →
    (offset + Z.of_nat (length (foldl see seen ws)) ≤ 1114112)%Z →
    ∃ st, tokenize_input_words offset lid ws (d, acc) = Ok st.
Proof.
  induction ws as [|w ws IH]; intros d acc seen Hnum Hoff Hfit; simpl in *.
  - eauto.
  - pose proof (numbers_see d seen w Hnum) as Hnum'.
    pose proof (setdefault_len_lookup d w) as Hlook.
    destruct (setdefault_len d w) as [d1 id]. simpl in *.
    pose proof (numbers_id_lt _ _ _ _ Hnum' Hlook) as Hid.
    pose proof (foldl_see_length ws (see seen w)) as Hmono.
    rewrite (chr_small offset id (length (foldl see (see seen w) ws)))
      by (done || lia).
    simpl. by eapply IH.
Qed.

Lemma tokenize_input_lines_total (offset : Z) (lines : list string) :
  ∀ (p : nat) (d : gmap string nat) (acc : list LCSTokenInfo)
    (seen : list string),
    numbers d seen → (0 ≤ offset)%Z →
    (offset + Z.of_nat (length (foldl see seen (line_words p lines).*1))
     ≤ 1114112)%Z →
    ∃ st, tokenize_input_lines offset p lines (d, acc) = Ok st.
Proof.
  induction lines as [|line lines IH]; intros p d acc seen Hnum Hoff Hfit;
    simpl in *.
  - eauto.
  - assert (((λ w : string, (w, p)) <$> Py.split line).*1 = Py.split line) as Hfst.
    { clear. induction (Py.split line) as [|w ws IHws]; [done|].
      rewrite !fmap_cons. simpl. by f_equal. }
    rewrite fmap_app, foldl_app, Hfst in Hfit.
    destruct (tokenize_input_words_total offset p (Py.split line) d acc seen)
      as [[d1 acc1] Hrun]; [done | done | |].
    { pose proof (foldl_see_length (line_words (S p) lines).*1
                    (foldl see seen (Py.split line))). lia. }
    rewrite Hrun. simpl.
    destruct (tokenize_input_words_spec _ _ _ _ _ _ _ _ Hrun Hnum) as (Hn1 & _).
    by eapply IH.
Qed.

Lemma tokenize_output_words_total (offset : Z) (d : gmap string nat)
    (seen : list string) (lid : nat) (ws : list string) :
  numbers d seen → (0 ≤ offset)%Z →
  (offset + Z.of_nat (length seen) ≤ 1114112)%Z →
  ∀ acc, ∃ acc', tokenize_output_words offset d lid ws acc = Ok acc'.
Proof.
  intros Hnum Hoff Hfit. induction ws as [|w ws IH]; intros acc; simpl.
  - eauto.
  - destruct (d !! w) as [id|] eqn:Hd; [|apply IH].
    rewrite (chr_small offset id (length seen));
      [simpl; apply IH | done | done | by eapply numbers_id_lt].
Qed.

Lemma tokenize_output_lines_total (offset : Z) (d : gmap string nat)
    (seen : list string) (lines : list string) :
  numbers d seen → (0 ≤ offset)%Z →
  (offset + Z.of_nat (length seen) ≤ 1114112)%Z →
  ∀ p acc, ∃ acc', tokenize_output_lines offset d p lines acc = Ok acc'.
Proof.
  intros Hnum Hoff Hfit. induction lines as [|line lines IH]; intros p acc; simpl.
  - eauto.
  - destruct (tokenize_output_words_total offset d seen p (Py.split line)
                Hnum Hoff Hfit acc) as [acc1 ->].
    simpl. apply IH.
Qed.

Lemma tokenize_total (input_lines output_lines : list string) (offset : Z) :
  (0 ≤ offset)%Z →
  (offset + Z.of_nat (length (first_seen (line_words 0 input_lines).*1))
   ≤ 1114112)%Z →
  ∃ itoks otoks,
    tokenize_by_space_splited_word input_lines output_lines offset
    = Ok (itoks, otoks).
Proof.
  intros Hoff Hfit. unfold tokenize_by_space_splited_word.
  destruct (tokenize_input_lines_total offset input_lines 0 ∅ [] []
              numbers_empty Hoff Hfit) as [[d itoks] Hrun].
  destruct (tokenize_input_lines_spec _ _ _ _ _ _ _ _ Hrun numbers_empty)
    as (Hnum & _).
  destruct (tokenize_output_lines_total offset d _ output_lines Hnum Hoff Hfit 0 [])
    as [otoks Hout].
  rewrite Hrun. simpl. rewrite Hout. simpl. eauto.
Qed.

Lemma Forall2_elem_of_r {A B : Type} (P : A → B → Prop) (l : list A) (k : list B)
    (y : B) :
  Forall2 P l k → y ∈ k → ∃ x, x ∈ l ∧ P x y.
Proof.
  intros HF [i Hi]%list_elem_of_lookup.
  destruct (Forall2_lookup_r _ _ _ _ _ HF Hi) as (x & Hx & HP).
  exists x. split; [|done]. apply list_elem_of_lookup. eauto.
Qed.

Lemma Forall2_elem_of_l {A B : Type} (P : A → B → Prop) (l : list A) (k : list B)
    (x : A) :
  Forall2 P l k → x ∈ l → ∃ y, y ∈ k ∧ P x y.
Proof.
  intros HF [i Hi]%list_elem_of_lookup.
  destruct (Forall2_lookup_l _ _ _ _ _ HF Hi) as (y & Hy & HP).
  exists y. split; [|done]. apply list_elem_of_lookup. eauto.
Qed.

(** C10.  The tokenizer returns on every vocabulary that fits the code
    space of [chr].  When it returns, there is a dictionary, the one its
    first loop builds from the input lines alone, such that: the id of a
    word is its rank among the distinct input words in first-seen order;
    the input tokens are, word for word, the input words, each with the
    symbol [chr(offset + id)] of its id, its length and its line; the
    output tokens are, in order, the output words that are keys of the
    dictionary, coded the same way, the other output words leaving no
    token; and so the symbol of every output token is the symbol of some
    input token. *)
Theorem tokenizer_symbols_from_input_dictionary
    (input_lines output_lines : list string) (offset : Z) :
  ((0 ≤ offset)%Z →
   (offset + Z.of_nat (length (first_seen (line_words 0 input_lines).*1))
    ≤ 1114112)%Z →
   ∃ itoks otoks,
     tokenize_by_space_splited_word input_lines output_lines offset
     = Ok (itoks, otoks))
  ∧ (∀ itoks otoks,
       tokenize_by_space_splited_word input_lines output_lines offset
       = Ok (itoks, otoks) →
       ∃ word_dict,
         word_dict_of input_lines offset = Ok word_dict
         ∧ (∀ w k, word_dict !! w = Some k
                   ↔ first_seen (line_words 0 input_lines).*1 !! k = Some w)
         ∧ Forall2 (token_of_word offset word_dict)
             (line_words 0 input_lines) itoks
         ∧ Forall2 (token_of_word offset word_dict)
             (filter (λ wl, is_Some (word_dict !! wl.1))
                (line_words 0 output_lines))
             otoks
         ∧ ∀ t, t ∈ otoks → token t ∈ token <$> itoks).
Proof.
  split; [apply tokenize_total|].
  intros itoks otoks Hrun.
  destruct (tokenize_spec _ _ _ _ _ Hrun) as (d & Hd & Hnum & HFi & HFo).
  exists d. split; [done|]. split; [apply Hnum|]. split; [done|].
  split; [done|].
  intros t Ht.
  destruct (Forall2_elem_of_r _ _ _ _ HFo Ht) as ([w lid] & _ & id & Hid & Hchr & _).
  simpl in *.
  assert (w ∈ (line_words 0 input_lines).*1) as Hw.
  { apply elem_of_first_seen, (numbers_elem_of d); [done | eauto]. }
  apply list_elem_of_fmap in Hw as ([w' lid'] & -> & Hwl). simpl in *.
  destruct (Forall2_elem_of_l _ _ _ _ HFi Hwl) as (t' & Ht' & id' & Hid' & Hchr' & _).
  simpl in *. apply list_elem_of_fmap. exists t'. split; [|done].
  congruence.
Qed.

Lemma tokenizer_symbols_from_input_dictionary_witness :
  ∃ itoks otoks,
    tokenize_by_space_splited_word ["a b a"; "c"] ["b x"; "a c"] 0
    = Ok (itoks, otoks)
    ∧ ∃ word_dict,
        word_dict_of ["a b a"; "c"] 0 = Ok word_dict
        ∧ (∀ w k, word_dict !! w = Some k
                  ↔ first_seen (line_words 0 ["a b a"; "c"]).*1 !! k = Some w)
        ∧ Forall2 (token_of_word 0 word_dict) (line_words 0 ["a b a"; "c"]) itoks
        ∧ Forall2 (token_of_word 0 word_dict)
            (filter (λ wl, is_Some (word_dict !! wl.1))
               (line_words 0 ["b x"; "a c"]))
            otoks
        ∧ ∀ t, t ∈ otoks → token t ∈ token <$> itoks.
Proof.
  destruct (tokenizer_symbols_from_input_dictionary
              ["a b a"; "c"] ["b x"; "a c"] 0) as [Htotal Hspec].
  destruct Htotal as (itoks & otoks & Hrun);
    [lia | vm_compute; discriminate |].
  exists itoks, otoks. split; [exact Hrun | by apply Hspec].
Defined.

(** ** Weights of lines *)

Lemma word_weight_app (l k : list (string * nat)) (q : nat) :
  word_weight (l ++ k) q = word_weight l q + word_weight k q.
Proof. unfold word_weight. by rewrite filter_app, fmap_app, sum_list_with_app. Qed.

Lemma sum_list_cons (x : nat) (l : list nat) :
  sum_list (x :: l) = x + sum_list l.
Proof. reflexivity. Qed.

Lemma word_weight_same_line (ws : list string) (p : nat) :
  word_weight ((λ w, (w, p)) <$> ws) p = Py.sum_len ws.
Proof.
  unfold word_weight, Py.sum_len. induction ws as [|w ws IH]; [done|].
  rewrite fmap_cons, filter_cons_True by done.
  by rewrite !fmap_cons, !sum_list_cons, IH.
Qed.

Lemma word_weight_other_line (ws : list string) (p q : nat) :
  p ≠ q → word_weight ((λ w, (w, p)) <$> ws) q = 0.
Proof.
  intros Hne. unfold word_weight. induction ws as [|w ws IH]; [done|].
  rewrite fmap_cons, filter_cons_False by done. exact IH.
Qed.

Lemma line_words_ids (lines : list string) :
  ∀ (p : nat) (wl : string * nat),
    wl ∈ line_words p lines → p ≤ wl.2 < p + length lines.
Proof.
  induction lines as [|line lines IH]; intros p wl Hwl; simpl in *.
  - by apply elem_of_nil in Hwl.
  - apply elem_of_app in Hwl as [Hwl|Hwl].
    + apply list_elem_of_fmap in Hwl as (w & -> & _). simpl. lia.
    + apply IH in Hwl. lia.
Qed.

Lemma word_weight_before (lines : list string) (p q : nat) :
  q < p → word_weight (line_words p lines) q = 0.
Proof.
  intros Hlt. unfold word_weight.
  assert (Forall (λ wl, wl.2 ≠ q) (line_words p lines)) as HF.
  { apply Forall_forall. intros wl Hwl%line_words_ids. lia. }
  induction HF as [|wl wls Hwl _ IH]; [done|].
  by rewrite filter_cons_False.
Qed.

Lemma word_weight_line_words (lines : list string) :
  ∀ (p q : nat) (line : string),
    lines !! q = Some line →
    word_weight (line_words p lines) (p + q) = Py.sum_len (Py.split line).
Proof.
  induction lines as [|l lines IH]; intros p q line Hq; [done|].
  simpl. rewrite word_weight_app. destruct q as [|q]; simpl in Hq.
  - injection Hq as ->. rewrite Nat.add_0_r, word_weight_same_line.
    rewrite word_weight_before by lia. lia.
  - rewrite word_weight_other_line by lia.
    replace (p + S q) with (S p + q) by lia. by rewrite (IH _ _ _ Hq).
Qed.

Lemma word_weight_filter (P : string * nat → Prop) `{∀ x, Decision (P x)}
    (wls : list (string * nat)) (q : nat) :
  word_weight (filter P wls) q ≤ word_weight wls q.
Proof.
  unfold word_weight. induction wls as [|wl wls IH]; [done|].
  destruct (decide (P wl)) as [HP|HP].
  - rewrite (filter_cons_True P) by done.
    destruct (decide (wl.2 = q)) as [Hq|Hq].
    + rewrite !(filter_cons_True (λ wl, wl.2 = q)) by done.
      rewrite !fmap_cons, !sum_list_cons. lia.
    + by rewrite !(filter_cons_False (λ wl, wl.2 = q)) by done.
  - rewrite (filter_cons_False P) by done.
    destruct (decide (wl.2 = q)) as [Hq|Hq].
    + rewrite (filter_cons_True (λ wl, wl.2 = q)) by done.
      rewrite !fmap_cons, !sum_list_cons. lia.
    + by rewrite (filter_cons_False (λ wl, wl.2 = q)) by done.
Qed.

Lemma line_weight_words (offset : Z) (d : gmap string nat)
    (wls : list (string * nat)) (toks : list LCSTokenInfo) (q : nat) :
  Forall2 (token_of_word offset d) wls toks →
  line_weight toks q = word_weight wls q.
Proof.
  unfold line_weight, word_weight.
  induction 1 as [|wl t wls toks (id & _ & _ & Hlen & Hline) _ IH]; [done|].
  destruct (decide (wl.2 = q)) as [Hq|Hq].
  - rewrite !filter_cons_True by congruence.
    by rewrite !fmap_cons, !sum_list_cons, IH, Hlen.
  - by rewrite !filter_cons_False by congruence.
Qed.

Lemma line_weight_snoc (toks : list LCSTokenInfo) (t : LCSTokenInfo) (p : nat) :
  line_weight (toks ++ [t]) p
  = line_weight toks p + (if decide (source_line_id t = p) then length_ t else 0).
Proof.
  unfold line_weight. rewrite filter_app, fmap_app, sum_list_with_app.
  case_decide.
  - rewrite filter_cons_True by done. rewrite filter_nil. simpl. lia.
  - rewrite filter_cons_False by done. rewrite filter_nil. simpl. lia.
Qed.

Lemma line_weight_app_le (l k : list LCSTokenInfo) (p : nat) :
  line_weight l p ≤ line_weight (l ++ k) p.
Proof. unfold line_weight. rewrite filter_app, fmap_app, sum_list_with_app. lia. Qed.

Lemma line_weight_take_mono (toks : list LCSTokenInfo) (i j p : nat) :
  i ≤ j → line_weight (take i toks) p ≤ line_weight (take j toks) p.
Proof.
  intros Hij. replace j with (i + (j - i)) by lia.
  rewrite <- (take_drop i (take (i + (j - i)) toks)).
  rewrite take_take. replace (i `min` (i + (j - i))) with i by lia.
  apply line_weight_app_le.
Qed.

Lemma line_weight_take_le (toks : list LCSTokenInfo) (i p : nat) :
  line_weight (take i toks) p ≤ line_weight toks p.
Proof.
  rewrite <- (take_drop i toks) at 2. apply line_weight_app_le.
Qed.

Lemma token_lines_bounded (offset : Z) (d : gmap string nat)
    (wls : list (string * nat)) (toks : list LCSTokenInfo) (n : nat) :
  Forall2 (token_of_word offset d) wls toks →
  (∀ wl, wl ∈ wls → wl.2 < n) →
  ∀ t, t ∈ toks → source_line_id t < n.
Proof.
  intros HF Hwls t Ht.
  destruct (Forall2_elem_of_r _ _ _ _ HF Ht) as (wl & Hwl & id & _ & _ & _ & ->).
  by apply Hwls.
Qed.

(** ** The matching loop *)

Lemma align_step_Ok (itoks otoks : list LCSTokenInfo) (i : nat) (j : Z)
    (m m' : gmap nat (gset nat)) (ihr ohr ihr' ohr' : list nat) :
  align_step itoks otoks i j (m, ihr, ohr) = Ok (m', ihr', ohr') →
  (j = (-1)%Z ∧ m' = m ∧ ihr' = ihr ∧ ohr' = ohr)
  ∨ (j ≠ (-1)%Z ∧ ∃ it ot,
       Py.getitem itoks (Z.of_nat i) = Ok it
       ∧ Py.getitem otoks j = Ok ot
       ∧ m' = <[source_line_id ot :=
                  default ∅ (m !! source_line_id ot) ∪ {[source_line_id it]}]> m
       ∧ Py.additem ihr (source_line_id it) (length_ it) = Ok ihr'
       ∧ Py.additem ohr (source_line_id ot) (length_ ot) = Ok ohr').
Proof.
  unfold align_step. case_decide as Hj.
  - intros Hrun. right. split; [done|].
    inv_bind Hrun. rename a into it. inv_bind Hrun. rename a into ot.
    inv_bind Hrun. inv_bind Hrun. injection Hrun as <- <- <-.
    exists it, ot. by repeat split.
  - intros [= <- <- <-]. left. repeat split; try done.
Qed.

Lemma align_loop_cons (itoks otoks : list LCSTokenInfo) (i : nat) (j : Z)
    (aligned : list Z) (st : gmap nat (gset nat) * list nat * list nat) :
  align_loop itoks otoks i (j :: aligned) st
  = align_step itoks otoks i j st ≫= align_loop itoks otoks (S i) aligned.
Proof. reflexivity. Qed.

Lemma align_step_skip (itoks otoks : list LCSTokenInfo) (i : nat)
    (st : gmap nat (gset nat) * list nat * list nat) :
  align_step itoks otoks i (-1) st = Ok st.
Proof. by destruct st as [[m ihr] ohr]. Qed.

Lemma align_step_match (itoks otoks : list LCSTokenInfo) (i j : nat)
    (it ot : LCSTokenInfo) (m : gmap nat (gset nat)) (ihr ohr : list nat)
    (x y : nat) :
  itoks !! i = Some it → otoks !! j = Some ot →
  ihr !! source_line_id it = Some x → ohr !! source_line_id ot = Some y →
  align_step itoks otoks i (Z.of_nat j) (m, ihr, ohr)
  = Ok (<[source_line_id ot :=
            default ∅ (m !! source_line_id ot) ∪ {[source_line_id it]}]> m,
        <[source_line_id it := x + length_ it]> ihr,
        <[source_line_id ot := y + length_ ot]> ohr).
Proof.
  intros Hit Hot Hx Hy. unfold align_step.
  rewrite decide_True by lia.
  rewrite (getitem_nat _ _ _ Hit), (getitem_nat _ _ _ Hot). simpl.
  unfold Py.additem. by rewrite Hx, Hy.
Qed.

Lemma additem_Ok (l l' : list nat) (i v : nat) :
  Py.additem l i v = Ok l' →
  ∃ x, l !! i = Some x ∧ l' = <[i := x + v]> l.
Proof.
  unfold Py.additem. destruct (l !! i) as [x|]; [|done].
  intros [= <-]. eauto.
Qed.

Lemma align_loop_keys (itoks otoks : list LCSTokenInfo) (aligned : list Z) :
  ∀ (i : nat) (m : gmap nat (gset nat)) (ihr ohr : list nat)
    (m' : gmap nat (gset nat)) (ihr' ohr' : list nat),
    align_loop itoks otoks i aligned (m, ihr, ohr) = Ok (m', ihr', ohr') →
    length ihr' = length ihr ∧ length ohr' = length ohr
    ∧ ∀ k, is_Some (m' !! k) → is_Some (m !! k) ∨ k < length ohr.
Proof.
  induction aligned as [|j aligned IH]; intros i m ihr ohr m' ihr' ohr' Hrun;
    simpl in Hrun.
  - injection Hrun as <- <- <-. split; [done|]. split; [done|]. by left.
  - inv_bind Hrun. destruct a as [[m1 ihr1] ohr1].
    destruct (IH _ _ _ _ _ _ _ Hrun) as (Hli & Hlo & Hkeys).
    apply align_step_Ok in Ha
      as [(_ & -> & -> & ->)|(_ & it & ot & _ & _ & -> & Hai & Hao)]; [done|].
    pose proof (additem_length _ _ _ _ Hai). pose proof (additem_length _ _ _ _ Hao).
    split; [congruence|]. split; [congruence|].
    intros k Hk. destruct (Hkeys k Hk) as [Hin|Hlt]; [|right; lia].
    destruct (decide (k = source_line_id ot)) as [->|Hne].
    + right. apply additem_Ok in Hao as (x & Hx & _). by eapply lookup_lt_Some.
    + left. by rewrite lookup_insert_ne in Hin.
Qed.

Lemma increasing_from_cons (lo hi j : Z) (rest : list Z) :
  increasing_from lo (j :: rest) hi = true →
  (j = (-1)%Z ∧ increasing_from lo rest hi = true)
  ∨ (j ≠ (-1)%Z ∧ (lo ≤ j < hi)%Z ∧ increasing_from (j + 1) rest hi = true).
Proof.
  simpl. case_decide as Hj; [by left|].
  intros [Hr Hrest]%andb_true_iff. apply bool_decide_eq_true in Hr. by right.
Qed.

Section Bounds.

Variables (itoks otoks : list LCSTokenInfo) (ni no : nat).
Hypothesis input_lines_bounded : ∀ t, t ∈ itoks → source_line_id t < ni.
Hypothesis output_lines_bounded : ∀ t, t ∈ otoks → source_line_id t < no.

(** Under an index vector of the right shape the loop raises nothing and
    credits each line with no more than the characters its tokens carry. *)
Lemma align_loop_bounds (aligned : list Z) :
  ∀ (i : nat) (J : Z) (m : gmap nat (gset nat)) (ihr ohr : list nat),
    i + length aligned ≤ length itoks →
    increasing_from J aligned (Z.of_nat (length otoks)) = true →
    (0 ≤ J)%Z →
    length ihr = ni → length ohr = no →
    (∀ p v, ihr !! p = Some v → v ≤ line_weight (take i itoks) p) →
    (∀ q v, ohr !! q = Some v → v ≤ line_weight (take (Z.to_nat J) otoks) q) →
    ∃ m' ihr' ohr',
      align_loop itoks otoks i aligned (m, ihr, ohr) = Ok (m', ihr', ohr')
      ∧ length ihr' = ni ∧ length ohr' = no
      ∧ (∀ p v, ihr' !! p = Some v → v ≤ line_weight itoks p)
      ∧ (∀ q v, ohr' !! q = Some v → v ≤ line_weight otoks q).
Proof.
  induction aligned as [|j aligned IH];
    intros i J m ihr ohr Hlen Hinc HJ Hli Hlo Hbi Hbo.
  - exists m, ihr, ohr. split; [done|]. split; [done|]. split; [done|].
    split; intros p v Hv.
    + etrans; [by apply Hbi | apply line_weight_take_le].
    + etrans; [by apply Hbo | apply line_weight_take_le].
  - simpl in Hlen.
    apply increasing_from_cons in Hinc as [[-> Hinc]|(Hj & Hr & Hinc)].
    + rewrite align_loop_cons, align_step_skip. simpl.
      apply (IH (S i) J); try done; [lia|].
      intros p v Hv. etrans; [by apply Hbi|].
      apply line_weight_take_mono. lia.
    + assert (is_Some (itoks !! i)) as [it Hit]
        by (apply lookup_lt_is_Some; lia).
      assert (is_Some (otoks !! Z.to_nat j)) as [ot Hot]
        by (apply lookup_lt_is_Some; lia).
      assert (source_line_id it < ni) as Hitl
        by (apply input_lines_bounded, list_elem_of_lookup; eauto).
      assert (source_line_id ot < no) as Hotl
        by (apply output_lines_bounded, list_elem_of_lookup; eauto).
      assert (is_Some (ihr !! source_line_id it)) as [x Hx]
        by (apply lookup_lt_is_Some; lia).
      assert (is_Some (ohr !! source_line_id ot)) as [y Hy]
        by (apply lookup_lt_is_Some; lia).
      pose proof (align_step_match _ _ _ _ _ _ m _ _ _ _ Hit Hot Hx Hy) as Hstep.
      rewrite Z2Nat.id in Hstep by lia.
      rewrite align_loop_cons, Hstep. simpl.
      apply (IH (S i) (j + 1)%Z); try done;
        [lia | lia | by rewrite length_insert | by rewrite length_insert | |].
      * intros p v Hv. rewrite (take_S_r _ _ _ Hit), line_weight_snoc.
        destruct (decide (source_line_id it = p)) as [<-|Hne].
        -- rewrite list_lookup_insert_eq in Hv by lia. injection Hv as <-.
           specialize (Hbi _ _ Hx). lia.
        -- rewrite list_lookup_insert_ne in Hv by done.
           specialize (Hbi _ _ Hv). lia.
      * intros q v Hv.
        replace (Z.to_nat (j + 1)) with (S (Z.to_nat j)) by lia.
        rewrite (take_S_r _ _ _ Hot), line_weight_snoc.
        assert (∀ q w, ohr !! q = Some w →
                       w ≤ line_weight (take (Z.to_nat j) otoks) q) as Hbo'.
        { intros q' w Hw. etrans; [by apply Hbo|].
          apply line_weight_take_mono. lia. }
        destruct (decide (source_line_id ot = q)) as [<-|Hne].
        -- rewrite list_lookup_insert_eq in Hv by lia. injection Hv as <-.
           specialize (Hbo' _ _ Hy). lia.
        -- rewrite list_lookup_insert_ne in Hv by done.
           specialize (Hbo' _ _ Hv). lia.
Qed.

End Bounds.

(** ** Normalisation and the confidence filter *)

Lemma getitem_nat_inv {A : Type} (l : list A) (i : nat) (x : A) :
  Py.getitem l (Z.of_nat i) = Ok x → l !! i = Some x.
Proof.
  unfold Py.getitem. destruct (decide (Z.of_nat i < 0)%Z); [lia|].
  destruct (decide _); [|done]. rewrite Nat2Z.id.
  destruct (l !! i); [|done]. by intros [= ->].
Qed.

Lemma truediv_Ok (v n : nat) (r : Q) :
  Py.truediv v n = Ok r → n ≠ 0 ∧ r = (Z.of_nat v # Pos.of_nat n).
Proof. unfold Py.truediv. case_decide; [done|]. by intros [= <-]. Qed.

Lemma Zpos_of_nat (n : nat) : n ≠ 0 → Zpos (Pos.of_nat n) = Z.of_nat n.
Proof.
  intros Hn. destruct n as [|n]; [done|].
  rewrite <- Pos.of_nat_succ, Znat.Zpos_P_of_succ_nat. lia.
Qed.

Lemma ratio_in_unit (v n : nat) :
  n ≠ 0 → v ≤ n → in_unit (Z.of_nat v # Pos.of_nat n).
Proof.
  intros Hn Hv. unfold in_unit, Qle. simpl. rewrite Zpos_of_nat by done. lia.
Qed.

Lemma ratio_one (n : nat) : n ≠ 0 → (Z.of_nat n # Pos.of_nat n == 1)%Q.
Proof. intros Hn. unfold Qeq. simpl. rewrite Zpos_of_nat by done. lia. Qed.

Lemma ltb_lt (x y : Q) : Py.ltb x y = true ↔ (x < y)%Q.
Proof. unfold Py.ltb, Qlt. apply Z.ltb_lt. Qed.

Lemma normalize_cons (lines : list string) (p i : nat) (rest : list nat) :
  normalize lines p (i :: rest)
  = Py.getitem lines (Z.of_nat p) ≫= λ line,
      Py.truediv i (Py.sum_len (Py.split line)) ≫= λ r,
        normalize lines (S p) rest ≫= λ rs, Ok (r :: rs).
Proof. reflexivity. Qed.

Lemma normalize_lookup (lines : list string) (hits : list nat) :
  ∀ (p : nat) (rs : list Q),
    normalize lines p hits = Ok rs →
    length rs = length hits
    ∧ ∀ k r, rs !! k = Some r →
        ∃ v line, hits !! k = Some v ∧ lines !! (p + k) = Some line
                  ∧ Py.truediv v (Py.sum_len (Py.split line)) = Ok r.
Proof.
  induction hits as [|h hits IH]; intros p rs Hrun.
  - injection Hrun as <-. split; [done|]. by intros k r Hk.
  - rewrite normalize_cons in Hrun.
    inv_bind Hrun. rename a into line. inv_bind Hrun. rename a into r0.
    inv_bind Hrun. rename a into rs0. injection Hrun as <-.
    destruct (IH _ _ Ha1) as [Hlen Hlook]. split; [simpl; lia|].
    intros [|k] r Hk; simpl in Hk.
    + injection Hk as <-. exists h, line. rewrite Nat.add_0_r.
      split; [done|]. split; [by apply getitem_nat_inv | done].
    + destruct (Hlook _ _ Hk) as (v & line' & Hv & Hline & Hdiv).
      exists v, line'. split; [done|]. split; [|done].
      by replace (p + S k) with (S p + k) by lia.
Qed.

Lemma normalize_Ok (lines : list string) (hits : list nat) :
  ∀ p : nat,
    p + length hits ≤ length lines →
    (∀ q line, p ≤ q → lines !! q = Some line → has_word line) →
    ∃ rs, normalize lines p hits = Ok rs.
Proof.
  induction hits as [|h hits IH]; intros p Hlen Hwords.
  - by exists [].
  - simpl in Hlen.
    assert (is_Some (lines !! p)) as [line Hline]
      by (apply lookup_lt_is_Some; lia).
    destruct (IH (S p)) as [rs Hrs]; [lia | intros; eapply Hwords; [|done]; lia |].
    rewrite normalize_cons, (getitem_nat _ _ _ Hline). simpl.
    unfold Py.truediv. rewrite decide_False.
    + simpl. rewrite Hrs. simpl. eauto.
    + assert (has_word line) as Hw by (by eapply Hwords).
      apply has_word_sum_len in Hw. lia.
Qed.

Lemma normalize_ZeroDivisionError (lines : list string) (hits : list nat) :
  ∀ p : nat,
    p + length hits = length lines →
    (∃ q line, p ≤ q ∧ lines !! q = Some line ∧ ¬ has_word line) →
    normalize lines p hits = Raise ZeroDivisionError.
Proof.
  induction hits as [|h hits IH]; intros p Hlen (q & line & Hq & Hline & Hw).
  - apply lookup_lt_Some in Hline. simpl in Hlen. lia.
  - simpl in Hlen.
    assert (is_Some (lines !! p)) as [l Hl] by (apply lookup_lt_is_Some; lia).
    rewrite normalize_cons, (getitem_nat _ _ _ Hl). simpl.
    unfold Py.truediv. case_decide as Hz; [done|]. simpl.
    rewrite (IH (S p)); [done | lia |].
    exists q, line. split; [|done].
    destruct (decide (q = p)) as [->|]; [|lia].
    rewrite Hl in Hline. injection Hline as ->.
    destruct Hw. apply has_word_sum_len. lia.
Qed.

Lemma drop_low_subseteq (rates : list Q) :
  ∀ (p0 : nat) (m : gmap nat (gset nat)), drop_low p0 rates m ⊆ m.
Proof.
  induction rates as [|r rates IH]; intros p0 m; simpl; [done|].
  etrans; [apply IH|].
  destruct (Py.ltb r threshold); [|done].
  case_decide; [apply delete_subseteq | done].
Qed.

Lemma drop_low_lookup_low (rates : list Q) :
  ∀ (p0 : nat) (m : gmap nat (gset nat)) (p : nat) (r : Q),
    rates !! p = Some r → Py.ltb r threshold = true →
    drop_low p0 rates m !! (p0 + p) = None.
Proof.
  induction rates as [|r0 rates IH]; intros p0 m p r Hp Hlow; [done|].
  simpl. destruct p as [|p]; simpl in Hp.
  - injection Hp as ->. rewrite Hlow, Nat.add_0_r.
    eapply lookup_weaken_None; [|apply drop_low_subseteq].
    case_decide as Hin; [apply lookup_delete_eq|].
    by apply eq_None_not_Some.
  - replace (p0 + S p) with (S p0 + p) by lia. by eapply IH.
Qed.

Lemma drop_low_kept (rates : list Q) :
  ∀ (p0 : nat) (m : gmap nat (gset nat)),
    Forall (λ r, Py.ltb r threshold = false) rates →
    drop_low p0 rates m = m.
Proof.
  induction rates as [|r rates IH]; intros p0 m HF; simpl; [done|].
  apply Forall_cons in HF as [-> HF]. by apply IH.
Qed.

(** ** The aligner *)

Lemma lcs_sequence_alignment_unfold (lcs : list Z → list Z → list Z)
    (input_lines output_lines : list string) (itoks otoks : list LCSTokenInfo)
    (m : gmap nat (gset nat)) (ihr ohr : list nat) :
  tokenize_for_lcs input_lines output_lines = Ok (itoks, otoks) →
  align_loop itoks otoks 0 (lcs (token <$> itoks) (token <$> otoks))
    (∅, replicate (length input_lines) 0, replicate (length output_lines) 0)
  = Ok (m, ihr, ohr) →
  lcs_sequence_alignment lcs (Lines input_lines) (Lines output_lines)
  = normalize input_lines 0 ihr ≫= λ ir,
      normalize output_lines 0 ohr ≫= λ or, Ok (drop_low 0 or m, ir, or).
Proof.
  intros Htok Hloop. unfold lcs_sequence_alignment. simpl as_lines.
  rewrite Htok. simpl. rewrite Hloop. reflexivity.
Qed.

Lemma lcs_sequence_alignment_Ok (lcs : list Z → list Z → list Z)
    (input_lines output_lines : lines_arg) (m : gmap nat (gset nat))
    (ir or : list Q) :
  lcs_sequence_alignment lcs input_lines output_lines = Ok (m, ir, or) →
  ∃ itoks otoks m0 ihr ohr,
    align_loop itoks otoks 0 (lcs (token <$> itoks) (token <$> otoks))
      (∅, replicate (length (as_lines input_lines)) 0,
       replicate (length (as_lines output_lines)) 0)
    = Ok (m0, ihr, ohr)
    ∧ normalize (as_lines input_lines) 0 ihr = Ok ir
    ∧ normalize (as_lines output_lines) 0 ohr = Ok or
    ∧ m = drop_low 0 or m0.
Proof.
  unfold lcs_sequence_alignment. intros Hrun.
  inv_bind Hrun. destruct a as [itoks otoks].
  inv_bind Hrun. destruct a as [[m0 ihr] ohr].
  inv_bind Hrun. inv_bind Hrun. injection Hrun as <- <- <-.
  exists itoks, otoks, m0, ihr, ohr. by repeat split.
Qed.

(** C6.  When [lcs_sequence_alignment] returns, an output line whose hit
    rate is strictly below 0.6 is not a key of the returned mapping; and
    every key of the mapping is an output line with a rate that is not
    below 0.6.  This holds whatever the LCS routine returns. *)
Theorem low_rate_output_lines_are_not_keys (lcs : list Z → list Z → list Z)
    (input_lines output_lines : lines_arg) (mapping : gmap nat (gset nat))
    (input_hit_rate output_hit_rate : list Q) :
  lcs_sequence_alignment lcs input_lines output_lines
  = Ok (mapping, input_hit_rate, output_hit_rate) →
  (∀ p r, output_hit_rate !! p = Some r → (r < threshold)%Q →
          mapping !! p = None)
  ∧ (∀ p, is_Some (mapping !! p) →
          ∃ r, output_hit_rate !! p = Some r ∧ ¬ (r < threshold)%Q).
Proof.
  intros Hrun.
  apply lcs_sequence_alignment_Ok in Hrun
    as (itoks & otoks & m0 & ihr & ohr & Hloop & Hni & Hno & ->).
  assert (∀ p r, output_hit_rate !! p = Some r → (r < threshold)%Q →
                 drop_low 0 output_hit_rate m0 !! p = None) as Hlow.
  { intros p r Hp Hr. apply ltb_lt in Hr.
    by apply (drop_low_lookup_low output_hit_rate 0 m0 p r). }
  split; [done|].
  intros p Hp.
  assert (is_Some (m0 !! p)) as Hp0.
  { destruct Hp as [g Hg]. exists g.
    eapply lookup_weaken; [exact Hg | apply drop_low_subseteq]. }
  destruct (align_loop_keys _ _ _ _ _ _ _ _ _ _ Hloop) as (_ & Hlen & Hkeys).
  destruct (Hkeys p Hp0) as [[g Hg]|Hlt]; [by rewrite lookup_empty in Hg|].
  destruct (normalize_lookup _ _ _ _ Hno) as [Hlen' _].
  assert (is_Some (output_hit_rate !! p)) as [r Hr]
    by (apply lookup_lt_is_Some; lia).
  exists r. split; [done|]. intros Hbelow.
  rewrite (Hlow p r Hr Hbelow) in Hp. by destruct Hp.
Qed.

Lemma low_rate_output_lines_are_not_keys_witness :
  ∃ mapping input_hit_rate output_hit_rate,
    lcs_sequence_alignment RefLCS.lcs_sequence_idx
      (Lines ["a b"; "c d"]) (Lines ["a b"; "sorry x y z c"; "d"])
    = Ok (mapping, input_hit_rate, output_hit_rate)
    ∧ output_hit_rate !! 1 = Some (1 # 9)
    ∧ mapping !! 1 = None
    ∧ ∃ r, output_hit_rate !! 2 = Some r ∧ ¬ (r < threshold)%Q.
Proof.
  eexists _, _, _. split; [vm_compute; reflexivity|].
  match goal with
  | |- ?rates !! 1 = _ ∧ ?m !! 1 = None ∧ _ =>
      destruct (low_rate_output_lines_are_not_keys RefLCS.lcs_sequence_idx
                  (Lines ["a b"; "c d"]) (Lines ["a b"; "sorry x y z c"; "d"])
                  m _ rates ltac:(vm_compute; reflexivity)) as [Hlow Hkey]
  end.
  split; [reflexivity|]. split.
  - eapply Hlow; [reflexivity | reflexivity].
  - apply Hkey. vm_compute. eauto.
Defined.

Lemma not_all_have_words (lines : list string) :
  ¬ Forall has_word lines →
  ∃ q line, 0 ≤ q ∧ lines !! q = Some line ∧ ¬ has_word line.
Proof.
  intros Hnot. apply not_Forall_Exists in Hnot; [|apply _].
  apply Exists_exists in Hnot as (line & [q Hq]%list_elem_of_lookup & Hw).
  exists q, line. split; [lia|]. by split.
Qed.

(** With an index vector of the right shape, the matching loop returns,
    and it credits a line with no more than the characters of its words. *)
Lemma alignment_credits (lcs : list Z → list Z → list Z)
    (input_lines output_lines : list string) :
  (Z.of_nat (length (first_seen (line_words 0 input_lines).*1)) ≤ 1114112)%Z →
  (∀ itoks otoks,
     tokenize_for_lcs input_lines output_lines = Ok (itoks, otoks) →
     index_vector_ok (length itoks) (length otoks)
       (lcs (token <$> itoks) (token <$> otoks)) = true) →
  ∃ m ihr ohr,
    lcs_sequence_alignment lcs (Lines input_lines) (Lines output_lines)
    = (normalize input_lines 0 ihr ≫= λ ir,
         normalize output_lines 0 ohr ≫= λ or, Ok (drop_low 0 or m, ir, or))
    ∧ length ihr = length input_lines ∧ length ohr = length output_lines
    ∧ (∀ p v line, ihr !! p = Some v → input_lines !! p = Some line →
                   v ≤ Py.sum_len (Py.split line))
    ∧ (∀ q v line, ohr !! q = Some v → output_lines !! q = Some line →
                   v ≤ Py.sum_len (Py.split line)).
Proof.
  intros Hfit Hshape.
  destruct (tokenize_total input_lines output_lines 0) as (itoks & otoks & Htok);
    [done | lia |].
  specialize (Hshape itoks otoks Htok).
  apply andb_true_iff in Hshape as [Hlen%bool_decide_eq_true Hinc].
  destruct (tokenize_spec _ _ _ _ _ Htok) as (d & _ & _ & HFi & HFo).
  destruct (align_loop_bounds itoks otoks (length input_lines)
              (length output_lines)) with
    (aligned := lcs (token <$> itoks) (token <$> otoks)) (i := 0) (J := 0%Z)
    (m := (∅ : gmap nat (gset nat)))
    (ihr := replicate (length input_lines) 0)
    (ohr := replicate (length output_lines) 0)
    as (m & ihr & ohr & Hloop & Hli & Hlo & Hbi & Hbo).
  - eapply token_lines_bounded; [exact HFi|].
    intros wl Hwl%line_words_ids. lia.
  - eapply token_lines_bounded; [exact HFo|].
    intros wl [_ Hwl%line_words_ids]%list_elem_of_filter. lia.
  - lia.
  - done.
  - done.
  - apply length_replicate.
  - apply length_replicate.
  - intros p v [-> _]%lookup_replicate. lia.
  - intros q v [-> _]%lookup_replicate. lia.
  - exists m, ihr, ohr.
    split; [by apply lcs_sequence_alignment_unfold with itoks otoks|].
    split; [done|]. split; [done|]. split.
    + intros p v line Hv Hline. etrans; [by apply Hbi|].
      rewrite (line_weight_words _ _ _ _ _ HFi).
      by rewrite <- (word_weight_line_words input_lines 0 p line).
    + intros q v line Hv Hline. etrans; [by apply Hbo|].
      rewrite (line_weight_words _ _ _ _ _ HFo).
      etrans; [apply word_weight_filter|].
      by rewrite <- (word_weight_line_words output_lines 0 q line).
Qed.

Lemma normalized_in_unit (lines : list string) (hits : list nat) (rs : list Q) :
  normalize lines 0 hits = Ok rs →
  (∀ p v line, hits !! p = Some v → lines !! p = Some line →
               v ≤ Py.sum_len (Py.split line)) →
  Forall in_unit rs.
Proof.
  intros Hrun Hb. destruct (normalize_lookup _ _ _ _ Hrun) as [_ Hlook].
  apply Forall_lookup. intros k r Hk.
  destruct (Hlook k r Hk) as (v & line & Hv & Hline & Hdiv).
  apply truediv_Ok in Hdiv as [Hn ->]. apply ratio_in_unit; [done|].
  by eapply Hb.
Qed.

(** C5 (as amended).  Take two line lists, a vocabulary that fits the code
    space of [chr], and an LCS routine whose index vector for this call has
    the right shape.  If every input line and every output line has at
    least one word, [lcs_sequence_alignment] returns, with one rate per
    line and every rate in [0, 1].  If some line has no word, it raises
    [ZeroDivisionError]: the normalisation has no guard. *)
Theorem hit_rates_in_unit_interval_when_lines_have_words
    (lcs : list Z → list Z → list Z) (input_lines output_lines : list string) :
  (Z.of_nat (length (first_seen (line_words 0 input_lines).*1)) ≤ 1114112)%Z →
  (∀ itoks otoks,
     tokenize_for_lcs input_lines output_lines = Ok (itoks, otoks) →
     index_vector_ok (length itoks) (length otoks)
       (lcs (token <$> itoks) (token <$> otoks)) = true) →
  (Forall has_word input_lines ∧ Forall has_word output_lines →
   ∃ mapping input_hit_rate output_hit_rate,
     lcs_sequence_alignment lcs (Lines input_lines) (Lines output_lines)
     = Ok (mapping, input_hit_rate, output_hit_rate)
     ∧ length input_hit_rate = length input_lines
     ∧ length output_hit_rate = length output_lines
     ∧ Forall in_unit input_hit_rate ∧ Forall in_unit output_hit_rate)
  ∧ (¬ (Forall has_word input_lines ∧ Forall has_word output_lines) →
     lcs_sequence_alignment lcs (Lines input_lines) (Lines output_lines)
     = Raise ZeroDivisionError).
Proof.
  intros Hfit Hshape.
  destruct (alignment_credits lcs input_lines output_lines Hfit Hshape)
    as (m & ihr & ohr & -> & Hli & Hlo & Hbi & Hbo).
  split.
  - intros [Hwi Hwo]. rewrite Forall_lookup in Hwi, Hwo.
    destruct (normalize_Ok input_lines ihr 0) as [ir Hir]; [lia | eauto |].
    destruct (normalize_Ok output_lines ohr 0) as [or Hor]; [lia | eauto |].
    exists (drop_low 0 or m), ir, or. rewrite Hir. simpl. rewrite Hor. simpl.
    split; [done|].
    destruct (normalize_lookup _ _ _ _ Hir) as [-> _].
    destruct (normalize_lookup _ _ _ _ Hor) as [-> _].
    split; [done|]. split; [done|].
    split; by eapply normalized_in_unit.
  - intros Hnot. destruct (decide (Forall has_word input_lines)) as [Hwi|Hwi].
    + assert (¬ Forall has_word output_lines) as Hwo by tauto.
      rewrite Forall_lookup in Hwi.
      destruct (normalize_Ok input_lines ihr 0) as [ir ->]; [lia | eauto |].
      simpl.
      rewrite (normalize_ZeroDivisionError output_lines ohr 0);
        [done | lia | by apply not_all_have_words].
    + rewrite (normalize_ZeroDivisionError input_lines ihr 0);
        [done | lia | by apply not_all_have_words].
Qed.

Lemma hit_rates_in_unit_interval_when_lines_have_words_witness :
  ∃ mapping input_hit_rate output_hit_rate,
    lcs_sequence_alignment RefLCS.lcs_sequence_idx
      (Lines ["a b"; "c d"]) (Lines ["a b c"; "x d"])
    = Ok (mapping, input_hit_rate, output_hit_rate)
    ∧ length input_hit_rate = 2 ∧ length output_hit_rate = 2
    ∧ Forall in_unit input_hit_rate ∧ Forall in_unit output_hit_rate.
Proof.
  apply (hit_rates_in_unit_interval_when_lines_have_words
           RefLCS.lcs_sequence_idx ["a b"; "c d"] ["a b c"; "x d"]).
  - vm_compute. discriminate.
  - intros itoks otoks H. vm_compute in H. injection H as <- <-.
    vm_compute. reflexivity.
  - split; repeat constructor; vm_compute; discriminate.
Defined.

(** C5, as the claim states it, fails: a line of white space among the
    input lines, or an empty line among the output lines, makes the
    aligner raise [ZeroDivisionError]. *)
Lemma blank_line_divides_by_zero_counterexample :
  lcs_sequence_alignment RefLCS.lcs_sequence_idx
    (Lines ["a b"; "   "]) (Lines ["a b"])
  = Raise ZeroDivisionError
  ∧ lcs_sequence_alignment RefLCS.lcs_sequence_idx
      (Lines ["a b"]) (Lines ["a b"; ""])
    = Raise ZeroDivisionError.
Proof. split; vm_compute; reflexivity. Qed.

(** ** Identical input and output *)

Lemma lcs_length_same (s : list Z) : lcs_length s s = length s.
Proof.
  induction s as [|x s IH]; [done|]. simpl.
  rewrite decide_True by done. by rewrite IH.
Qed.

Lemma matched_count_all (res : list Z) :
  matched_count res = length res → Forall (λ j, j ≠ (-1)%Z) res.
Proof.
  unfold matched_count. induction res as [|j res IH]; [constructor|].
  destruct (decide (j ≠ (-1)%Z)) as [Hj|Hj].
  - rewrite filter_cons_True by done. simpl. intros [= Hlen].
    constructor; [done | by apply IH].
  - rewrite filter_cons_False by done. simpl. intros Hlen.
    pose proof (length_filter (λ j : Z, j ≠ (-1)%Z) res). lia.
Qed.

Lemma increasing_all_matched (hi : Z) (res : list Z) :
  ∀ lo : Z,
    (lo ≤ hi)%Z →
    increasing_from lo res hi = true → Forall (λ j, j ≠ (-1)%Z) res →
    (lo + Z.of_nat (length res) ≤ hi)%Z
    ∧ ((lo + Z.of_nat (length res))%Z = hi → res = seqZ lo (Z.of_nat (length res))).
Proof.
  induction res as [|j res IH]; intros lo Hlo Hinc Hall.
  - simpl in *. split; [lia | done].
  - apply Forall_cons in Hall as [Hj Hall].
    apply increasing_from_cons in Hinc as [[-> _]|(_ & Hr & Hinc)]; [done|].
    destruct (IH (j + 1)%Z) as [Hle Heq]; [lia | done | done |].
    simpl length. split; [lia|].
    intros Hhi. assert (j = lo) as -> by lia.
    rewrite seqZ_cons by lia. f_equal.
    replace (Z.pred (Z.of_nat (S (length res)))) with (Z.of_nat (length res))
      by lia.
    apply Heq. lia.
Qed.

Section Identity.

Variables (toks : list LCSTokenInfo) (nl : nat).
Hypothesis lines_bounded : ∀ t, t ∈ toks → source_line_id t < nl.

(** Under the identity index vector every line is credited with all the
    characters of its tokens, and is grouped with itself alone. *)
Lemma align_loop_identity (rest : list LCSTokenInfo) :
  ∀ (pre : list LCSTokenInfo) (m : gmap nat (gset nat)) (ihr ohr : list nat),
    toks = pre ++ rest →
    (∀ p, m !! p = if decide (p ∈ source_line_id <$> pre) then Some {[p]}
                   else None) →
    (∀ p, p < nl → ihr !! p = Some (line_weight pre p)) →
    (∀ p, p < nl → ohr !! p = Some (line_weight pre p)) →
    ∃ m' ihr' ohr',
      align_loop toks toks (length pre)
        (seqZ (Z.of_nat (length pre)) (Z.of_nat (length rest))) (m, ihr, ohr)
      = Ok (m', ihr', ohr')
      ∧ (∀ p, m' !! p = if decide (p ∈ source_line_id <$> toks) then Some {[p]}
                        else None)
      ∧ (∀ p, p < nl → ihr' !! p = Some (line_weight toks p))
      ∧ (∀ p, p < nl → ohr' !! p = Some (line_weight toks p)).
Proof.
  induction rest as [|t rest IH]; intros pre m ihr ohr Htoks Hm Hi Ho.
  - rewrite app_nil_r in Htoks. subst pre. rewrite seqZ_nil by (simpl; lia).
    exists m, ihr, ohr. by repeat split.
  - assert (toks !! length pre = Some t) as Ht.
    { rewrite Htoks. by rewrite lookup_app_r, Nat.sub_diag by lia. }
    assert (source_line_id t < nl) as Hlt
      by (apply lines_bounded, list_elem_of_lookup; eauto).
    rewrite seqZ_cons by (simpl length; lia). rewrite align_loop_cons.
    rewrite (align_step_match _ _ _ _ _ _ m _ _ _ _ Ht Ht
               (Hi _ Hlt) (Ho _ Hlt)).
    simpl mbind. unfold mbind, result_mbind, result_bind.
    replace (Z.succ (Z.of_nat (length pre)))
      with (Z.of_nat (length (pre ++ [t])))
      by (rewrite length_app; simpl; lia).
    replace (Z.pred (Z.of_nat (S (length rest))))
      with (Z.of_nat (length rest)) by lia.
    replace (S (length pre)) with (length (pre ++ [t]))
      by (rewrite length_app; simpl; lia).
    apply IH.
    + by rewrite <- app_assoc.
    + intros p. rewrite fmap_app. simpl.
      destruct (decide (p = source_line_id t)) as [->|Hne].
      * rewrite lookup_insert_eq.
        rewrite decide_True by (apply elem_of_app; right; left).
        f_equal. rewrite Hm.
        destruct (decide (source_line_id t ∈ source_line_id <$> pre)); simpl;
          [apply union_idemp_L | apply (left_id_L ∅ (∪))].
      * rewrite lookup_insert_ne by done. rewrite Hm.
        destruct (decide (p ∈ source_line_id <$> pre)) as [Hin|Hnin].
        -- rewrite decide_True; [done|]. apply elem_of_app. by left.
        -- rewrite decide_False; [done|].
           rewrite elem_of_app, list_elem_of_singleton. tauto.
    + intros p Hp. rewrite line_weight_snoc.
      destruct (decide (source_line_id t = p)) as [<-|Hne].
      * rewrite list_lookup_insert_eq; [done|].
        eapply lookup_lt_Some. by apply Hi.
      * rewrite list_lookup_insert_ne by done. rewrite Hi by done.
        f_equal. lia.
    + intros p Hp. rewrite line_weight_snoc.
      destruct (decide (source_line_id t = p)) as [<-|Hne].
      * rewrite list_lookup_insert_eq; [done|].
        eapply lookup_lt_Some. by apply Ho.
      * rewrite list_lookup_insert_ne by done. rewrite Ho by done.
        f_equal. lia.
Qed.

End Identity.

Lemma line_words_elem_of (lines : list string) :
  ∀ (p q : nat) (line w : string),
    lines !! q = Some line → w ∈ Py.split line →
    (w, p + q) ∈ line_words p lines.
Proof.
  induction lines as [|l lines IH]; intros p q line w Hq Hw; [done|].
  simpl. apply elem_of_app. destruct q as [|q]; simpl in Hq.
  - injection Hq as ->. left. rewrite Nat.add_0_r.
    apply list_elem_of_fmap. eauto.
  - right. replace (p + S q) with (S p + q) by lia. by eapply IH.
Qed.

Lemma token_of_word_functional (offset : Z) (d : gmap string nat)
    (wls : list (string * nat)) (l k : list LCSTokenInfo) :
  Forall2 (token_of_word offset d) wls l →
  Forall2 (token_of_word offset d) wls k → l = k.
Proof.
  intros Hl. revert k. induction Hl as [|wl t wls l Ht _ IH]; intros k Hk.
  - by apply Forall2_nil_inv_l in Hk.
  - apply Forall2_cons_inv_l in Hk as (t' & k' & Ht' & Hk' & ->).
    f_equal; [|by apply IH].
    destruct Ht as (id & Hid & Hc & Hlen & Hline).
    destruct Ht' as (id' & Hid' & Hc' & Hlen' & Hline').
    destruct t, t'. simpl in *. f_equal; congruence.
Qed.

Lemma filter_all {A : Type} (P : A → Prop) `{∀ x, Decision (P x)} (l : list A) :
  Forall P l → filter P l = l.
Proof.
  induction 1 as [|x l Hx _ IH]; [done|].
  rewrite filter_cons_True by done. by f_equal.
Qed.

Lemma normalized_full_credit (lines : list string) (hits : list nat)
    (rs : list Q) :
  Forall has_word lines →
  normalize lines 0 hits = Ok rs →
  (∀ p line, lines !! p = Some line →
             hits !! p = Some (Py.sum_len (Py.split line))) →
  Forall (λ r, (r == 1)%Q ∧ Py.ltb r threshold = false) rs.
Proof.
  intros Hwords Hrun Hfull. destruct (normalize_lookup _ _ _ _ Hrun) as [_ Hlook].
  apply Forall_lookup. intros k r Hk.
  destruct (Hlook k r Hk) as (v & line & Hv & Hline & Hdiv). simpl in Hline.
  rewrite (Hfull _ _ Hline) in Hv. injection Hv as <-.
  apply truediv_Ok in Hdiv as [Hn ->].
  split; [by apply ratio_one|].
  unfold Py.ltb, threshold. simpl. rewrite Zpos_of_nat by done.
  apply Z.ltb_ge. lia.
Qed.

(** C9.  Take a line list in which every line has at least one word, a
    vocabulary that fits the code space of [chr], and an LCS routine that
    keeps its contract on this call.  Aligning the lines with themselves
    returns; every output rate and every input rate equals 1; and the
    returned groups map each line [p] to the singleton [{p}] and have no
    other key. *)
Theorem identical_lines_align_with_themselves
    (lcs : list Z → list Z → list Z) (lines : list string) :
  Forall has_word lines →
  (Z.of_nat (length (first_seen (line_words 0 lines).*1)) ≤ 1114112)%Z →
  (∀ itoks otoks,
     tokenize_for_lcs lines lines = Ok (itoks, otoks) →
     lcs_contract (token <$> itoks) (token <$> otoks)
       (lcs (token <$> itoks) (token <$> otoks)) = true) →
  ∃ mapping input_hit_rate output_hit_rate,
    lcs_sequence_alignment lcs (Lines lines) (Lines lines)
    = Ok (mapping, input_hit_rate, output_hit_rate)
    ∧ length output_hit_rate = length lines
    ∧ Forall (λ r, (r == 1)%Q) output_hit_rate
    ∧ length input_hit_rate = length lines
    ∧ Forall (λ r, (r == 1)%Q) input_hit_rate
    ∧ ∀ p, mapping !! p = if decide (p < length lines) then Some {[p]} else None.
Proof.
  intros Hwords Hfit Hcontract.
  destruct (tokenize_total lines lines 0) as (itoks & otoks & Htok);
    [done | lia |].
  specialize (Hcontract itoks otoks Htok).
  destruct (tokenize_spec _ _ _ _ _ Htok) as (d & _ & Hnum & HFi & HFo).
  (* both sides carry the same tokens *)
  rewrite filter_all in HFo.
  2:{ apply Forall_forall. intros [w lid] Hwl. simpl.
      apply (numbers_elem_of d _ w Hnum), elem_of_first_seen.
      apply list_elem_of_fmap. by exists (w, lid). }
  assert (otoks = itoks) as -> by (by eapply token_of_word_functional).
  (* the index vector is the identity *)
  set (aligned := lcs (token <$> itoks) (token <$> itoks)) in *.
  unfold lcs_contract, index_vector_ok in Hcontract.
  rewrite lcs_length_same, !length_fmap in Hcontract.
  apply andb_true_iff in Hcontract as [Hshape Hcount%bool_decide_eq_true].
  apply andb_true_iff in Hshape as [Hlen%bool_decide_eq_true Hinc].
  assert (aligned = seqZ 0 (Z.of_nat (length itoks))) as Hid.
  { destruct (increasing_all_matched (Z.of_nat (length itoks)) aligned 0%Z)
      as [_ Heq]; [lia | done | |].
    - apply matched_count_all. congruence.
    - rewrite <- Hlen. apply Heq. lia. }
  (* the loop *)
  assert (∀ t, t ∈ itoks → source_line_id t < length lines) as Hbounded.
  { eapply token_lines_bounded; [exact HFi|].
    intros wl Hwl%line_words_ids. lia. }
  destruct (align_loop_identity itoks (length lines) Hbounded itoks []
              ∅ (replicate (length lines) 0) (replicate (length lines) 0))
    as (m & ihr & ohr & Hloop & Hm & Hi & Ho).
  { done. }
  { intros p. by rewrite lookup_empty. }
  { intros p Hp. by rewrite lookup_replicate_2. }
  { intros p Hp. by rewrite lookup_replicate_2. }
  change (Z.of_nat (length (@nil LCSTokenInfo))) with 0%Z in Hloop.
  change (length (@nil LCSTokenInfo)) with 0 in Hloop.
  rewrite <- Hid in Hloop.
  rewrite (lcs_sequence_alignment_unfold lcs lines lines itoks itoks m ihr ohr
             Htok Hloop).
  assert (∀ p line, lines !! p = Some line →
                    line_weight itoks p = Py.sum_len (Py.split line)) as Hweight.
  { intros p line Hline. rewrite (line_weight_words _ _ _ _ _ HFi).
    by rewrite <- (word_weight_line_words lines 0 p line). }
  destruct (align_loop_keys _ _ _ _ _ _ _ _ _ _ Hloop) as (Hli & Hlo & _).
  rewrite length_replicate in Hli, Hlo.
  pose proof Hwords as Hwords'. rewrite Forall_lookup in Hwords'.
  destruct (normalize_Ok lines ihr 0) as [ir Hir]; [lia | eauto |].
  destruct (normalize_Ok lines ohr 0) as [or Hor]; [lia | eauto |].
  rewrite Hir. simpl. rewrite Hor. simpl.
  assert (Forall (λ r, (r == 1)%Q ∧ Py.ltb r threshold = false) ir) as Hone_i.
  { apply (normalized_full_credit lines ihr); [done | done |].
    intros p line Hline. rewrite Hi by (by eapply lookup_lt_Some).
    f_equal. by apply Hweight. }
  assert (Forall (λ r, (r == 1)%Q ∧ Py.ltb r threshold = false) or) as Hone_o.
  { apply (normalized_full_credit lines ohr); [done | done |].
    intros p line Hline. rewrite Ho by (by eapply lookup_lt_Some).
    f_equal. by apply Hweight. }
  exists (drop_low 0 or m), ir, or. split; [done|].
  destruct (normalize_lookup _ _ _ _ Hir) as [-> _].
  destruct (normalize_lookup _ _ _ _ Hor) as [-> _].
  split; [done|]. split; [eapply Forall_impl; [exact Hone_o | by intros r [? _]]|].
  split; [done|]. split; [eapply Forall_impl; [exact Hone_i | by intros r [? _]]|].
  intros p. rewrite drop_low_kept
    by (eapply Forall_impl; [exact Hone_o | by intros r [_ ?]]).
  rewrite Hm. destruct (decide (p < length lines)) as [Hp|Hp].
  - rewrite decide_True; [done|].
    assert (is_Some (lines !! p)) as [line Hline] by (by apply lookup_lt_is_Some).
    assert (has_word line) as Hw by (by eapply Hwords').
    unfold has_word in Hw. destruct (Py.split line) as [|w ws] eqn:Hsplit; [done|].
    assert ((w, 0 + p) ∈ line_words 0 lines) as Hwl.
    { eapply line_words_elem_of; [done|]. rewrite Hsplit. left. }
    destruct (Forall2_elem_of_l _ _ _ _ HFi Hwl) as (t & Ht & id & _ & _ & _ & Hl).
    apply list_elem_of_fmap. exists t. by split.
  - rewrite decide_False; [done|].
    intros (t & -> & Ht)%list_elem_of_fmap. apply Hbounded in Ht. lia.
Qed.

Lemma identical_lines_align_with_themselves_witness :
  ∃ mapping input_hit_rate output_hit_rate,
    lcs_sequence_alignment RefLCS.lcs_sequence_idx
      (Lines ["The quick brown fox"; "jumps over"; "the lazy dog."])
      (Lines ["The quick brown fox"; "jumps over"; "the lazy dog."])
    = Ok (mapping, input_hit_rate, output_hit_rate)
    ∧ length output_hit_rate = 3
    ∧ Forall (λ r, (r == 1)%Q) output_hit_rate
    ∧ length input_hit_rate = 3
    ∧ Forall (λ r, (r == 1)%Q) input_hit_rate
    ∧ ∀ p, mapping !! p = if decide (p < 3) then Some {[p]} else None.
Proof.
  apply (identical_lines_align_with_themselves RefLCS.lcs_sequence_idx
           ["The quick brown fox"; "jumps over"; "the lazy dog."]).
  - repeat constructor; vm_compute; discriminate.
  - vm_compute. discriminate.
  - intros itoks otoks H. vm_compute in H. injection H as <- <-.
    vm_compute. reflexivity.
Defined.

(** ** The detection loop *)

Section Loop.

Variable lcs_sequence_idx : list Z → list Z → list Z.
Variable count_tokens : string → nat.
Variable token_limit : Z.
Variable gpt_detect_hard_line_breaks : string → result string.

Lemma mark_group_length (igroups : gset nat) (ids : list nat) (offset : Z) :
  ∀ d d' : list bool,
    mark_group igroups ids offset d = Ok d' → length d' = length d.
Proof.
  induction ids as [|i ids IH]; intros d d' Hrun; simpl in Hrun.
  - by injection Hrun as <-.
  - case_decide.
    + inv_bind Hrun. apply setitem_length in Ha. apply IH in Hrun. congruence.
    + by apply IH.
Qed.

Lemma mark_groups_length (groups : list (gset nat)) (offset : Z) :
  ∀ d d' : list bool,
    mark_groups groups offset d = Ok d' → length d' = length d.
Proof.
  induction groups as [|g groups IH]; intros d d' Hrun; simpl in Hrun.
  - by injection Hrun as <-.
  - inv_bind Hrun. apply mark_group_length in Ha. apply IH in Hrun. congruence.
Qed.

(** The part of the body after the alignment never resizes the decision
    vector and never touches the batch counter, whatever [align_map] is. *)
Lemma detect_after_align_keeps (lines : list string) (batch : string)
    (next_line_id : Z) (align_map : pyval) (st st' : DetectionState) :
  detect_after_align lines batch next_line_id align_map st = Ok st' →
  length (detections st') = length (detections st)
  ∧ batch_id st' = batch_id st.
Proof.
  unfold detect_after_align. intros Hrun.
  inv_bind Hrun. inv_bind Hrun. case_decide; [|done].
  inv_bind Hrun. destruct a1 as [v todo]. inv_bind Hrun. inv_bind Hrun.
  injection Hrun as <-. simpl. split; [|done].
  by eapply mark_groups_length.
Qed.

(** Bound to the 3-tuple of line 111, [align_map] makes the rest of the
    body raise: [pop] and [values] are not attributes of a tuple. *)
Lemma detect_after_align_tuple (lines : list string) (batch : string)
    (next_line_id : Z) (m : gmap nat (gset nat)) (ir or : list Q)
    (st : DetectionState) :
  ∃ e, detect_after_align lines batch next_line_id (VTuple3 m ir or) st
       = Raise e.
Proof.
  unfold detect_after_align.
  destruct (Py.getitem lines _) as [line|e]; simpl; [|eauto].
  destruct (Py.getitem (Py.splitlines batch) 0) as [first|e]; simpl; [|eauto].
  case_decide; [|eauto]. unfold advance_cursor.
  case_decide; simpl; eauto.
Qed.

Lemma request_keys (raw_text record_id : string) (batch_index : nat)
    (cache_dir : gmap (string * nat) string) :
  dom (gpt_linebreak_detection_request gpt_detect_hard_line_breaks raw_text
         record_id batch_index cache_dir).2
  ⊆ dom cache_dir ∪ {[(record_id, batch_index)]}.
Proof.
  unfold gpt_linebreak_detection_request.
  destruct (cache_dir !! _); simpl; [set_solver|].
  destruct (gpt_detect_hard_line_breaks raw_text); simpl; [|set_solver].
  rewrite dom_insert. set_solver.
Qed.

(** How one pass can end: below the noise floor it breaks with the state
    untouched; it never completes, because [align_map] is the tuple. *)
Lemma detect_iter_outcome (lines : list string) (record_id : string)
    (st : DetectionState) (cache_dir : gmap (string * nat) string) :
  (∃ e, (detect_iter lcs_sequence_idx count_tokens token_limit
       gpt_detect_hard_line_breaks lines record_id st cache_dir).1 = Raise e)
  ∨ ((detect_iter lcs_sequence_idx count_tokens token_limit
       gpt_detect_hard_line_breaks lines record_id st cache_dir).1 = Ok (Break st)
     ∧ (detect_iter lcs_sequence_idx count_tokens token_limit
       gpt_detect_hard_line_breaks lines record_id st cache_dir).2 = cache_dir
     ∧ ∃ batch next_line_id,
         gen_batch count_tokens token_limit lines (todo_lineid st)
         = Ok (Some (batch, next_line_id))
         ∧ count_tokens batch < 20).
Proof.
  unfold detect_iter.
  destruct (gen_batch _ _ _ _) as [[[batch next]|]|e]; simpl; [|eauto|eauto].
  case_decide as Hfloor; simpl.
  { right. split; [done|]. split; [done|]. eauto. }
  left.
  destruct (gpt_linebreak_detection_request _ _ _ _ _) as [[out|e] cache'];
    simpl; [|eauto].
  destruct (lcs_sequence_alignment _ _ _) as [[[m ir] or]|e]; simpl; [|eauto].
  destruct (detect_after_align_tuple lines batch next m ir or st) as [e ->].
  simpl. eauto.
Qed.

Lemma detect_iter_keys (lines : list string) (record_id : string)
    (st : DetectionState) (cache_dir : gmap (string * nat) string) :
  dom (detect_iter lcs_sequence_idx count_tokens token_limit
       gpt_detect_hard_line_breaks lines record_id st cache_dir).2
  ⊆ dom cache_dir ∪ {[(record_id, batch_id st)]}.
Proof.
  unfold detect_iter.
  destruct (gen_batch _ _ _ _) as [[[batch next]|]|e]; simpl; [|set_solver..].
  case_decide; simpl; [set_solver|].
  pose proof (request_keys batch record_id (batch_id st) cache_dir) as Hk.
  destruct (gpt_linebreak_detection_request _ _ _ _ _) as [[out|e] cache'];
    simpl in *; done.
Qed.

Lemma detect_iter_keeps (lines : list string) (record_id : string)
    (st st' : DetectionState) (cache_dir : gmap (string * nat) string) :
  (detect_iter lcs_sequence_idx count_tokens token_limit
       gpt_detect_hard_line_breaks lines record_id st cache_dir).1 = Ok (Continue st')
  ∨ (detect_iter lcs_sequence_idx count_tokens token_limit
       gpt_detect_hard_line_breaks lines record_id st cache_dir).1 = Ok (Break st') →
  length (detections st') = length (detections st)
  ∧ batch_id st' = batch_id st.
Proof.
  unfold detect_iter.
  destruct (gen_batch _ _ _ _) as [[[batch next]|]|e]; simpl;
    [|by intros [?|?]..].
  case_decide; simpl; [by intros [?|[= <-]]|].
  destruct (gpt_linebreak_detection_request _ _ _ _ _) as [[out|e] cache'];
    simpl; [|by intros [?|?]].
  destruct (lcs_sequence_alignment _ _ _) as [[[m ir] or]|e]; simpl;
    [|by intros [?|?]].
  destruct (detect_after_align _ _ _ _ _) as [st1|e] eqn:Hafter; simpl;
    [|by intros [?|?]].
  intros [[= <-]|?]; [|done]. by eapply detect_after_align_keeps.
Qed.

(** The loop keeps the length of the decision vector, and the keys it adds
    to the cache directory all carry the batch counter of the state it
    starts from. *)
Lemma detect_loop_keeps (lines : list string) (record_id : string) (fuel : nat) :
  ∀ (st : DetectionState) (cache_dir : gmap (string * nat) string),
    (∀ d, (detect_loop lcs_sequence_idx count_tokens token_limit
       gpt_detect_hard_line_breaks fuel lines record_id st cache_dir).1 = Some (Ok d) →
          length d = length (detections st))
    ∧ dom (detect_loop lcs_sequence_idx count_tokens token_limit
       gpt_detect_hard_line_breaks fuel lines record_id st cache_dir).2
      ⊆ dom cache_dir ∪ {[(record_id, batch_id st)]}.
Proof.
  induction fuel as [|fuel IH]; intros st cache_dir; simpl.
  - case_decide; simpl; (split; [|set_solver]); [done|].
    by intros d [= <-].
  - case_decide; simpl; [|split; [by intros d [= <-] | set_solver]].
    pose proof (detect_iter_keeps lines record_id st) as Hkeeps.
    pose proof (detect_iter_keys lines record_id st cache_dir) as Hkeys.
    destruct (detect_iter lcs_sequence_idx count_tokens token_limit
       gpt_detect_hard_line_breaks lines record_id st cache_dir)
      as [[[st'|st']|e] cache'] eqn:Hiter; simpl in *.
    + destruct (Hkeeps st' cache_dir) as [Hlen Hbid];
        [rewrite Hiter; by left|].
      destruct (IH st' cache') as [Hd Hdom]. rewrite Hbid in Hdom.
      split; [|set_solver].
      intros d Hd'. rewrite <- Hlen. by apply Hd.
    + destruct (Hkeeps st' cache_dir) as [Hlen Hbid];
        [rewrite Hiter; by right|].
      split; [by intros d [= <-] | done].
    + split; [done | done].
Qed.

(** One pass is all the loop ever makes: with any fuel it ends, and a
    second unit of fuel is never used. *)
Lemma detect_loop_one_pass (lines : list string) (record_id : string)
    (fuel : nat) (st : DetectionState) (cache_dir : gmap (string * nat) string) :
  detect_loop lcs_sequence_idx count_tokens token_limit
       gpt_detect_hard_line_breaks (S fuel) lines record_id st cache_dir
  = detect_loop lcs_sequence_idx count_tokens token_limit
       gpt_detect_hard_line_breaks 1 lines record_id st cache_dir
  ∧ (detect_loop lcs_sequence_idx count_tokens token_limit
       gpt_detect_hard_line_breaks (S fuel) lines record_id st cache_dir).1 ≠ None.
Proof.
  simpl. case_decide; [|done].
  destruct (detect_iter_outcome lines record_id st cache_dir)
    as [[e He]|(Hb & _)];
    destruct (detect_iter lcs_sequence_idx count_tokens token_limit
       gpt_detect_hard_line_breaks lines record_id st cache_dir) as [r cache'];
    simpl in *; subst r; done.
Qed.

End Loop.

(** C8 (as amended).  On the empty document [detect] raises nothing: with
    any fuel it returns the empty decision vector at once, without building
    a batch and without touching the cache directory. *)
Theorem detect_empty_document_returns_empty_vector
    (lcs : list Z → list Z → list Z) (count_tokens : string → nat)
    (token_limit : Z) (gpt : string → result string) (fuel : nat)
    (record_id : string) (cache_dir : gmap (string * nat) string) :
  detect lcs count_tokens token_limit gpt fuel [] record_id cache_dir
  = (Some (Ok []), cache_dir).
Proof. unfold detect. destruct fuel; reflexivity. Qed.

(** C8, as the claim states it, fails: the empty document is not rejected,
    the run returns a result and no exception. *)
Lemma detect_empty_document_counterexample :
  (detect RefLCS.lcs_sequence_idx word_counter 1400 echo 1 [] "453500" ∅).1
  = Some (Ok [])
  ∧ ∀ e, (detect RefLCS.lcs_sequence_idx word_counter 1400 echo 1 []
            "453500" ∅).1 ≠ Some (Raise e).
Proof. split; [reflexivity | intros e; discriminate]. Qed.

(** C2 (as amended).  The decision vector is built with [len(lines) - 1]
    entries, none for an empty document; the part of the loop body that
    writes it keeps its length, whatever the alignment value is; and
    whenever [detect] returns a vector, the vector has that length. *)
Theorem decision_vector_length_is_fixed
    (lcs : list Z → list Z → list Z) (count_tokens : string → nat)
    (token_limit : Z) (gpt : string → result string) (fuel : nat)
    (lines : list string) (record_id : string)
    (cache_dir : gmap (string * nat) string) :
  (∀ batch next_line_id align_map st st',
     detect_after_align lines batch next_line_id align_map st = Ok st' →
     length (detections st') = length (detections st))
  ∧ (∀ d, (detect lcs count_tokens token_limit gpt fuel lines record_id
             cache_dir).1 = Some (Ok d) →
          length d = length lines - 1).
Proof.
  split.
  - intros batch next v st st' Hrun.
    by destruct (detect_after_align_keeps _ _ _ _ _ _ Hrun).
  - intros d Hd. unfold detect in Hd.
    destruct (detect_loop_keeps lcs count_tokens token_limit gpt lines record_id
                fuel (mkDetectionState (replicate (length lines - 1) false) 0 0)
                cache_dir) as [Hlen _].
    rewrite (Hlen d Hd). simpl. apply length_replicate.
Qed.

Lemma decision_vector_length_is_fixed_witness :
  length (detections (mkDetectionState [true; false] 2 0))
  = length (detections (mkDetectionState [false; false] 0 0))
  ∧ length [false; false] = length ["a b c"; "d e"; "f"] - 1.
Proof.
  destruct (decision_vector_length_is_fixed RefLCS.lcs_sequence_idx word_counter
              1400 echo 1 ["a b c"; "d e"; "f"] "453500" ∅) as [Hbody Hrun].
  split.
  - apply (Hbody ("a b c" +:+ Py.newline +:+ "d e") 2%Z
             (VDict {[0 := {[0; 1]}]})).
    vm_compute. reflexivity.
  - apply Hrun. vm_compute. reflexivity.
Defined.

(** C2, as the claim states it, fails: for the empty document the returned
    vector has length 0, which is not [len(lines) - 1 = -1]; and a document
    with a blank line between two paragraphs gets no vector at all, the
    aligner dividing by zero on the blank line. *)
Lemma decision_vector_counterexample :
  (∃ d, (detect RefLCS.lcs_sequence_idx word_counter 1400 echo 1 [] "453500"
           ∅).1 = Some (Ok d)
        ∧ Z.of_nat (length d) ≠ (Z.of_nat (length (@nil string)) - 1)%Z)
  ∧ (detect RefLCS.lcs_sequence_idx word_counter 1400 echo 1
       [alphabet_line; ""; alphabet_line] "453500" ∅).1
    = Some (Raise ZeroDivisionError).
Proof.
  split; [exists []; split; [reflexivity | simpl; lia] | vm_compute; reflexivity].
Qed.

(** C1 (the code at the failing input).  A document of one line of 26
    words: whatever the LCS routine and the reflow request answer, the
    run ends in an exception and not with a decision vector; with the
    reference routine and an echoing request the exception is the
    [AttributeError] of [align_map.values()] on the tuple. *)
Theorem detect_single_line_never_reaches_done :
  (∀ lcs gpt fuel cache_dir,
     ∃ e, (detect lcs word_counter 1400 gpt (S fuel) [alphabet_line] "453500"
             cache_dir).1 = Some (Raise e))
  ∧ (detect RefLCS.lcs_sequence_idx word_counter 1400 echo 1 [alphabet_line]
       "453500" ∅).1 = Some (Raise AttributeError).
Proof.
  split; [|vm_compute; reflexivity].
  intros lcs gpt fuel cache_dir. unfold detect.
  set (st := mkDetectionState _ _ _).
  change (detect_loop lcs word_counter 1400 gpt (S fuel) [alphabet_line]
            "453500" st cache_dir)
    with (match detect_iter lcs word_counter 1400 gpt [alphabet_line] "453500"
                  st cache_dir with
          | (Raise e, cache_dir') => (Some (Raise e), cache_dir')
          | (Ok (Break st'), cache_dir') => (Some (Ok (detections st')), cache_dir')
          | (Ok (Continue st'), cache_dir') =>
              detect_loop lcs word_counter 1400 gpt fuel [alphabet_line]
                "453500" st' cache_dir'
          end).
  destruct (detect_iter_outcome lcs word_counter 1400 gpt [alphabet_line]
              "453500" st cache_dir)
    as [[e He]|(_ & _ & batch & next & Hbatch & Hfloor)].
  - destruct (detect_iter _ _ _ _ _ _ _ _) as [r cache']. simpl in He.
    subst r. simpl. eauto.
  - vm_compute in Hbatch. injection Hbatch as <- <-.
    vm_compute in Hfloor. lia.
Qed.

(** ** The requests of a run *)

Section Requests.

Variable lcs_sequence_idx : list Z → list Z → list Z.
Variable count_tokens : string → nat.
Variable token_limit : Z.
Variable gpt_detect_hard_line_breaks : string → result string.







End Requests.



(** C4 (the code at the failing input).  A document of two lines of 26
    words under a budget of 30 tokens: the first batch is the first line
    and stops short of the end.  Whatever the LCS routine and the reflow
    request answer, the run ends in an exception; with the reference
    routine and an echoing request the exception is the [AttributeError]
    of [align_map.pop] on the tuple.  So it is in every pass whose batch
    stops short of the end: on the tuple, lines 205-210 discard no group
    and set no cursor. *)
Theorem detect_pass_short_of_end_raises_on_tuple :
  gen_batch word_counter 30 [alphabet_line; alphabet_line] 0
  = Ok (Some (alphabet_line, 1%Z))
  ∧ (∀ lcs gpt fuel cache_dir,
       ∃ e, (detect lcs word_counter 30 gpt (S fuel)
               [alphabet_line; alphabet_line] "453500" cache_dir).1
            = Some (Raise e))
  ∧ (detect RefLCS.lcs_sequence_idx word_counter 30 echo 1
       [alphabet_line; alphabet_line] "453500" ∅).1
    = Some (Raise AttributeError)
  ∧ (∀ (lines : list string) (next_line_id input_line_offset : Z)
       (mapping : gmap nat (gset nat)) (input_hit_rate output_hit_rate : list Q),
       (next_line_id < Z.of_nat (length lines))%Z →
       advance_cursor lines next_line_id input_line_offset
         (VTuple3 mapping input_hit_rate output_hit_rate)
       = Raise AttributeError).
Proof.
  split; [vm_compute; reflexivity|].
  split; [|split; [vm_compute; reflexivity|]].
  - intros lcs gpt fuel cache_dir. unfold detect.
    set (st := mkDetectionState _ _ _).
    change (detect_loop lcs word_counter 30 gpt (S fuel)
              [alphabet_line; alphabet_line] "453500" st cache_dir)
      with (match detect_iter lcs word_counter 30 gpt
                    [alphabet_line; alphabet_line] "453500" st cache_dir with
            | (Raise e, cache_dir') => (Some (Raise e), cache_dir')
            | (Ok (Break st'), cache_dir') =>
                (Some (Ok (detections st')), cache_dir')
            | (Ok (Continue st'), cache_dir') =>
                detect_loop lcs word_counter 30 gpt fuel
                  [alphabet_line; alphabet_line] "453500" st' cache_dir'
            end).
    destruct (detect_iter_outcome lcs word_counter 30 gpt
                [alphabet_line; alphabet_line] "453500" st cache_dir)
      as [[e He]|(_ & _ & batch & next & Hbatch & Hfloor)].
    + destruct (detect_iter _ _ _ _ _ _ _ _) as [r cache']. simpl in He.
      subst r. simpl. eauto.
    + vm_compute in Hbatch. injection Hbatch as <- <-.
      vm_compute in Hfloor. lia.
  - intros lines next off m ir or Hnext. unfold advance_cursor.
    rewrite decide_True by done. reflexivity.
Qed.

(** ** The boundary repair *)

Lemma elem_of_groups (m : gmap nat (gset nat)) (i : nat) :
  i ∈ ⋃ (map_to_list m).*2 ↔ ∃ g s, m !! g = Some s ∧ i ∈ s.
Proof.
  rewrite elem_of_union_list. split.
  - intros (s & Hs & Hi). apply list_elem_of_fmap in Hs as ([g s'] & -> & Hgs).
    apply elem_of_map_to_list in Hgs. eauto.
  - intros (g & s & Hgs & Hi). exists s. split; [|done].
    apply list_elem_of_fmap. exists (g, s). split; [done|].
    by apply elem_of_map_to_list.
Qed.

(** X15.  Lines 205-212 run on a mapping, the value they are written
    for, with a batch that does not reach the document's end: when the
    mapping has more than one group, the group with the highest output
    line id is removed; a lone group is kept.  If no input line id is left
    in the surviving groups the lines raise [ValueError]; otherwise the
    cursor becomes the highest input line id of the surviving groups, plus
    the line offset, plus one. *)
Theorem advance_cursor_drops_last_of_several_groups (lines : list string)
    (next_line_id input_line_offset : Z) (groups : gmap nat (gset nat)) :
  (next_line_id < Z.of_nat (length lines))%Z →
  ∃ survivors,
    (1 < size groups →
     ∃ k, is_Some (groups !! k) ∧ (∀ k', is_Some (groups !! k') → k' ≤ k)
          ∧ survivors = delete k groups)
    ∧ (size groups ≤ 1 → survivors = groups)
    ∧ ((∀ g s, survivors !! g = Some s → s = ∅) →
       advance_cursor lines next_line_id input_line_offset (VDict groups)
       = Raise ValueError)
    ∧ ((∃ g s, survivors !! g = Some s ∧ s ≠ ∅) →
       ∃ mx, advance_cursor lines next_line_id input_line_offset (VDict groups)
             = Ok (VDict survivors, (Z.of_nat mx + input_line_offset + 1)%Z)
             ∧ (∃ g s, survivors !! g = Some s ∧ mx ∈ s)
             ∧ ∀ g s i, survivors !! g = Some s → i ∈ s → i ≤ mx).
Proof.
  intros Hnext. unfold advance_cursor. rewrite decide_True by done.
  assert (∀ survivors : gmap nat (gset nat),
    ((∀ g s, survivors !! g = Some s → s = ∅) →
     (py_values (VDict survivors) ≫= λ gs, Py.max_of (⋃ gs) ≫= λ m,
        Ok (VDict survivors, (Z.of_nat m + input_line_offset + 1)%Z))
     = Raise ValueError)
    ∧ ((∃ g s, survivors !! g = Some s ∧ s ≠ ∅) →
       ∃ mx, (py_values (VDict survivors) ≫= λ gs, Py.max_of (⋃ gs) ≫= λ m,
                Ok (VDict survivors, (Z.of_nat m + input_line_offset + 1)%Z))
             = Ok (VDict survivors, (Z.of_nat mx + input_line_offset + 1)%Z)
             ∧ (∃ g s, survivors !! g = Some s ∧ mx ∈ s)
             ∧ ∀ g s i, survivors !! g = Some s → i ∈ s → i ≤ mx)) as Hcursor.
  { intros survivors. simpl.
    destruct (Py.max_of (⋃ (map_to_list survivors).*2)) as [mx|e] eqn:Hmax; simpl.
    - apply max_of_Ok in Hmax as [Hin Hle]. split.
      + intros Hempty. apply elem_of_groups in Hin as (g & s & Hgs & Hi).
        rewrite (Hempty g s Hgs) in Hi. by apply not_elem_of_empty in Hi.
      + intros _. exists mx. split; [done|]. split; [by apply elem_of_groups|].
        intros g s i Hgs Hi. apply Hle, elem_of_groups. eauto.
    - apply max_of_Raise in Hmax as [Hnone ->]. split; [done|].
      intros (g & s & Hgs & Hne). destruct Hne. apply leibniz_equiv.
      intros i. split; [|by intros ?%not_elem_of_empty].
      intros Hi. assert (i ∈ ⋃ (map_to_list survivors).*2) as Hin
        by (apply elem_of_groups; eauto).
      by rewrite Hnone in Hin. }
  destruct (decide (1 < py_len (VDict groups))) as [Hmany|Hfew]; simpl in *.
  - destruct (Py.max_of (dom groups)) as [k|e] eqn:Hmax.
    + apply max_of_Ok in Hmax as [Hin Hle]. exists (delete k groups). simpl.
      split.
      { intros _. exists k. split; [by apply elem_of_dom|]. split; [|done].
        intros k' Hk'. by apply Hle, elem_of_dom. }
      split; [lia|]. apply Hcursor.
    + apply max_of_Raise in Hmax as [Hnone _].
      apply dom_empty_inv_L in Hnone. subst groups.
      rewrite map_size_empty in Hmany. lia.
  - exists groups. split; [lia|]. split; [done|]. apply Hcursor.
Qed.

Lemma advance_cursor_drops_last_of_several_groups_witness :
  ∃ survivors : gmap nat (gset nat),
    (1 < size ({[0 := {[0; 1]}; 1 := {[1; 2]}]} : gmap nat (gset nat)) →
     ∃ k, is_Some (({[0 := {[0; 1]}; 1 := {[1; 2]}]} : gmap nat (gset nat)) !! k)
          ∧ (∀ k', is_Some (({[0 := {[0; 1]}; 1 := {[1; 2]}]}
                               : gmap nat (gset nat)) !! k') → k' ≤ k)
          ∧ survivors = delete k {[0 := {[0; 1]}; 1 := {[1; 2]}]})
    ∧ (size ({[0 := {[0; 1]}; 1 := {[1; 2]}]} : gmap nat (gset nat)) ≤ 1 →
       survivors = {[0 := {[0; 1]}; 1 := {[1; 2]}]})
    ∧ ((∀ g s, survivors !! g = Some s → s = ∅) →
       advance_cursor ["a"; "b"; "c"; "d"] 3 0
         (VDict {[0 := {[0; 1]}; 1 := {[1; 2]}]})
       = Raise ValueError)
    ∧ ((∃ g s, survivors !! g = Some s ∧ s ≠ ∅) →
       ∃ mx, advance_cursor ["a"; "b"; "c"; "d"] 3 0
               (VDict {[0 := {[0; 1]}; 1 := {[1; 2]}]})
             = Ok (VDict survivors, (Z.of_nat mx + 0 + 1)%Z)
             ∧ (∃ g s, survivors !! g = Some s ∧ mx ∈ s)
             ∧ ∀ g s i, survivors !! g = Some s → i ∈ s → i ≤ mx).
Proof.
  apply (advance_cursor_drops_last_of_several_groups ["a"; "b"; "c"; "d"] 3 0
           {[0 := {[0; 1]}; 1 := {[1; 2]}]}).
  simpl. lia.
Defined.


(** * More of the class *)

(** ** The cached request and the batch processor *)

Lemma request_Ok (gpt : string → result string) (raw_text record_id : string)
    (batch_index : nat) (cache_dir cache_dir' : gmap (string * nat) string)
    (output_text : string) :
  gpt_linebreak_detection_request gpt raw_text record_id batch_index cache_dir
  = (Ok output_text, cache_dir') →
  cache_dir' = <[(record_id, batch_index) := output_text]> cache_dir
  ∧ match cache_dir !! (record_id, batch_index) with
    | Some stored => output_text = stored
    | None => gpt raw_text = Ok output_text
    end.
Proof.
  unfold gpt_linebreak_detection_request.
  destruct (cache_dir !! (record_id, batch_index)) as [stored|] eqn:Hc.
  - intros [= <- <-]. split; [|done]. by rewrite insert_id.
  - destruct (gpt raw_text) as [out|e]; [|done]. by intros [= <- <-].
Qed.

Lemma request_hit (gpt : string → result string) (raw_text record_id : string)
    (batch_index : nat) (cache_dir : gmap (string * nat) string)
    (stored : string) :
  cache_dir !! (record_id, batch_index) = Some stored →
  gpt_linebreak_detection_request gpt raw_text record_id batch_index cache_dir
  = (Ok stored, cache_dir).
Proof. intros Hc. unfold gpt_linebreak_detection_request. by rewrite Hc. Qed.

Lemma request_frame (gpt : string → result string) (raw_text record_id : string)
    (batch_index : nat) (cache_dir : gmap (string * nat) string)
    (k : string * nat) :
  k ≠ (record_id, batch_index) →
  (gpt_linebreak_detection_request gpt raw_text record_id batch_index
     cache_dir).2 !! k = cache_dir !! k.
Proof.
  intros Hk. unfold gpt_linebreak_detection_request.
  destruct (cache_dir !! (record_id, batch_index)); [done|].
  destruct (gpt raw_text); simpl; [|done]. by rewrite lookup_insert_ne.
Qed.

(** X1.  A request that returns leaves its answer in the cache directory
    under its own key and touches no other key; from then on every request
    with that key returns the stored answer and leaves the directory as it
    is, whatever text it is asked about and whatever the remote service
    would answer.  A request that raises leaves the directory as it was. *)
Theorem cached_answer_is_replayed (gpt : string → result string)
    (raw_text record_id : string) (batch_index : nat)
    (cache_dir : gmap (string * nat) string) :
  (∀ output_text cache_dir',
     gpt_linebreak_detection_request gpt raw_text record_id batch_index
       cache_dir = (Ok output_text, cache_dir') →
     cache_dir' !! (record_id, batch_index) = Some output_text
     ∧ (∀ k, k ≠ (record_id, batch_index) → cache_dir' !! k = cache_dir !! k)
     ∧ ∀ gpt' raw_text',
         gpt_linebreak_detection_request gpt' raw_text' record_id batch_index
           cache_dir' = (Ok output_text, cache_dir'))
  ∧ (∀ e cache_dir',
       gpt_linebreak_detection_request gpt raw_text record_id batch_index
         cache_dir = (Raise e, cache_dir') →
       cache_dir' = cache_dir ∧ gpt raw_text = Raise e
       ∧ cache_dir !! (record_id, batch_index) = None).
Proof.
  split.
  - intros out cache_dir' Hreq.
    destruct (request_Ok _ _ _ _ _ _ _ Hreq) as [-> _].
    split; [apply lookup_insert_eq|]. split.
    + intros k Hk. by rewrite lookup_insert_ne.
    + intros gpt' raw'. apply request_hit, lookup_insert_eq.
  - intros e cache_dir'. unfold gpt_linebreak_detection_request.
    destruct (cache_dir !! (record_id, batch_index)); [done|].
    destruct (gpt raw_text); [done|]. by intros [= <- <-].
Qed.

Lemma cached_answer_is_replayed_witness :
  gpt_linebreak_detection_request (λ _, Raise RequestError) "other text"
    "453500" 0 {[("453500", 0) := "a b"]}
  = (Ok "a b", {[("453500", 0) := "a b"]}).
Proof.
  destruct (cached_answer_is_replayed echo "a b" "453500" 0 ∅) as [Hok _].
  destruct (Hok "a b" {[("453500", 0) := "a b"]}) as (_ & _ & Hreplay).
  - vm_compute. reflexivity.
  - apply Hreplay.
Defined.

Section Batches.

Variable gpt : string → result string.
Variable compute_near_linebreak_match :
  string → string → nat → result (list bool).
Variable record_id : string.

Lemma process_batches_loop_frame (batches : list (list string)) :
  ∀ (i : nat) (outs : list string) (dets : list bool)
    (cache_dir : gmap (string * nat) string) (k : string * nat),
    (∀ j, j < length batches → k ≠ (record_id, i + j)) →
    (process_batches_loop gpt compute_near_linebreak_match record_id i batches
       outs dets cache_dir).2 !! k = cache_dir !! k.
Proof.
  induction batches as [|batch rest IH]; intros i outs dets cache_dir k Hk;
    [done|].
  simpl.
  pose proof (request_frame gpt (Py.join Py.newline batch) record_id i
                cache_dir k) as Hframe.
  destruct (gpt_linebreak_detection_request _ _ _ _ _) as [[out|e] c1];
    simpl in *.
  - assert (c1 !! k = cache_dir !! k) as Hc1.
    { apply Hframe. specialize (Hk 0 ltac:(simpl; lia)).
      by rewrite Nat.add_0_r in Hk. }
    destruct (compute_near_linebreak_match _ _ _) as [d|e]; simpl; [|done].
    rewrite IH; [done|]. intros j Hj.
    specialize (Hk (S j) ltac:(simpl; lia)).
    by replace (S i + j) with (i + S j) by lia.
  - apply Hframe. specialize (Hk 0 ltac:(simpl; lia)).
    by rewrite Nat.add_0_r in Hk.
Qed.

Lemma process_batches_loop_spec (batches : list (list string)) :
  ∀ (i : nat) (acc_outs : list string) (acc_dets : list bool)
    (cache_dir cache_dir' : gmap (string * nat) string)
    (outs : list string) (dets : list bool),
    process_batches_loop gpt compute_near_linebreak_match record_id i batches
      acc_outs acc_dets cache_dir = (Ok (outs, dets), cache_dir') →
    ∃ new_outs ds,
      outs = acc_outs ++ new_outs ∧ dets = acc_dets ++ mjoin ds
      ∧ length new_outs = length batches
      ∧ Forall2 (λ bo d,
                   compute_near_linebreak_match (Py.join Py.newline bo.1)
                     bo.2 10 = Ok d)
          (zip batches new_outs) ds
      ∧ ∀ j batch, batches !! j = Some batch →
          ∃ out, new_outs !! j = Some out
                 ∧ cache_dir' !! (record_id, i + j) = Some out
                 ∧ match cache_dir !! (record_id, i + j) with
                   | Some stored => out = stored
                   | None => gpt (Py.join Py.newline batch) = Ok out
                   end.
Proof.
  induction batches as [|batch rest IH];
    intros i acc_outs acc_dets cache_dir cache_dir' outs dets Hrun.
  - injection Hrun as <- <- <-. exists [], [].
    rewrite !app_nil_r. repeat split; try done; constructor.
  - simpl in Hrun.
    destruct (gpt_linebreak_detection_request _ _ _ _ _) as [[out|e] c1]
      eqn:Hreq; [|done].
    destruct (compute_near_linebreak_match _ _ _) as [d|e] eqn:Hcmp; [|done].
    destruct (request_Ok _ _ _ _ _ _ _ Hreq) as [Hc1 Hsrc].
    pose proof (process_batches_loop_frame rest (S i) (acc_outs ++ [out])
                  (acc_dets ++ d) c1 (record_id, i)) as Hframe.
    rewrite Hrun in Hframe. simpl in Hframe.
    destruct (IH _ _ _ _ _ _ _ Hrun) as (new_outs & ds & -> & -> & Hlen & HF & Hkeys).
    exists (out :: new_outs), (d :: ds).
    split; [by rewrite <- app_assoc|].
    split; [by rewrite <- app_assoc|].
    split; [simpl; lia|]. split; [by constructor|].
    intros [|j] b Hb; simpl in Hb.
    + injection Hb as <-. exists out. rewrite Nat.add_0_r.
      split; [done|]. split; [|done].
      rewrite Hframe by (intros j _ [=]; lia).
      rewrite Hc1. apply lookup_insert_eq.
    + destruct (Hkeys j b Hb) as (o & Ho & Hc' & Hsrc').
      exists o. replace (i + S j) with (S i + j) by lia.
      split; [done|]. split; [done|].
      rewrite Hc1, lookup_insert_ne in Hsrc' by (intros [=]; lia). done.
Qed.

Lemma process_batches_loop_replay (batches : list (list string)) :
  ∀ (i : nat) (acc_outs : list string) (acc_dets : list bool)
    (cache_dir cache_dir' : gmap (string * nat) string)
    (r : list string * list bool),
    process_batches_loop gpt compute_near_linebreak_match record_id i batches
      acc_outs acc_dets cache_dir = (Ok r, cache_dir') →
    ∀ (gpt' : string → result string) (warm : gmap (string * nat) string),
      (∀ j, j < length batches →
            warm !! (record_id, i + j) = cache_dir' !! (record_id, i + j)) →
      process_batches_loop gpt' compute_near_linebreak_match record_id i
        batches acc_outs acc_dets warm = (Ok r, warm).
Proof.
  induction batches as [|batch rest IH];
    intros i acc_outs acc_dets cache_dir cache_dir' r Hrun gpt' warm Hwarm.
  - by injection Hrun as <- <-.
  - simpl in Hrun. simpl.
    destruct (gpt_linebreak_detection_request gpt _ _ _ _) as [[out|e] c1]
      eqn:Hreq; [|done].
    destruct (compute_near_linebreak_match _ _ _) as [d|e] eqn:Hcmp; [|done].
    destruct (request_Ok _ _ _ _ _ _ _ Hreq) as [Hc1 _].
    pose proof (process_batches_loop_frame rest (S i) (acc_outs ++ [out])
                  (acc_dets ++ d) c1 (record_id, i)) as Hframe.
    rewrite Hrun in Hframe. simpl in Hframe.
    assert (warm !! (record_id, i) = Some out) as Hhit.
    { specialize (Hwarm 0 ltac:(simpl; lia)). rewrite Nat.add_0_r in Hwarm.
      rewrite Hwarm. rewrite Hframe by (intros j _ [=]; lia).
      rewrite Hc1. apply lookup_insert_eq. }
    rewrite (request_hit gpt' _ _ _ _ _ Hhit), Hcmp.
    apply (IH _ _ _ _ _ _ Hrun). intros j Hj.
    specialize (Hwarm (S j) ltac:(simpl; lia)).
    by replace (S i + j) with (i + S j) by lia.
Qed.

End Batches.

(** X2.  When [process_batches] returns, it returns one answer per batch;
    the answer of batch [j] is stored under the key [(record_id, j)], and
    it is the text stored there before the run if there was one, the
    answer of the remote service to the newline-joined batch otherwise; no
    other key of the cache directory changes; and the detections are the
    results of the line break matcher on the batches, in order. *)
Theorem process_batches_keys_by_index (gpt : string → result string)
    (compute_near_linebreak_match : string → string → nat → result (list bool))
    (batches : list (list string)) (record_id : string)
    (cache_dir cache_dir' : gmap (string * nat) string)
    (outs : list string) (dets : list bool) :
  process_batches gpt compute_near_linebreak_match batches record_id cache_dir
  = (Ok (outs, dets), cache_dir') →
  length outs = length batches
  ∧ (∀ j batch, batches !! j = Some batch →
       ∃ out, outs !! j = Some out
              ∧ cache_dir' !! (record_id, j) = Some out
              ∧ match cache_dir !! (record_id, j) with
                | Some stored => out = stored
                | None => gpt (Py.join Py.newline batch) = Ok out
                end)
  ∧ (∀ k, (∀ j, j < length batches → k ≠ (record_id, j)) →
          cache_dir' !! k = cache_dir !! k)
  ∧ ∃ ds, Forall2 (λ bo d,
                     compute_near_linebreak_match (Py.join Py.newline bo.1)
                       bo.2 10 = Ok d)
            (zip batches outs) ds
          ∧ dets = mjoin ds.
Proof.
  unfold process_batches. intros Hrun.
  pose proof (process_batches_loop_frame gpt compute_near_linebreak_match
                record_id batches 0 [] [] cache_dir) as Hframe.
  rewrite Hrun in Hframe. simpl in Hframe.
  destruct (process_batches_loop_spec _ _ _ _ _ _ _ _ _ _ _ Hrun)
    as (new_outs & ds & -> & -> & Hlen & HF & Hkeys).
  simpl. split; [done|]. split; [exact Hkeys|]. split; [exact Hframe|].
  by exists ds.
Qed.

Lemma process_batches_keys_by_index_witness :
  ∃ outs dets cache_dir',
    process_batches echo all_soft [["a b"; "c"]; ["d"]] "453500"
      {[("453500", 1) := "stored"]}
    = (Ok (outs, dets), cache_dir')
    ∧ length outs = 2
    ∧ cache_dir' !! ("453500", 0) = Some ("a b" +:+ Py.newline +:+ "c")
    ∧ cache_dir' !! ("453500", 1) = Some "stored".
Proof.
  destruct (process_batches echo all_soft [["a b"; "c"]; ["d"]] "453500"
              {[("453500", 1) := "stored"]}) as [r c] eqn:Hrun.
  assert (r = Ok (["a b" +:+ Py.newline +:+ "c"; "stored"], [false])) as ->.
  { change r with (r, c).1. rewrite <- Hrun. vm_compute. reflexivity. }
  eexists _, _, c. split; [reflexivity|].
  destruct (process_batches_keys_by_index _ _ _ _ _ _ _ _ Hrun)
    as (Hlen & Hkeys & _).
  split; [exact Hlen|].
  destruct (Hkeys 0 ["a b"; "c"] eq_refl) as (o0 & [= <-] & Hc0 & _).
  destruct (Hkeys 1 ["d"] eq_refl) as (o1 & [= <-] & Hc1 & _).
  by split.
Defined.

(** X3.  A run of [process_batches] that returned can be repeated on the
    cache directory it left: the second run returns the same answers and
    detections and leaves the directory unchanged, whatever the remote
    service would now answer, also when it would raise. *)
Theorem process_batches_second_run_replays (gpt : string → result string)
    (compute_near_linebreak_match : string → string → nat → result (list bool))
    (batches : list (list string)) (record_id : string)
    (cache_dir cache_dir' : gmap (string * nat) string)
    (r : list string * list bool) :
  process_batches gpt compute_near_linebreak_match batches record_id cache_dir
  = (Ok r, cache_dir') →
  ∀ gpt' : string → result string,
    process_batches gpt' compute_near_linebreak_match batches record_id
      cache_dir' = (Ok r, cache_dir').
Proof.
  unfold process_batches. intros Hrun gpt'.
  by apply (process_batches_loop_replay gpt compute_near_linebreak_match
              record_id batches 0 [] [] cache_dir cache_dir' r Hrun gpt').
Qed.

Lemma process_batches_second_run_replays_witness :
  ∃ r cache_dir',
    process_batches echo all_soft [["a b"; "c"]; ["d"]] "453500" ∅
    = (Ok r, cache_dir')
    ∧ process_batches (λ _, Raise RequestError) all_soft
        [["a b"; "c"]; ["d"]] "453500" cache_dir'
      = (Ok r, cache_dir').
Proof.
  destruct (process_batches echo all_soft [["a b"; "c"]; ["d"]] "453500" ∅)
    as [r c] eqn:Hrun.
  assert (r = Ok (["a b" +:+ Py.newline +:+ "c"; "d"], [false])) as ->.
  { change r with (r, c).1. rewrite <- Hrun. vm_compute. reflexivity. }
  eexists _, c. split; [reflexivity|].
  by apply (process_batches_second_run_replays echo all_soft
              [["a b"; "c"]; ["d"]] "453500" ∅).
Defined.

(** ** More on the tokenizer *)

Lemma chr_Ok (n c : Z) : Py.chr n = Ok c → c = n.
Proof. unfold Py.chr. case_decide; [|done]. by intros [= <-]. Qed.

Lemma token_of_word_symbol (offset : Z) (d : gmap string nat)
    (seen : list string) (wl wl' : string * nat) (t t' : LCSTokenInfo) :
  numbers d seen →
  token_of_word offset d wl t → token_of_word offset d wl' t' →
  (token t = token t' ↔ wl.1 = wl'.1).
Proof.
  intros [Hiff _] (id & Hid & Hc & _) (id' & Hid' & Hc' & _).
  apply chr_Ok in Hc, Hc'. split.
  - intros Heq. assert (id = id') as -> by lia.
    apply Hiff in Hid, Hid'. congruence.
  - intros Heq. rewrite Heq in Hid. congruence.
Qed.

Lemma line_words_line (lines : list string) :
  ∀ (p : nat) (w : string) (q : nat),
    (w, q) ∈ line_words p lines →
    ∃ line, lines !! (q - p) = Some line ∧ w ∈ Py.split line ∧ p ≤ q.
Proof.
  induction lines as [|l lines IH]; intros p w q Hwl; simpl in Hwl.
  - by apply elem_of_nil in Hwl.
  - apply elem_of_app in Hwl as [Hwl|Hwl].
    + apply list_elem_of_fmap in Hwl as (w' & [= -> ->] & Hw).
      exists l. rewrite Nat.sub_diag. by repeat split.
    + destruct (IH _ _ _ Hwl) as (line & Hline & Hw & Hp).
      exists line. replace (q - p) with (S (q - S p)) by lia.
      split; [done|]. split; [done | lia].
Qed.

Lemma line_words_sorted (lines : list string) :
  ∀ p, StronglySorted (λ a b : string * nat, a.2 ≤ b.2) (line_words p lines).
Proof.
  induction lines as [|l lines IH]; intros p; simpl; [constructor|].
  apply StronglySorted_app_2; [| |apply IH].
  - intros x1 x2 (w & -> & _)%list_elem_of_fmap Hx2%line_words_ids.
    simpl. lia.
  - induction (Py.split l) as [|w ws IHws]; [constructor|].
    rewrite fmap_cons. constructor; [done|].
    apply Forall_forall. by intros x (w' & -> & _)%list_elem_of_fmap.
Qed.

Lemma filter_sorted {A : Type} (R : relation A) (P : A → Prop)
    `{∀ x, Decision (P x)} (l : list A) :
  StronglySorted R l → StronglySorted R (filter P l).
Proof.
  induction 1 as [|x l Hl IH Hx]; [constructor|].
  destruct (decide (P x)).
  - rewrite filter_cons_True by done. constructor; [done|].
    apply Forall_forall. intros y [_ Hy]%list_elem_of_filter.
    rewrite Forall_forall in Hx. by apply Hx.
  - by rewrite filter_cons_False.
Qed.

Lemma sorted_lookup (l : list (string * nat)) :
  StronglySorted (λ a b : string * nat, a.2 ≤ b.2) l →
  ∀ i j a b, i ≤ j → l !! i = Some a → l !! j = Some b → a.2 ≤ b.2.
Proof.
  induction 1 as [|x l Hl IH Hx]; intros i j a b Hij Hi Hj; [done|].
  destruct i as [|i], j as [|j]; simpl in *; try lia.
  - injection Hi as <-. injection Hj as <-. lia.
  - injection Hi as <-. rewrite Forall_forall in Hx. apply Hx.
    apply list_elem_of_lookup. eauto.
  - apply (IH i j); [lia | done | done].
Qed.

Lemma tokens_sorted (offset : Z) (d : gmap string nat)
    (wls : list (string * nat)) (toks : list LCSTokenInfo) :
  StronglySorted (λ a b : string * nat, a.2 ≤ b.2) wls →
  Forall2 (token_of_word offset d) wls toks →
  ∀ i j t t', i ≤ j → toks !! i = Some t → toks !! j = Some t' →
              source_line_id t ≤ source_line_id t'.
Proof.
  intros Hsorted HF i j t t' Hij Hi Hj.
  destruct (Forall2_lookup_r _ _ _ _ _ HF Hi) as (wl & Hwl & _ & _ & _ & _ & ->).
  destruct (Forall2_lookup_r _ _ _ _ _ HF Hj) as (wl' & Hwl' & _ & _ & _ & _ & ->).
  by eapply (sorted_lookup wls).
Qed.

(** X4.  In the tokens of one run, symbols stand for words one to one: two
    input tokens carry the same symbol exactly when they are the same word,
    and an output token is some output word, with that word's length and
    line, and carries the symbol of an input token exactly when the two are
    the same word. *)
Theorem symbols_identify_words (input_lines output_lines : list string)
    (offset : Z) (itoks otoks : list LCSTokenInfo) :
  tokenize_by_space_splited_word input_lines output_lines offset
  = Ok (itoks, otoks) →
  (∀ i j wl wl' t t',
     line_words 0 input_lines !! i = Some wl → itoks !! i = Some t →
     line_words 0 input_lines !! j = Some wl' → itoks !! j = Some t' →
     (token t = token t' ↔ wl.1 = wl'.1))
  ∧ (∀ t, t ∈ otoks →
       ∃ wl, wl ∈ line_words 0 output_lines
             ∧ length_ t = String.length wl.1 ∧ source_line_id t = wl.2
             ∧ ∀ j wl' t',
                 line_words 0 input_lines !! j = Some wl' →
                 itoks !! j = Some t' →
                 (token t = token t' ↔ wl.1 = wl'.1)).
Proof.
  intros Hrun.
  destruct (tokenize_spec _ _ _ _ _ Hrun) as (d & _ & Hnum & HFi & HFo).
  split.
  - intros i j wl wl' t t' Hwl Ht Hwl' Ht'.
    destruct (Forall2_lookup_l _ _ _ _ _ HFi Hwl) as (t0 & Ht0 & Htok).
    destruct (Forall2_lookup_l _ _ _ _ _ HFi Hwl') as (t0' & Ht0' & Htok').
    assert (t0 = t) as -> by congruence. assert (t0' = t') as -> by congruence.
    by eapply token_of_word_symbol.
  - intros t Ht.
    destruct (Forall2_elem_of_r _ _ _ _ HFo Ht) as (wl & Hwl & Htok).
    apply list_elem_of_filter in Hwl as [_ Hwl].
    exists wl. split; [done|].
    pose proof Htok as (id & _ & _ & Hlen & Hline).
    split; [done|]. split; [done|].
    intros j wl' t' Hwl' Ht'.
    destruct (Forall2_lookup_l _ _ _ _ _ HFi Hwl') as (t0' & Ht0' & Htok').
    assert (t0' = t') as -> by congruence.
    by eapply token_of_word_symbol.
Qed.

Lemma symbols_identify_words_witness :
  ∃ itoks otoks,
    tokenize_by_space_splited_word ["to be or"; "not to be"] ["be it"] 0
    = Ok (itoks, otoks)
    ∧ (∀ t t', itoks !! 0 = Some t → itoks !! 4 = Some t' → token t = token t')
    ∧ (∀ t t', itoks !! 0 = Some t → itoks !! 1 = Some t' → token t ≠ token t').
Proof.
  destruct (tokenize_by_space_splited_word ["to be or"; "not to be"] ["be it"] 0)
    as [[itoks otoks]|e] eqn:Hrun; [|vm_compute in Hrun; discriminate].
  exists itoks, otoks. split; [done|].
  destruct (symbols_identify_words _ _ _ _ _ Hrun) as [Hin _].
  split; intros t t' Ht Ht'.
  - by apply (Hin 0 4 ("to", 0) ("to", 1) t t').
  - intros Heq. by apply (Hin 0 1 ("to", 0) ("be", 0) t t') in Heq.
Defined.

(** X5.  When the tokenizer returns, there is one input token per input
    word; along each token list the line ids never decrease; every line id
    is the position of a line of its side; and every token has a length of
    at least one character. *)
Theorem tokens_follow_the_lines (input_lines output_lines : list string)
    (offset : Z) (itoks otoks : list LCSTokenInfo) :
  tokenize_by_space_splited_word input_lines output_lines offset
  = Ok (itoks, otoks) →
  length itoks = length (line_words 0 input_lines)
  ∧ length otoks ≤ length (line_words 0 output_lines)
  ∧ (∀ i j t t', i ≤ j → itoks !! i = Some t → itoks !! j = Some t' →
                 source_line_id t ≤ source_line_id t')
  ∧ (∀ i j t t', i ≤ j → otoks !! i = Some t → otoks !! j = Some t' →
                 source_line_id t ≤ source_line_id t')
  ∧ (∀ t, t ∈ itoks →
          source_line_id t < length input_lines ∧ 1 ≤ length_ t)
  ∧ (∀ t, t ∈ otoks →
          source_line_id t < length output_lines ∧ 1 ≤ length_ t).
Proof.
  intros Hrun.
  destruct (tokenize_spec _ _ _ _ _ Hrun) as (d & _ & Hnum & HFi & HFo).
  assert (∀ (lines : list string) (wls : list (string * nat))
            (toks : list LCSTokenInfo),
            (∀ wl, wl ∈ wls → wl ∈ line_words 0 lines) →
            Forall2 (token_of_word offset d) wls toks →
            ∀ t, t ∈ toks → source_line_id t < length lines ∧ 1 ≤ length_ t)
    as Hbounds.
  { intros lines wls toks Hsub HF t Ht.
    destruct (Forall2_elem_of_r _ _ _ _ HF Ht)
      as ([w q] & Hwl & id & _ & _ & Hlen & Hline).
    apply Hsub in Hwl. simpl in *. rewrite Hline, Hlen. split.
    - apply line_words_ids in Hwl. simpl in Hwl. lia.
    - apply line_words_line in Hwl as (line & _ & Hw & _).
      apply split_word_length in Hw. lia. }
  split; [symmetry; by eapply Forall2_length|].
  split.
  { rewrite <- (Forall2_length _ _ _ HFo). apply length_filter. }
  split; [eapply tokens_sorted; [apply line_words_sorted | exact HFi]|].
  split.
  { eapply tokens_sorted; [|exact HFo]. apply filter_sorted, line_words_sorted. }
  split.
  - by apply (Hbounds input_lines (line_words 0 input_lines)).
  - apply (Hbounds output_lines
             (filter (λ wl, is_Some (d !! wl.1)) (line_words 0 output_lines)));
      [|done].
    by intros wl [_ ?]%list_elem_of_filter.
Qed.

Lemma tokens_follow_the_lines_witness :
  ∃ itoks otoks,
    tokenize_by_space_splited_word ["to be or"; ""; "not to be"] ["be it"] 0
    = Ok (itoks, otoks)
    ∧ length itoks = 6 ∧ length otoks ≤ 2
    ∧ ∀ t, t ∈ itoks → source_line_id t < 3 ∧ 1 ≤ length_ t.
Proof.
  destruct (tokenize_by_space_splited_word ["to be or"; ""; "not to be"]
              ["be it"] 0)
    as [[itoks otoks]|e] eqn:Hrun; [|vm_compute in Hrun; discriminate].
  exists itoks, otoks. split; [done|].
  destruct (tokens_follow_the_lines _ _ _ _ _ Hrun)
    as (Hlen & Hlen' & _ & _ & Hi & _).
  split; [exact Hlen|]. split; [exact Hlen' | exact Hi].
Defined.

(** ** More on the aligner *)

Lemma lcs_sequence_alignment_inv (lcs : list Z → list Z → list Z)
    (input_lines output_lines : lines_arg) (m : gmap nat (gset nat))
    (ir or : list Q) :
  lcs_sequence_alignment lcs input_lines output_lines = Ok (m, ir, or) →
  ∃ itoks otoks m0 ihr ohr,
    tokenize_for_lcs (as_lines input_lines) (as_lines output_lines)
    = Ok (itoks, otoks)
    ∧ align_loop itoks otoks 0 (lcs (token <$> itoks) (token <$> otoks))
        (∅, replicate (length (as_lines input_lines)) 0,
         replicate (length (as_lines output_lines)) 0)
      = Ok (m0, ihr, ohr)
    ∧ normalize (as_lines input_lines) 0 ihr = Ok ir
    ∧ normalize (as_lines output_lines) 0 ohr = Ok or
    ∧ m = drop_low 0 or m0.
Proof.
  unfold lcs_sequence_alignment. intros Hrun.
  inv_bind Hrun. destruct a as [itoks otoks].
  inv_bind Hrun. destruct a as [[m0 ihr] ohr].
  inv_bind Hrun. inv_bind Hrun. injection Hrun as <- <- <-.
  exists itoks, otoks, m0, ihr, ohr. by repeat split.
Qed.

Lemma grouped_insert (m : gmap nat (gset nat)) (q p q' p' : nat) :
  grouped (<[q := default ∅ (m !! q) ∪ {[p]}]> m) q' p'
  ↔ (q' = q ∧ p' = p) ∨ grouped m q' p'.
Proof.
  unfold grouped. destruct (decide (q' = q)) as [->|Hne].
  - rewrite lookup_insert_eq. split.
    + intros (s & [= <-] & Hp). apply elem_of_union in Hp as [Hp|Hp].
      * right. destruct (m !! q) as [s0|]; simpl in Hp; [eauto|].
        by apply not_elem_of_empty in Hp.
      * left. apply elem_of_singleton in Hp. by split.
    + intros [[_ ->]|(s & Hs & Hp)]; eexists; (split; [done|]).
      * apply elem_of_union. right. by apply elem_of_singleton.
      * rewrite Hs. simpl. apply elem_of_union. by left.
  - rewrite lookup_insert_ne by done. split; [by right|].
    by intros [[? _]|?].
Qed.

Lemma grouped_drop_low (rates : list Q) (m : gmap nat (gset nat)) (q p : nat) :
  grouped (drop_low 0 rates m) q p → grouped m q p.
Proof.
  intros (s & Hs & Hp). exists s. split; [|done].
  eapply lookup_weaken; [exact Hs | apply drop_low_subseteq].
Qed.

Lemma getitem_elem_of {A : Type} (l : list A) (i : Z) (x : A) :
  Py.getitem l i = Ok x → x ∈ l.
Proof.
  unfold Py.getitem. case_decide; [|done].
  destruct (l !! _) eqn:Hl; [|done]. intros [= <-].
  apply list_elem_of_lookup. eauto.
Qed.

(** What the loop puts in the groups, and which counters it touches,
    whatever the index vector is. *)
Lemma align_loop_groups (itoks otoks : list LCSTokenInfo) (aligned : list Z) :
  ∀ (i : nat) (m : gmap nat (gset nat)) (ihr ohr : list nat)
    (m' : gmap nat (gset nat)) (ihr' ohr' : list nat),
    align_loop itoks otoks i aligned (m, ihr, ohr) = Ok (m', ihr', ohr') →
    (∀ q p, grouped m' q p →
            grouped m q p ∨ (p < length ihr ∧ q < length ohr))
    ∧ ((∀ q s, m !! q = Some s → s ≠ ∅) → ∀ q s, m' !! q = Some s → s ≠ ∅)
    ∧ ∀ q, (∀ t, t ∈ otoks → source_line_id t ≠ q) →
           ohr' !! q = ohr !! q ∧ m' !! q = m !! q.
Proof.
  induction aligned as [|j aligned IH]; intros i m ihr ohr m' ihr' ohr' Hrun.
  - injection Hrun as <- <- <-. split; [by left|]. by split.
  - rewrite align_loop_cons in Hrun. inv_bind Hrun.
    destruct a as [[m1 ihr1] ohr1].
    destruct (IH _ _ _ _ _ _ _ Hrun) as (Hgr & Hne & Hun).
    apply align_step_Ok in Ha
      as [(_ & -> & -> & ->)|(_ & it & ot & _ & Hot & -> & Hai & Hao)]; [done|].
    pose proof (additem_length _ _ _ _ Hai) as Hli.
    pose proof (additem_length _ _ _ _ Hao) as Hlo.
    apply additem_Ok in Hai as (x & Hx & ->).
    apply additem_Ok in Hao as (y & Hy & ->).
    apply lookup_lt_Some in Hx. pose proof (lookup_lt_Some _ _ _ Hy) as Hy'.
    split; [|split].
    + intros q p Hqp. destruct (Hgr q p Hqp) as [Hold|[? ?]]; [|right; lia].
      apply grouped_insert in Hold as [[-> ->]|Hold]; [right; lia | by left].
    + intros Hm. apply Hne. intros q s.
      destruct (decide (q = source_line_id ot)) as [->|Hq].
      * rewrite lookup_insert_eq. intros [= <-] Hempty.
        assert (source_line_id it ∈ (∅ : gset nat)) as Hin
          by (rewrite <- Hempty; apply elem_of_union; right;
              by apply elem_of_singleton).
        by apply not_elem_of_empty in Hin.
      * rewrite lookup_insert_ne by done. apply Hm.
    + intros q Hq. destruct (Hun q Hq) as [-> ->].
      assert (source_line_id ot ≠ q) as Hne'
        by (apply Hq; by eapply getitem_elem_of).
      split; [by rewrite list_lookup_insert_ne | by rewrite lookup_insert_ne].
Qed.

(** X6.  When [lcs_sequence_alignment] returns, whatever the LCS routine:
    there is one rate per input line and one per output line; every key of
    the mapping is the position of an output line; every group is not
    empty; and every member of a group is the position of an input line. *)
Theorem groups_hold_line_positions (lcs : list Z → list Z → list Z)
    (input_lines output_lines : lines_arg) (mapping : gmap nat (gset nat))
    (input_hit_rate output_hit_rate : list Q) :
  lcs_sequence_alignment lcs input_lines output_lines
  = Ok (mapping, input_hit_rate, output_hit_rate) →
  length input_hit_rate = length (as_lines input_lines)
  ∧ length output_hit_rate = length (as_lines output_lines)
  ∧ ∀ q s, mapping !! q = Some s →
      q < length (as_lines output_lines) ∧ s ≠ ∅
      ∧ ∀ p, p ∈ s → p < length (as_lines input_lines).
Proof.
  intros Hrun.
  apply lcs_sequence_alignment_inv in Hrun
    as (itoks & otoks & m0 & ihr & ohr & _ & Hloop & Hni & Hno & ->).
  destruct (align_loop_keys _ _ _ _ _ _ _ _ _ _ Hloop) as (Hli & Hlo & _).
  destruct (align_loop_groups _ _ _ _ _ _ _ _ _ _ Hloop) as (Hgr & Hne & _).
  destruct (normalize_lookup _ _ _ _ Hni) as [-> _].
  destruct (normalize_lookup _ _ _ _ Hno) as [-> _].
  rewrite length_replicate in Hli, Hlo.
  rewrite !length_replicate in Hgr.
  split; [done|]. split; [done|].
  intros q s Hs.
  assert (m0 !! q = Some s) as Hs0
    by (eapply lookup_weaken; [exact Hs | apply drop_low_subseteq]).
  assert (∀ p, p ∈ s → p < length (as_lines input_lines)
                       ∧ q < length (as_lines output_lines)) as Hin.
  { intros p Hp. destruct (Hgr q p) as [(s0 & Hs0' & _)|?]; [by exists s | | done].
    by rewrite lookup_empty in Hs0'. }
  assert (s ≠ ∅) as Hnonempty by (eapply Hne; [|exact Hs0]; by intros ? ?).
  split; [|split; [done | intros p Hp; by apply Hin]].
  destruct (set_choose_L s Hnonempty) as [p Hp]. by apply (Hin p).
Qed.

Lemma groups_hold_line_positions_witness :
  ∃ mapping input_hit_rate output_hit_rate,
    lcs_sequence_alignment RefLCS.lcs_sequence_idx
      (Text ("a b" +:+ Py.newline +:+ "c d")) (Lines ["a b c"; "x d"])
    = Ok (mapping, input_hit_rate, output_hit_rate)
    ∧ length input_hit_rate = 2 ∧ length output_hit_rate = 2
    ∧ ∀ q s, mapping !! q = Some s → q < 2 ∧ s ≠ ∅ ∧ ∀ p, p ∈ s → p < 2.
Proof.
  destruct (lcs_sequence_alignment RefLCS.lcs_sequence_idx
              (Text ("a b" +:+ Py.newline +:+ "c d")) (Lines ["a b c"; "x d"]))
    as [[[m ir] or]|e] eqn:Hrun; [|vm_compute in Hrun; discriminate].
  exists m, ir, or. split; [done|].
  exact (groups_hold_line_positions _ _ _ _ _ _ Hrun).
Defined.

(** X7.  When [lcs_sequence_alignment] returns, an output line none of
    whose words occurs in the input lines has the rate 0 and is not a key
    of the mapping, whatever the LCS routine. *)
Theorem fabricated_output_line_is_dropped (lcs : list Z → list Z → list Z)
    (input_lines output_lines : lines_arg) (mapping : gmap nat (gset nat))
    (input_hit_rate output_hit_rate : list Q) (q : nat) (line : string) :
  lcs_sequence_alignment lcs input_lines output_lines
  = Ok (mapping, input_hit_rate, output_hit_rate) →
  as_lines output_lines !! q = Some line →
  (∀ w, w ∈ Py.split line → w ∉ (line_words 0 (as_lines input_lines)).*1) →
  (∃ r, output_hit_rate !! q = Some r ∧ (r == 0)%Q)
  ∧ mapping !! q = None.
Proof.
  intros Hrun Hline Hfresh.
  apply lcs_sequence_alignment_inv in Hrun
    as (itoks & otoks & m0 & ihr & ohr & Htok & Hloop & Hni & Hno & ->).
  destruct (tokenize_spec _ _ _ _ _ Htok) as (d & _ & Hnum & HFi & HFo).
  assert (∀ t, t ∈ otoks → source_line_id t ≠ q) as Hnone.
  { intros t Ht Hq.
    destruct (Forall2_elem_of_r _ _ _ _ HFo Ht)
      as ([w q'] & Hwl & id & _ & _ & _ & Hl).
    simpl in Hl. assert (q' = q) as -> by congruence.
    apply list_elem_of_filter in Hwl as [Hin Hwl]. simpl in Hin.
    apply line_words_line in Hwl as (line' & Hline' & Hw & _).
    rewrite Nat.sub_0_r, Hline in Hline'. injection Hline' as <-.
    apply (Hfresh w Hw).
    by apply elem_of_first_seen, (numbers_elem_of d). }
  destruct (align_loop_groups _ _ _ _ _ _ _ _ _ _ Hloop) as (_ & _ & Hun).
  destruct (Hun q Hnone) as [Hohr Hm0].
  destruct (normalize_lookup _ _ _ _ Hno) as [Hlen Hlook].
  destruct (align_loop_keys _ _ _ _ _ _ _ _ _ _ Hloop) as (_ & Hlo & _).
  rewrite length_replicate in Hlo.
  assert (is_Some (output_hit_rate !! q)) as [r Hr].
  { apply lookup_lt_is_Some. rewrite Hlen, Hlo. by eapply lookup_lt_Some. }
  destruct (Hlook q r Hr) as (v & line' & Hv & _ & Hdiv). simpl in *.
  rewrite Hohr in Hv. apply lookup_replicate in Hv as [-> _].
  apply truediv_Ok in Hdiv as [Hn ->].
  split; [exists (0 # Pos.of_nat (Py.sum_len (Py.split line'))); by split|].
  eapply lookup_weaken_None; [|apply drop_low_subseteq].
  by rewrite Hm0, lookup_empty.
Qed.

Lemma fabricated_output_line_is_dropped_witness :
  ∃ mapping input_hit_rate output_hit_rate,
    lcs_sequence_alignment RefLCS.lcs_sequence_idx
      (Lines ["a b"; "c d"]) (Lines ["a b"; "I am sorry"; "c d"])
    = Ok (mapping, input_hit_rate, output_hit_rate)
    ∧ (∃ r, output_hit_rate !! 1 = Some r ∧ (r == 0)%Q)
    ∧ mapping !! 1 = None.
Proof.
  destruct (lcs_sequence_alignment RefLCS.lcs_sequence_idx
              (Lines ["a b"; "c d"]) (Lines ["a b"; "I am sorry"; "c d"]))
    as [[[m ir] or]|e] eqn:Hrun; [|vm_compute in Hrun; discriminate].
  exists m, ir, or. split; [done|].
  apply (fabricated_output_line_is_dropped _ _ _ _ _ _ 1 "I am sorry" Hrun).
  - reflexivity.
  - intros w Hw Hin. vm_compute in Hw, Hin.
    repeat (apply elem_of_cons in Hw as [->|Hw];
            [repeat (apply elem_of_cons in Hin as [Hin|Hin]; [discriminate|]);
             by apply elem_of_nil in Hin|]).
    by apply elem_of_nil in Hw.
Defined.

Section Order.

Variables itoks otoks : list LCSTokenInfo.
Hypothesis input_sorted :
  ∀ i j t t', i ≤ j → itoks !! i = Some t → itoks !! j = Some t' →
              source_line_id t ≤ source_line_id t'.
Hypothesis output_sorted :
  ∀ i j t t', i ≤ j → otoks !! i = Some t → otoks !! j = Some t' →
              source_line_id t ≤ source_line_id t'.

(** Under an index vector whose positions increase, the pairs the loop
    records keep the order of the lines. *)
Lemma align_loop_ordered (aligned : list Z) :
  ∀ (i : nat) (J : Z) (m : gmap nat (gset nat)) (ihr ohr : list nat)
    (m' : gmap nat (gset nat)) (ihr' ohr' : list nat),
    increasing_from J aligned (Z.of_nat (length otoks)) = true →
    (0 ≤ J)%Z →
    (∀ q p, grouped m q p →
       (∀ i' t, i ≤ i' → itoks !! i' = Some t → p ≤ source_line_id t)
       ∧ (∀ j' t, Z.to_nat J ≤ j' → otoks !! j' = Some t →
                  q ≤ source_line_id t)) →
    (∀ q1 q2 p1 p2, grouped m q1 p1 → grouped m q2 p2 → q1 < q2 → p1 ≤ p2) →
    align_loop itoks otoks i aligned (m, ihr, ohr) = Ok (m', ihr', ohr') →
    ∀ q1 q2 p1 p2, grouped m' q1 p1 → grouped m' q2 p2 → q1 < q2 → p1 ≤ p2.
Proof.
  induction aligned as [|j aligned IH];
    intros i J m ihr ohr m' ihr' ohr' Hinc HJ Hfut Hord Hrun.
  - by injection Hrun as <- <- <-.
  - rewrite align_loop_cons in Hrun. inv_bind Hrun.
    destruct a as [[m1 ihr1] ohr1].
    apply increasing_from_cons in Hinc as [[-> Hinc]|(Hj & Hr & Hinc)].
    + rewrite align_step_skip in Ha. injection Ha as <- <- <-.
      apply (IH (S i) J m ihr ohr m' ihr' ohr'); try done.
      intros q p Hqp. destruct (Hfut q p Hqp) as [Hi Ho]. split; [|done].
      intros i' t Hi'. apply Hi. lia.
    + apply align_step_Ok in Ha
        as [(-> & _)|(_ & it & ot & Hit & Hot & -> & _ & _)]; [done|].
      apply getitem_nat_inv in Hit.
      replace j with (Z.of_nat (Z.to_nat j)) in Hot by lia.
      apply getitem_nat_inv in Hot.
      apply (IH (S i) (j + 1)%Z
               (<[source_line_id ot :=
                    default ∅ (m !! source_line_id ot) ∪ {[source_line_id it]}]>
                  m) ihr1 ohr1 m' ihr' ohr'); try done; [lia | |].
      * intros q p [[-> ->]|Hqp]%grouped_insert.
        -- split.
           ++ intros i' t Hi' Ht. apply (input_sorted i i'); [lia | done | done].
           ++ intros j' t Hj' Ht.
              apply (output_sorted (Z.to_nat j) j'); [lia | done | done].
        -- destruct (Hfut q p Hqp) as [Hi Ho]. split.
           ++ intros i' t Hi'. apply Hi. lia.
           ++ intros j' t Hj'. apply Ho. lia.
      * intros q1 q2 p1 p2 [[-> ->]|H1]%grouped_insert
          [[-> ->]|H2]%grouped_insert Hlt.
        -- lia.
        -- destruct (Hfut q2 p2 H2) as [_ Ho].
           specialize (Ho (Z.to_nat j) ot ltac:(lia) Hot). lia.
        -- destruct (Hfut q1 p1 H1) as [Hi _].
           by apply (Hi i it).
        -- by eapply Hord.
Qed.

End Order.

(** X8.  With an index vector of the right shape, the groups that
    [lcs_sequence_alignment] returns keep the order of the lines: a group
    with a higher output line id holds no input line id below one of a
    group with a lower output line id.  The group with the highest key
    therefore holds the last input lines of all. *)
Theorem groups_keep_line_order (lcs : list Z → list Z → list Z)
    (input_lines output_lines : lines_arg) (mapping : gmap nat (gset nat))
    (input_hit_rate output_hit_rate : list Q) :
  lcs_sequence_alignment lcs input_lines output_lines
  = Ok (mapping, input_hit_rate, output_hit_rate) →
  (∀ itoks otoks,
     tokenize_for_lcs (as_lines input_lines) (as_lines output_lines)
     = Ok (itoks, otoks) →
     index_vector_ok (length itoks) (length otoks)
       (lcs (token <$> itoks) (token <$> otoks)) = true) →
  ∀ q1 q2 s1 s2 p1 p2,
    mapping !! q1 = Some s1 → mapping !! q2 = Some s2 → q1 < q2 →
    p1 ∈ s1 → p2 ∈ s2 → p1 ≤ p2.
Proof.
  intros Hrun Hshape q1 q2 s1 s2 p1 p2 Hs1 Hs2 Hlt Hp1 Hp2.
  apply lcs_sequence_alignment_inv in Hrun
    as (itoks & otoks & m0 & ihr & ohr & Htok & Hloop & _ & _ & ->).
  specialize (Hshape itoks otoks Htok).
  apply andb_true_iff in Hshape as [_ Hinc].
  destruct (tokenize_spec _ _ _ _ _ Htok) as (d & _ & _ & HFi & HFo).
  eapply (align_loop_ordered itoks otoks) with (J := 0%Z) (q1 := q1) (q2 := q2);
    [ | | exact Hinc | lia | | | exact Hloop | | | exact Hlt].
  - eapply tokens_sorted; [apply line_words_sorted | exact HFi].
  - eapply tokens_sorted; [|exact HFo]. apply filter_sorted, line_words_sorted.
  - intros q p (s & Hs & _). by rewrite lookup_empty in Hs.
  - intros ? ? ? ? (s & Hs & _). by rewrite lookup_empty in Hs.
  - apply grouped_drop_low with output_hit_rate. by exists s1.
  - apply grouped_drop_low with output_hit_rate. by exists s2.
Qed.

Lemma groups_keep_line_order_witness :
  ∃ mapping input_hit_rate output_hit_rate,
    lcs_sequence_alignment RefLCS.lcs_sequence_idx
      (Lines ["The quick brown fox"; "jumps over"; "the lazy dog.";
              "A new paragraph"; "starts here."])
      (Lines ["The quick brown fox jumps over the lazy dog.";
              "A new paragraph starts here."])
    = Ok (mapping, input_hit_rate, output_hit_rate)
    ∧ mapping !! 0 = Some {[0; 1; 2]} ∧ mapping !! 1 = Some {[3; 4]}
    ∧ ∀ p1 p2, p1 ∈ ({[0; 1; 2]} : gset nat) → p2 ∈ ({[3; 4]} : gset nat) →
               p1 ≤ p2.
Proof.
  destruct (lcs_sequence_alignment RefLCS.lcs_sequence_idx
              (Lines ["The quick brown fox"; "jumps over"; "the lazy dog.";
                      "A new paragraph"; "starts here."])
              (Lines ["The quick brown fox jumps over the lazy dog.";
                      "A new paragraph starts here."]))
    as [[[m ir] or]|e] eqn:Hrun; [|vm_compute in Hrun; discriminate].
  exists m, ir, or. split; [done|].
  assert (m !! 0 = Some {[0; 1; 2]} ∧ m !! 1 = Some {[3; 4]}) as [H0 H1].
  { vm_compute in Hrun. injection Hrun as <- _ _. split; vm_compute; reflexivity. }
  split; [done|]. split; [done|].
  intros p1 p2 Hp1 Hp2.
  apply (groups_keep_line_order _ _ _ _ _ _ Hrun) with 0 1 {[0; 1; 2]} {[3; 4]}.
  - intros itoks otoks H. vm_compute in H. injection H as <- <-.
    vm_compute. reflexivity.
  - exact H0.
  - exact H1.
  - lia.
  - exact Hp1.
  - exact Hp2.
Defined.

(** ** More on the batcher *)

Section Progress.

Variable count_tokens : string → nat.
Variable token_limit : Z.

(** Why the loop of [gen_batch] stops: at the end of the document with a
    text that is not empty, or in front of a line that would reach the
    budget. *)
Lemma gen_batch_loop_stop (lines : list string) :
  ∀ (rem k : nat) (buf : string) (last : Z) (text : string) (e : Z),
    k + rem = length lines →
    (rem = 0 → (last + 1)%Z = Z.of_nat (length lines)) →
    gen_batch_loop count_tokens token_limit lines
      (seqZ (Z.of_nat k) (Z.of_nat rem)) buf last = Ok (Some (text, e)) →
    (text ≠ "" ∧ e = Z.of_nat (length lines))
    ∨ ∃ (k' : nat) (line : string),
        e = Z.of_nat k' ∧ k ≤ k' < length lines ∧ lines !! k' = Some line
        ∧ (token_limit
           ≤ Z.of_nat (count_tokens
               ((if decide (0 < String.length text)%nat
                 then text +:+ Py.newline else "") +:+ line)))%Z.
Proof.
  induction rem as [|rem IH]; intros k buf last text e Hlen Hlast Hrun.
  - rewrite seqZ_nil in Hrun by lia. simpl in Hrun.
    case_decide; [done|]. injection Hrun as <- <-. left.
    split; [done | by apply Hlast].
  - rewrite seqZ_cons in Hrun by lia. simpl in Hrun.
    assert (is_Some (lines !! k)) as [line Hline]
      by (apply lookup_lt_is_Some; lia).
    rewrite (getitem_nat _ _ _ Hline) in Hrun. simpl in Hrun.
    destruct (decide (token_limit ≤ _)%Z) as [Hover|Hunder] in Hrun.
    + injection Hrun as <- <-. right. exists k, line.
      split; [done|]. split; [lia|]. by split.
    + replace (Z.succ (Z.of_nat k)) with (Z.of_nat (S k)) in Hrun by lia.
      replace (Z.pred (Z.of_nat (S rem))) with (Z.of_nat rem) in Hrun by lia.
      apply IH in Hrun as [?|(k' & l' & -> & Hk' & Hl' & Hlim)];
        [by left | | lia | lia].
      right. exists k', l'. split; [done|]. split; [lia|]. by split.
Qed.

End Progress.

(** X9.  A batch that [gen_batch] returns from [start] consumes lines
    exactly when its text is not empty: with a text that is not empty the
    end lies beyond [start], at most at the end of the document; with the
    empty text the end is a line that alone reaches the budget, and every
    line from [start] up to it is empty. *)
Theorem gen_batch_progress (count_tokens : string → nat) (token_limit : Z)
    (lines : list string) (start : nat) (text : string) (e : Z) :
  start < length lines →
  gen_batch count_tokens token_limit lines (Z.of_nat start)
  = Ok (Some (text, e)) →
  (text ≠ "" → (Z.of_nat start < e ≤ Z.of_nat (length lines))%Z)
  ∧ (text = "" →
     ∃ (k : nat) (line : string),
       e = Z.of_nat k ∧ start ≤ k < length lines ∧ lines !! k = Some line
       ∧ (token_limit ≤ Z.of_nat (count_tokens line))%Z
       ∧ ∀ i, start ≤ i < k → lines !! i = Some "").
Proof.
  intros Hstart Hrun. unfold gen_batch in Hrun.
  rewrite decide_True in Hrun by lia.
  replace (Z.of_nat (length lines) - Z.of_nat start)%Z
    with (Z.of_nat (length lines - start)) in Hrun by lia.
  destruct (gen_batch_loop_spec count_tokens token_limit lines start
              (length lines - start) start "" (Z.of_nat start))
    as (r & Hr & Hpost); [lia | lia | by rewrite Nat.sub_diag | by left | lia |].
  rewrite Hrun in Hr. injection Hr as <-.
  destruct Hpost as (k & -> & Hk & Htext & _).
  assert (start + (length lines - start) = length lines) as Hsum by lia.
  assert (length lines - start = 0 →
          (Z.of_nat start + 1)%Z = Z.of_nat (length lines)) as Hnone by lia.
  pose proof (gen_batch_loop_stop count_tokens token_limit lines
                (length lines - start) start "" (Z.of_nat start) text
                (Z.of_nat k) Hsum Hnone Hrun) as Hstop.
  split.
  - intros Hne. split; [|lia].
    destruct (decide (k = start)) as [->|]; [|lia].
    rewrite Nat.sub_diag in Htext. by rewrite Htext in Hne.
  - intros ->. destruct Hstop as [[? _]|(k' & line & Hk' & Hrange & Hline & Hlim)];
      [done|].
    assert (k' = k) as -> by lia.
    exists k, line. split; [done|]. split; [lia|]. split; [done|].
    split; [exact Hlim|].
    intros i Hi. symmetry in Htext. apply batch_text_empty in Htext.
    rewrite Forall_lookup in Htext.
    assert (is_Some (lines !! i)) as [l Hl] by (apply lookup_lt_is_Some; lia).
    rewrite Hl. f_equal. apply (Htext (i - start) l).
    rewrite lookup_take_lt by lia. rewrite lookup_drop.
    by replace (start + (i - start)) with i by lia.
Qed.

Lemma gen_batch_progress_witness :
  (("b c" : string) ≠ "" → (1 < 2 ≤ 3)%Z)
  ∧ (("b c" : string) = "" →
     ∃ (k : nat) (line : string),
       2%Z = Z.of_nat k ∧ 1 ≤ k < 3
       ∧ ["a"; "b c"; "d e f g"] !! k = Some line
       ∧ (4 ≤ Z.of_nat (word_counter line))%Z
       ∧ ∀ i, 1 ≤ i < k → ["a"; "b c"; "d e f g"] !! i = Some "").
Proof.
  apply (gen_batch_progress word_counter 4 ["a"; "b c"; "d e f g"] 1 "b c" 2).
  - simpl. lia.
  - vm_compute. reflexivity.
Defined.

(** ** Batches and their lines *)

Lemma splitlines_from_one_line (s : string) :
  ∀ cur rest : string,
    one_line s = true →
    Py.splitlines_from cur (s +:+ rest) = Py.splitlines_from (cur +:+ s) rest.
Proof.
  induction s as [|c s IH]; intros cur rest Hs; simpl.
  - by rewrite append_empty_r.
  - simpl in Hs. apply andb_true_iff in Hs as [Hc Hs].
    apply negb_true_iff in Hc. rewrite Hc.
    rewrite IH by done. f_equal. by rewrite append_assoc.
Qed.

Lemma splitlines_from_newline (cur rest : string) :
  rest ≠ "" →
  Py.splitlines_from cur (Py.newline +:+ rest)
  = cur :: Py.splitlines_from "" rest.
Proof. intros Hrest. destruct rest; [done|]. reflexivity. Qed.

Lemma batch_text_from (rest : list string) :
  ∀ buf : string,
    buf ≠ "" →
    foldl (λ buf line,
             (if decide (0 < String.length buf) then buf +:+ Py.newline else "")
               +:+ line) buf rest
    = buf +:+ foldr (λ line acc, Py.newline +:+ line +:+ acc) "" rest.
Proof.
  induction rest as [|line rest IH]; intros buf Hbuf; simpl.
  - by rewrite append_empty_r.
  - rewrite decide_True by (by apply string_length_pos).
    rewrite IH.
    + by rewrite !append_assoc.
    + intros [H1 _]%append_empty. by apply append_empty in H1 as [? _].
Qed.

Lemma splitlines_tail (rest : list string) :
  ∀ cur : string,
    Forall (λ line, one_line line = true) rest →
    last (cur :: rest) ≠ Some "" →
    Py.splitlines_from cur
      (foldr (λ line acc, Py.newline +:+ line +:+ acc) "" rest)
    = cur :: rest.
Proof.
  induction rest as [|line rest IH]; intros cur Hclean Hlast.
  - simpl in *. case_decide; [congruence | done].
  - apply Forall_cons in Hclean as [Hline Hclean].
    cbn [foldr].
    rewrite splitlines_from_newline.
    + rewrite splitlines_from_one_line by done. simpl (_ +:+ _).
      f_equal. apply IH; [done|].
      by destruct rest.
    + intros [-> Htail]%append_empty. destruct rest as [|l rest]; [done|].
      simpl in Htail. unfold Py.newline in Htail. discriminate.
Qed.

Lemma splitlines_batch_text (lines : list string) :
  Forall (λ line, one_line line = true) lines →
  head lines ≠ Some "" → last lines ≠ Some "" →
  Py.splitlines (batch_text lines) = lines.
Proof.
  intros Hclean Hhead Hlast. destruct lines as [|line rest]; [done|].
  apply Forall_cons in Hclean as [Hline Hclean].
  assert (line ≠ "") as Hne by (intros ->; by apply Hhead).
  unfold batch_text, Py.splitlines. cbn [foldl].
  rewrite decide_False by (simpl; lia). simpl (_ +:+ _).
  rewrite batch_text_from by done.
  rewrite splitlines_from_one_line by done. simpl (_ +:+ _).
  by apply splitlines_tail.
Qed.

(** X10.  Take a batch that [gen_batch] returns from [start].  If none of
    its lines holds a line boundary of [str.splitlines()], and neither its
    first nor its last line is empty, then splitting the text of the batch
    gives back its lines, and the line offset that [detect] computes from
    the end of the batch and the number of split lines (line 203) is
    [start]. *)
Theorem batch_splits_back_into_its_lines (count_tokens : string → nat)
    (token_limit : Z) (lines : list string) (start : nat) (text : string)
    (e : Z) :
  start < length lines →
  gen_batch count_tokens token_limit lines (Z.of_nat start)
  = Ok (Some (text, e)) →
  Forall (λ line, one_line line = true)
    (take (Z.to_nat e - start) (drop start lines)) →
  head (take (Z.to_nat e - start) (drop start lines)) ≠ Some "" →
  last (take (Z.to_nat e - start) (drop start lines)) ≠ Some "" →
  Py.splitlines text = take (Z.to_nat e - start) (drop start lines)
  ∧ (e - Z.of_nat (length (Py.splitlines text)))%Z = Z.of_nat start.
Proof.
  intros Hstart Hrun Hclean Hhead Hlast. unfold gen_batch in Hrun.
  rewrite decide_True in Hrun by lia.
  replace (Z.of_nat (length lines) - Z.of_nat start)%Z
    with (Z.of_nat (length lines - start)) in Hrun by lia.
  destruct (gen_batch_loop_spec count_tokens token_limit lines start
              (length lines - start) start "" (Z.of_nat start))
    as (r & Hr & Hpost); [lia | lia | by rewrite Nat.sub_diag | by left | lia |].
  rewrite Hrun in Hr. injection Hr as <-.
  destruct Hpost as (k & -> & Hk & -> & _).
  rewrite Nat2Z.id in *.
  rewrite splitlines_batch_text by done.
  split; [done|].
  rewrite length_take, length_drop. lia.
Qed.

Lemma batch_splits_back_into_its_lines_witness :
  Py.splitlines ("b c" +:+ Py.newline +:+ Py.newline +:+ "d")
  = take (Z.to_nat 4 - 1) (drop 1 ["a"; "b c"; ""; "d"; "e f g h i"])
  ∧ (4 - Z.of_nat (length (Py.splitlines
                             ("b c" +:+ Py.newline +:+ Py.newline +:+ "d"))))%Z
    = Z.of_nat 1.
Proof.
  apply (batch_splits_back_into_its_lines word_counter 5
           ["a"; "b c"; ""; "d"; "e f g h i"] 1).
  - simpl. lia.
  - vm_compute. reflexivity.
  - repeat constructor.
  - vm_compute. discriminate.
  - vm_compute. discriminate.
Defined.

(** ** Marking the decisions and moving the cursor *)

Lemma setitem_nonneg {A : Type} (l : list A) (i : Z) (x : A) :
  (0 ≤ i < Z.of_nat (length l))%Z →
  Py.setitem l i x = Ok (<[Z.to_nat i := x]> l).
Proof.
  intros Hi. unfold Py.setitem.
  destruct (decide (i < 0)%Z); [lia|]. by rewrite decide_True.
Qed.

Lemma mark_group_spec (igroups : gset nat) (offset : Z) (ids : list nat) :
  ∀ d : list bool,
    (∀ g, g ∈ ids → g + 1 ∈ igroups →
          (0 ≤ Z.of_nat g + offset < Z.of_nat (length d))%Z) →
    ∃ d', mark_group igroups ids offset d = Ok d'
          ∧ length d' = length d
          ∧ ∀ i, d' !! i = Some true
                 ↔ d !! i = Some true
                   ∨ (i < length d
                      ∧ ∃ g, g ∈ ids ∧ g + 1 ∈ igroups
                             ∧ Z.of_nat i = (Z.of_nat g + offset)%Z).
Proof.
  induction ids as [|g ids IH]; intros d Hrange.
  - exists d. split; [done|]. split; [done|]. intros i. split; [by left|].
    intros [?|(_ & g & Hg & _)]; [done|]. by apply elem_of_nil in Hg.
  - simpl. destruct (decide (g + 1 ∈ igroups)) as [Hin|Hout].
    + rewrite setitem_nonneg by (apply Hrange; [left | done]). simpl.
      destruct (IH (<[Z.to_nat (Z.of_nat g + offset) := true]> d))
        as (d' & -> & Hlen & Hiff).
      { intros g' Hg' Hin'. rewrite length_insert.
        apply Hrange; [by right | done]. }
      rewrite length_insert in Hlen, Hiff.
      specialize (Hrange g ltac:(left) Hin).
      exists d'. split; [done|]. split; [done|].
      intros i. rewrite Hiff. split.
      * intros [Hi|(Hi & g' & Hg' & Hin' & Heq)].
        -- destruct (decide (i = Z.to_nat (Z.of_nat g + offset))) as [->|Hne].
           ++ right. split; [lia|]. exists g. split; [left|]. split; [done | lia].
           ++ left. by rewrite list_lookup_insert_ne in Hi.
        -- right. split; [done|]. exists g'. split; [by right | done].
      * intros [Hi|(Hi & g' & Hg' & Hin' & Heq)].
        -- destruct (decide (i = Z.to_nat (Z.of_nat g + offset))) as [->|Hne].
           ++ left. apply list_lookup_insert_eq. lia.
           ++ left. by rewrite list_lookup_insert_ne.
        -- apply elem_of_cons in Hg' as [->|Hg'].
           ++ left. replace i with (Z.to_nat (Z.of_nat g + offset)) by lia.
              apply list_lookup_insert_eq. lia.
           ++ right. split; [done|]. by exists g'.
    + destruct (IH d) as (d' & -> & Hlen & Hiff).
      { intros g' Hg' Hin'. apply Hrange; [by right | done]. }
      exists d'. split; [done|]. split; [done|].
      intros i. rewrite Hiff. split.
      * intros [?|(Hi & g' & Hg' & Hin' & Heq)]; [by left|].
        right. split; [done|]. exists g'. split; [by right | done].
      * intros [?|(Hi & g' & Hg' & Hin' & Heq)]; [by left|].
        apply elem_of_cons in Hg' as [->|Hg']; [done|].
        right. split; [done|]. by exists g'.
Qed.

Lemma mark_groups_spec (offset : Z) (groups : list (gset nat)) :
  ∀ d : list bool,
    (∀ s g, s ∈ groups → g ∈ s → g + 1 ∈ s →
            (0 ≤ Z.of_nat g + offset < Z.of_nat (length d))%Z) →
    ∃ d', mark_groups groups offset d = Ok d'
          ∧ length d' = length d
          ∧ ∀ i, d' !! i = Some true
                 ↔ d !! i = Some true
                   ∨ (i < length d
                      ∧ ∃ s g, s ∈ groups ∧ g ∈ s ∧ g + 1 ∈ s
                               ∧ Z.of_nat i = (Z.of_nat g + offset)%Z).
Proof.
  induction groups as [|s groups IH]; intros d Hrange.
  - exists d. split; [done|]. split; [done|]. intros i. split; [by left|].
    intros [?|(_ & s & g & Hs & _)]; [done|]. by apply elem_of_nil in Hs.
  - simpl.
    destruct (mark_group_spec s offset (elements s) d) as (d1 & -> & Hlen1 & Hiff1).
    { intros g Hg Hin. apply (Hrange s g); [left | by apply elem_of_elements | done]. }
    simpl.
    destruct (IH d1) as (d' & -> & Hlen & Hiff).
    { intros s' g Hs' Hg Hin. rewrite Hlen1. apply (Hrange s' g); [by right | done | done]. }
    rewrite Hlen1 in Hlen, Hiff.
    exists d'. split; [done|]. split; [done|].
    intros i. rewrite Hiff, Hiff1. split.
    + intros [[?|(Hi & g & Hg & Hin & Heq)]|(Hi & s' & g & Hs' & Hg & Hin & Heq)].
      * by left.
      * right. split; [done|]. exists s, g. split; [left|].
        split; [by apply elem_of_elements | done].
      * right. split; [done|]. exists s', g. split; [by right | done].
    + intros [?|(Hi & s' & g & Hs' & Hg & Hin & Heq)]; [by left; left|].
      apply elem_of_cons in Hs' as [->|Hs'].
      * left. right. split; [done|]. exists g.
        split; [by apply elem_of_elements | done].
      * right. split; [done|]. by exists s', g.
Qed.

(** X11.  Lines 214-217 on a mapping: when every gap they are to mark lies
    inside the decision vector, they raise nothing, keep the length of the
    vector, and leave [True] exactly at the entries that were [True]
    before and at the entries [g + input_line_offset] for which one group
    holds both [g] and [g + 1]. *)
Theorem marks_adjacent_lines_of_a_group (mapping : gmap nat (gset nat))
    (input_line_offset : Z) (d : list bool) :
  (∀ q g, grouped mapping q g → grouped mapping q (g + 1) →
          (0 ≤ Z.of_nat g + input_line_offset < Z.of_nat (length d))%Z) →
  ∃ d', (py_values (VDict mapping) ≫= λ groups,
           mark_groups groups input_line_offset d) = Ok d'
        ∧ length d' = length d
        ∧ ∀ i, d' !! i = Some true
               ↔ d !! i = Some true
                 ∨ (i < length d
                    ∧ ∃ q g, grouped mapping q g ∧ grouped mapping q (g + 1)
                             ∧ Z.of_nat i = (Z.of_nat g + input_line_offset)%Z).
Proof.
  intros Hrange. simpl.
  assert (∀ s, s ∈ (map_to_list mapping).*2 ↔ ∃ q, mapping !! q = Some s)
    as Hvalues.
  { intros s. rewrite list_elem_of_fmap. split.
    - intros ([q s'] & -> & Hqs). exists q. by apply elem_of_map_to_list.
    - intros [q Hq]. exists (q, s). split; [done|].
      by apply elem_of_map_to_list. }
  destruct (mark_groups_spec input_line_offset (map_to_list mapping).*2 d)
    as (d' & Hrun & Hlen & Hiff).
  { intros s g [q Hq]%Hvalues Hg Hin. apply (Hrange q g); by exists s. }
  exists d'. split; [done|]. split; [done|].
  intros i. rewrite Hiff. split.
  - intros [?|(Hi & s & g & [q Hq]%Hvalues & Hg & Hin & Heq)]; [by left|].
    right. split; [done|]. exists q, g. split; [by exists s|].
    split; [by exists s | done].
  - intros [?|(Hi & q & g & (s & Hs & Hg) & (s' & Hs' & Hin) & Heq)]; [by left|].
    assert (s' = s) as -> by congruence.
    right. split; [done|]. exists s, g. split; [|done].
    apply Hvalues. by exists q.
Qed.

Lemma marks_adjacent_lines_of_a_group_witness :
  ∃ d', (py_values (VDict {[0 := {[0; 1]}]}) ≫= λ groups,
           mark_groups groups 1 [false; false; false])
        = Ok d'
        ∧ length d' = 3
        ∧ ∀ i, d' !! i = Some true
               ↔ [false; false; false] !! i = Some true
                 ∨ (i < 3
                    ∧ ∃ q g,
                        grouped {[0 := {[0; 1]}]} q g
                        ∧ grouped {[0 := {[0; 1]}]} q (g + 1)
                        ∧ Z.of_nat i = (Z.of_nat g + 1)%Z).
Proof.
  apply (marks_adjacent_lines_of_a_group {[0 := {[0; 1]}]} 1
           [false; false; false]).
  intros q g (s & Hs & Hg) _.
  apply lookup_singleton_Some in Hs as [_ <-].
  assert (g = 0 ∨ g = 1) as Hcases by set_solver.
  simpl. lia.
Defined.

(** X12.  Lines 205-212 on a mapping whose groups hold positions among
    the [n] lines of the batch, with the line offset [next_line_id - n]:
    when the batch stops short of the document's end and the pass does not
    raise, the new cursor lies beyond the line offset and not beyond the
    end of the batch; when the batch reaches the document's end, the cursor
    is the document length and every group is kept. *)
Theorem cursor_lands_inside_the_batch (lines : list string)
    (next_line_id : Z) (n : nat) (groups : gmap nat (gset nat))
    (align_map' : pyval) (todo : Z) :
  (∀ q p, grouped groups q p → p < n) →
  advance_cursor lines next_line_id (next_line_id - Z.of_nat n) (VDict groups)
  = Ok (align_map', todo) →
  ((next_line_id < Z.of_nat (length lines))%Z →
   (next_line_id - Z.of_nat n < todo ≤ next_line_id)%Z)
  ∧ ((Z.of_nat (length lines) ≤ next_line_id)%Z →
     todo = Z.of_nat (length lines) ∧ align_map' = VDict groups).
Proof.
  intros Hmembers Hrun. unfold advance_cursor in Hrun.
  destruct (decide (next_line_id < Z.of_nat (length lines))%Z) as [Hnext|Hnext].
  - split; [intros _ | lia].
    inv_bind Hrun. rename a into v. inv_bind Hrun. rename a into gs.
    inv_bind Hrun. rename a into mx. injection Hrun as <- <-.
    apply max_of_Ok in Ha1 as [Hmx _].
    assert (∃ survivors, v = VDict survivors ∧ survivors ⊆ groups)
      as (survivors & -> & Hsub).
    { destruct (decide (1 < py_len (VDict groups))).
      - simpl in Ha. inv_bind Ha. injection Ha as <-.
        eexists. split; [done|]. apply delete_subseteq.
      - injection Ha as <-. by exists groups. }
    simpl in Ha0. injection Ha0 as <-.
    apply elem_of_groups in Hmx as (q & s & Hs & Hin).
    assert (mx < n) as Hlt.
    { apply (Hmembers q mx). exists s. split; [|done].
      by eapply lookup_weaken. }
    lia.
  - injection Hrun as <- <-. split; [lia | done].
Qed.

Lemma cursor_lands_inside_the_batch_witness :
  ((7 < Z.of_nat (length (replicate 10 "line")))%Z → (7 - Z.of_nat 7 < 5 ≤ 7)%Z)
  ∧ ((Z.of_nat (length (replicate 10 "line")) ≤ 7)%Z →
     5%Z = Z.of_nat (length (replicate 10 "line"))
     ∧ VDict {[0 := {[0; 1; 2; 3; 4]}]}
       = VDict {[0 := {[0; 1; 2; 3; 4]}; 1 := {[5; 6]}]}).
Proof.
  apply (cursor_lands_inside_the_batch (replicate 10 "line") 7 7
           {[0 := {[0; 1; 2; 3; 4]}; 1 := {[5; 6]}]}).
  - intros q p (s & Hs & Hp).
    apply lookup_insert_Some in Hs as [[_ <-]|[_ [_ <-]%lookup_singleton_Some]].
    + assert (p = 0 ∨ p = 1 ∨ p = 2 ∨ p = 3 ∨ p = 4) by set_solver. lia.
    + assert (p = 5 ∨ p = 6) by set_solver. lia.
  - vm_compute. reflexivity.
Defined.

(** X13.  [detect] returns a decision vector only for the empty document
    or when its first batch has fewer than 20 tokens: the vector is then
    all [False] and the cache directory is as it was, no request having
    been made.  Conversely, a first batch of fewer than 20 tokens makes
    every run with fuel return that vector. *)
Theorem detect_returns_only_below_the_noise_floor
    (lcs : list Z → list Z → list Z) (count_tokens : string → nat)
    (token_limit : Z) (gpt : string → result string) (fuel : nat)
    (lines : list string) (record_id : string)
    (cache_dir : gmap (string * nat) string) :
  (∀ d, (detect lcs count_tokens token_limit gpt fuel lines record_id
           cache_dir).1 = Some (Ok d) →
        d = replicate (length lines - 1) false
        ∧ (detect lcs count_tokens token_limit gpt fuel lines record_id
             cache_dir).2 = cache_dir
        ∧ (lines = []
           ∨ ∃ batch e,
               gen_batch count_tokens token_limit lines 0
               = Ok (Some (batch, e))
               ∧ count_tokens batch < 20))
  ∧ (∀ batch e,
       gen_batch count_tokens token_limit lines 0 = Ok (Some (batch, e)) →
       count_tokens batch < 20 →
       detect lcs count_tokens token_limit gpt (S fuel) lines record_id
         cache_dir
       = (Some (Ok (replicate (length lines - 1) false)), cache_dir)).
Proof.
  unfold detect. set (st := mkDetectionState _ 0 0).
  assert (todo_lineid st = 0%Z) as Htodo by done.
  assert (detections st = replicate (length lines - 1) false) as Hdet by done.
  clearbody st. split.
  - intros d Hd.
    destruct (decide (todo_lineid st < Z.of_nat (length lines))%Z) as [Hlt|Hge].
    + destruct fuel as [|fuel]; simpl in *;
        rewrite decide_True in * by done; [done|].
      destruct (detect_iter_outcome lcs count_tokens token_limit gpt lines
                  record_id st cache_dir)
        as [[e He]|(Hb & Hc & batch & next & Hgen & Hfloor)];
        destruct (detect_iter _ _ _ _ _ _ _ _) as [r c]; simpl in *; subst r.
      * done.
      * injection Hd as <-. subst c. split; [done|]. split; [done|].
        right. exists batch, next. rewrite Htodo in Hgen. by split.
    + assert (lines = []) as ->
        by (destruct lines; [done | simpl in Hge; lia]).
      destruct fuel; simpl in *; rewrite decide_False in * by done;
        injection Hd as <-; (split; [done|]); (split; [done | by left]).
  - intros batch e Hgen Hfloor.
    assert (todo_lineid st < Z.of_nat (length lines))%Z as Hlt.
    { rewrite Htodo. unfold gen_batch in Hgen. by case_decide. }
    simpl. rewrite decide_True by done.
    unfold detect_iter. rewrite Htodo, Hgen. rewrite decide_True by done.
    by rewrite Hdet.
Qed.

Lemma detect_returns_only_below_the_noise_floor_witness :
  detect RefLCS.lcs_sequence_idx word_counter 1400 echo 3
    ["a b c"; "d e"; "f"] "453500" ∅
  = (Some (Ok (replicate (length ["a b c"; "d e"; "f"] - 1) false)), ∅).
Proof.
  destruct (detect_returns_only_below_the_noise_floor RefLCS.lcs_sequence_idx
              word_counter 1400 echo 2 ["a b c"; "d e"; "f"] "453500" ∅)
    as [_ Hfloor].
  apply (Hfloor ("a b c" +:+ Py.newline +:+ "d e" +:+ Py.newline +:+ "f") 3%Z).
  - vm_compute. reflexivity.
  - vm_compute. lia.
Defined.

Lemma align_loop_no_output (itoks : list LCSTokenInfo) (aligned : list Z) :
  ∀ (i : nat) (st st' : gmap nat (gset nat) * list nat * list nat),
    align_loop itoks [] i aligned st = Ok st' → st' = st.
Proof.
  induction aligned as [|j aligned IH]; intros i st st' Hrun.
  - by injection Hrun as <-.
  - rewrite align_loop_cons in Hrun. inv_bind Hrun.
    apply IH in Hrun as ->.
    destruct st as [[m ihr] ohr], a as [[m1 ihr1] ohr1].
    apply align_step_Ok in Ha
      as [(_ & -> & -> & ->)|(_ & it & ot & _ & Hot & _)]; [done|].
    apply getitem_elem_of in Hot. by apply elem_of_nil in Hot.
Qed.

(** X14.  When the output side has no line (the reflow answer is the empty
    text) and [lcs_sequence_alignment] returns, the mapping is empty, there
    is no output rate, and every input rate is 0, whatever the LCS
    routine. *)
Theorem empty_answer_gives_no_group (lcs : list Z → list Z → list Z)
    (input_lines output_lines : lines_arg) (mapping : gmap nat (gset nat))
    (input_hit_rate output_hit_rate : list Q) :
  as_lines output_lines = [] →
  lcs_sequence_alignment lcs input_lines output_lines
  = Ok (mapping, input_hit_rate, output_hit_rate) →
  mapping = ∅ ∧ output_hit_rate = []
  ∧ length input_hit_rate = length (as_lines input_lines)
  ∧ Forall (λ r, (r == 0)%Q) input_hit_rate.
Proof.
  intros Hempty Hrun.
  apply lcs_sequence_alignment_inv in Hrun
    as (itoks & otoks & m0 & ihr & ohr & Htok & Hloop & Hni & Hno & ->).
  destruct (tokenize_spec _ _ _ _ _ Htok) as (d & _ & _ & _ & HFo).
  rewrite Hempty in *. simpl in HFo. apply Forall2_nil_inv_l in HFo as ->.
  apply align_loop_no_output in Hloop. injection Hloop as -> -> ->.
  simpl in Hno. injection Hno as <-.
  destruct (normalize_lookup _ _ _ _ Hni) as [Hlen Hlook].
  split; [done|]. split; [done|].
  split; [by rewrite Hlen, length_replicate|].
  apply Forall_lookup. intros k r Hk.
  destruct (Hlook k r Hk) as (v & line & Hv & _ & Hdiv).
  apply lookup_replicate in Hv as [-> _].
  by apply truediv_Ok in Hdiv as [_ ->].
Qed.

Lemma empty_answer_gives_no_group_witness :
  ∃ mapping input_hit_rate output_hit_rate,
    lcs_sequence_alignment RefLCS.lcs_sequence_idx
      (Lines ["a b"; "c d"]) (Text "")
    = Ok (mapping, input_hit_rate, output_hit_rate)
    ∧ mapping = ∅ ∧ output_hit_rate = []
    ∧ length input_hit_rate = 2
    ∧ Forall (λ r, (r == 0)%Q) input_hit_rate.
Proof.
  destruct (lcs_sequence_alignment RefLCS.lcs_sequence_idx
              (Lines ["a b"; "c d"]) (Text ""))
    as [[[m ir] or]|e] eqn:Hrun; [|vm_compute in Hrun; discriminate].
  exists m, ir, or. split; [done|].
  apply (empty_answer_gives_no_group RefLCS.lcs_sequence_idx
           (Lines ["a b"; "c d"]) (Text "") m ir or); [reflexivity | exact Hrun].
Defined.
